(** * Hypothesis: numeric strategies and the [given] orchestrator

    A shallow embedding of [hypothesis/searchstrategy/numbers.py] and of
    [hypothesis/core.py], and the properties of them that the specification
    states.  Python values are a small tagged union, exceptions an inductive
    type, floats are binary64 bit patterns interpreted through the standard
    library's [spec_float], and code that raises returns a [res]. *)

From Stdlib Require Import ZArith NArith List String Ascii Bool Lia QArith.
From Stdlib Require Import Strings.Byte.
From Stdlib Require Import Floats.SpecFloat.
From stdpp Require Import base option list gmap strings pretty.

Local Open Scope string_scope.
Local Open Scope Z_scope.

(** ** Python values, exceptions and results *)

Module Py.

(** A byte buffer, as [bytes]. *)
Definition Buffer := list byte.

#[global] Instance byte_eq_dec : EqDecision byte.
Proof.
  intros x y. destruct (Byte.eqb x y) eqn:E.
  - left. now apply Byte.byte_dec_bl.
  - right. intros ->. rewrite Byte.byte_dec_lb in E; congruence.
Defined.

(** The values the modelled code inspects.  [PyObj] is any other object,
    known only by its identity. *)
Inductive PyVal :=
| PyNone
| PyBool (b : bool)
| PyInt (n : Z)
| PyFloat (bits : Z)
| PyObj (id : nat).

#[global] Instance PyVal_eq_dec : EqDecision PyVal.
Proof. solve_decision. Defined.

(** [x is not None] *)
Definition is_not_None (v : PyVal) : bool :=
  match v with PyNone => false | _ => true end.

(** [isinstance(x, bool)] *)
Definition isinstance_bool (v : PyVal) : bool :=
  match v with PyBool _ => true | _ => false end.

(** The exception classes the two modules raise or handle.  [UserException]
    stands for any other subclass of [Exception] raised by user code, and
    [UserBaseException] for one deriving from [BaseException] only (such as
    [KeyboardInterrupt]).  [StopTest] carries the identity of the byte
    source that stopped; [Timeout] and [Unsatisfiable] carry the numbers their
    messages are formatted from. *)
Inductive Exn :=
| TypeError
| ValueError (msg : string)
| AssertionError
| AttributeError (attr : string)
| StructError
| OverflowError
| NameError
| InvalidArgument (msg : string)
| UnsatisfiedAssumption
| HypothesisDeprecationWarning
| FailedHealthCheck (msg : string)
| Flaky (msg : string)
| Timeout (valid_examples : Z) (run_time : Q)
| Unsatisfiable (valid_examples : Z)
| StopTest (data : nat)
| UserException (id : nat)
| UserBaseException (id : nat).

(** [isinstance(e, Exception)]: everything but [StopTest] and the bare
    [BaseException]s. *)
Definition is_Exception (e : Exn) : bool :=
  match e with
  | StopTest _ | UserBaseException _ => false
  | _ => true
  end.

Definition is_Flaky (e : Exn) : bool :=
  match e with Flaky _ => true | _ => false end.

(** The result of running code that may raise. *)
Inductive res (A : Type) :=
| Val (a : A)
| Exc (e : Exn).
Arguments Val {A} a.
Arguments Exc {A} e.

Definition res_bind {A B} (m : res A) (k : A -> res B) : res B :=
  match m with
  | Val a => k a
  | Exc e => Exc e
  end.

(** [assert c] *)
Definition py_assert (c : bool) : res unit :=
  if c then Val tt else Exc AssertionError.

(** *** Binding the arguments of a call

    A function without [*args] or [**kwargs] has required parameters and
    parameters with defaults ([self] left out).  A call supplies positional
    arguments and keyword arguments; binding fails with [TypeError] when
    there are too many positional arguments, a keyword that names no
    parameter or one already bound, or a required parameter left without a
    value. *)
Record Signature := {
  sig_required : list string;
  sig_optional : list (string * PyVal)
}.

Definition sig_params (sg : Signature) : list string :=
  sig_required sg ++ map fst (sig_optional sg).

Fixpoint bind_keywords (params : list string) (env : gmap string PyVal)
    (kwargs : list (string * PyVal)) : res (gmap string PyVal) :=
  match kwargs with
  | [] => Val env
  | (k, v) :: rest =>
      if bool_decide (k ∈ params) then
        match env !! k with
        | Some _ => Exc TypeError
        | None => bind_keywords params (<[k := v]> env) rest
        end
      else Exc TypeError
  end.

Fixpoint check_required (required : list string) (env : gmap string PyVal)
    : res unit :=
  match required with
  | [] => Val tt
  | p :: rest =>
      match env !! p with
      | Some _ => check_required rest env
      | None => Exc TypeError
      end
  end.

Fixpoint fill_defaults (optional : list (string * PyVal))
    (env : gmap string PyVal) : gmap string PyVal :=
  match optional with
  | [] => env
  | (p, d) :: rest =>
      match env !! p with
      | Some _ => fill_defaults rest env
      | None => fill_defaults rest (<[p := d]> env)
      end
  end.

Definition bind_arguments (sg : Signature) (args : list PyVal)
    (kwargs : list (string * PyVal)) : res (gmap string PyVal) :=
  let params := sig_params sg in
  if (length params <? length args)%nat then Exc TypeError
  else
    let positional : gmap string PyVal := list_to_map (zip params args) in
    res_bind (bind_keywords params positional kwargs) (fun env =>
    res_bind (check_required (sig_required sg) env) (fun _ =>
    Val (fill_defaults (sig_optional sg) env))).

(** The value bound to a parameter after a successful binding. *)
Definition arg (env : gmap string PyVal) (p : string) : PyVal :=
  default PyNone (env !! p).

End Py.

Export Py.

Declare Scope res_scope.
Delimit Scope res_scope with res.
Notation "x <- m ;; k" := (res_bind m (fun x => k))
  (at level 100, m at next level, right associativity) : res_scope.
Notation "m ;;; k" := (res_bind m (fun _ => k))
  (at level 100, right associativity) : res_scope.

Declare Scope run_scope.
Delimit Scope run_scope with run.

(** ** Binary64 floats

    A Python [float] is modelled by its 64-bit pattern (sign, 11 exponent
    bits, 52 fraction bits), which is what [struct.pack('!d', _)] writes;
    its value and its arithmetic are those of the standard library's
    [spec_float] at precision 53 and exponent bound 1024. *)

Module Float64.

Definition prec : Z := 53.
Definition emax : Z := 1024.

Definition sign_bit (b : Z) : bool := Z.testbit b 63.
Definition exponent_field (b : Z) : Z := Z.land (Z.shiftr b 52) 0x7FF.
Definition fraction_field (b : Z) : Z := Z.land b 0xFFFFFFFFFFFFF.

(** The value of a bit pattern. *)
Definition decode (b : Z) : spec_float :=
  let s := sign_bit b in
  let e := exponent_field b in
  let m := fraction_field b in
  if e =? 0 then
    match m with
    | Zpos p => S754_finite s p (-1074)
    | _ => S754_zero s
    end
  else if e =? 0x7FF then
    if m =? 0 then S754_infinity s else S754_nan
  else
    match Z.lor m 0x10000000000000 with
    | Zpos p => S754_finite s p (e - 1075)
    | _ => S754_nan
    end.

Definition sign_mask (s : bool) : Z := if s then 0x8000000000000000 else 0.

(** The NaN an arithmetic operation produces. *)
Definition default_nan : Z := 0x7FF8000000000000.

(** The bit pattern of a (canonical) value. *)
Definition encode (x : spec_float) : Z :=
  match x with
  | S754_zero s => sign_mask s
  | S754_infinity s => Z.lor (sign_mask s) 0x7FF0000000000000
  | S754_nan => default_nan
  | S754_finite s m e =>
      if Zpos m <? 0x10000000000000 then Z.lor (sign_mask s) (Zpos m)
      else Z.lor (sign_mask s)
             (Z.lor (Z.shiftl (e + 1075) 52) (Zpos m - 0x10000000000000))
  end.

(** [math.isinf], [math.isnan] *)
Definition isinf (b : Z) : bool :=
  (exponent_field b =? 0x7FF) && (fraction_field b =? 0).
Definition isnan (b : Z) : bool :=
  (exponent_field b =? 0x7FF) && negb (fraction_field b =? 0).
Definition isfinite (b : Z) : bool := negb (exponent_field b =? 0x7FF).

(** [x <= y], [x < y] on floats: false as soon as one side is a NaN. *)
Definition le (x y : Z) : bool := SFleb (decode x) (decode y).
Definition lt (x y : Z) : bool := SFltb (decode x) (decode y).

(** [-x] flips the sign bit, of a NaN too. *)
Definition neg (b : Z) : Z := Z.lxor b 0x8000000000000000.

Definition add (x y : Z) : Z := encode (SFadd prec emax (decode x) (decode y)).
Definition sub (x y : Z) : Z := encode (SFsub prec emax (decode x) (decode y)).
Definition mul (x y : Z) : Z := encode (SFmul prec emax (decode x) (decode y)).
Definition div (x y : Z) : Z := encode (SFdiv prec emax (decode x) (decode y)).

(** [float(n)] for an integer in range, and [m * 2**e] rounded. *)
Definition of_scaled (m e : Z) : Z := encode (binary_normalize prec emax m e false).
Definition of_int (n : Z) : Z := of_scaled n 0.

Definition zero : Z := 0.
Definition neg_zero : Z := 0x8000000000000000.
Definition one : Z := 0x3FF0000000000000.
Definition inf : Z := 0x7FF0000000000000.
Definition nan : Z := 0x7FF8000000000000.

(** Big-endian bytes of an unsigned integer, and back. *)
Fixpoint to_bytes_be (n : nat) (z : Z) : Buffer :=
  match n with
  | O => []
  | S k =>
      default x00 (Byte.of_N (Z.to_N (Z.land (Z.shiftr z (8 * Z.of_nat k)) 0xFF)))
        :: to_bytes_be k z
  end.

Definition from_bytes_be (l : Buffer) : Z :=
  fold_left (fun acc b => acc * 256 + Z.of_N (Byte.to_N b)) l 0.

(** [struct.pack(b'!d', f)] and [struct.unpack(b'!d', bs)[0]]. *)
Definition struct_pack_d (f : Z) : Buffer := to_bytes_be 8 f.

Definition struct_unpack_d (bs : Buffer) : res Z :=
  if (length bs =? 8)%nat then Val (from_bytes_be bs) else Exc StructError.

End Float64.

(** ** [hypothesis/searchstrategy/numbers.py] *)

Module Numbers.
Import Float64.

Local Open Scope res_scope.

(** *** Collaborators *)

(** The [random.Random] instance handed to a sampling function, as an
    oracle: an unbounded source of raw numbers and a read position. *)
Record Random := { rnd_src : nat -> N; rnd_pos : nat }.

Definition rnd_next (r : Random) : N * Random :=
  (rnd_src r (rnd_pos r), {| rnd_src := rnd_src r; rnd_pos := S (rnd_pos r) |}).

(** [random.randint(a, b)], for [a <= b]. *)
Definition randint (a b : Z) (r : Random) : Z * Random :=
  let (x, r') := rnd_next r in (a + Z.of_N x mod (b - a + 1), r').

(** [random.choice(seq)], for a non-empty [seq]. *)
Definition choice {A} (seq : list A) (d : A) (r : Random) : A * Random :=
  let (x, r') := rnd_next r in
  (nth (N.to_nat x mod length seq) seq d, r').

(** [random.random()]: a multiple of [2**-53] in [0, 1). *)
Definition random (r : Random) : Z * Random :=
  let (x, r') := rnd_next r in
  (of_scaled (Z.of_N x mod 2 ^ 53) (-53), r').

(** [bytes(random.randint(0, 255) for _ in range(n))] *)
Fixpoint random_bytes (n : nat) (r : Random) : Buffer * Random :=
  match n with
  | O => ([], r)
  | S k =>
      let (b, r1) := randint 0 255 r in
      let (bs, r2) := random_bytes k r1 in
      (default x00 (Byte.of_N (Z.to_N b)) :: bs, r2)
  end.

(** A sampling function [distribution(random, n)]; [None] when it does not
    return. *)
Definition Distribution := Random -> nat -> option (res (Buffer * Random)).

(** Modelled from the spec: the Byte Source ([TestData] of
    [hypothesis.internal.conjecture.data]) is not among the sources.  It is
    "an ordered, appendable/consumable sequence of bytes" that "supports
    drawing N bytes optionally biased by a supplied sampling function" and
    carries an overflow classification: a source replaying a buffer hands
    out its next [n] bytes, and stops the test when fewer are left; a source
    generating fresh data asks the sampling function. *)
Inductive ByteSource :=
| Replay (id : nat) (rest : Buffer)
| Generate (id : nat) (rnd : Random).

Definition for_buffer (id : nat) (b : Buffer) : ByteSource := Replay id b.

Definition draw_bytes (data : ByteSource) (n : nat) (distribution : Distribution)
    : option (res (Buffer * ByteSource)) :=
  match data with
  | Replay id rest =>
      if (n <=? length rest)%nat
      then Some (Val (take n rest, Replay id (drop n rest)))
      else Some (Exc (StopTest id))
  | Generate id rnd =>
      match distribution rnd n with
      | None => None
      | Some (Exc e) => Some (Exc e)
      | Some (Val (bs, rnd')) => Some (Val (bs, Generate id rnd'))
      end
  end.

(** Modelled from the spec: [assume] of [hypothesis.control] is not among
    the sources; a condition that does not hold is "treated as an
    unsatisfied precondition". *)
Definition assume (condition : bool) : res unit :=
  if condition then Val tt else Exc UnsatisfiedAssumption.

(** Modelled from the spec: [sign] of [hypothesis.internal.floats] is not
    among the sources; the "sign class" of a float is [1.0] or [-1.0]
    according to its sign bit. *)
Definition sign (x : Z) : Z := if sign_bit x then neg one else one.

(** Modelled from the spec: [integer_range] of
    [hypothesis.internal.conjecture.utils] is not among the sources;
    "[integer_range(byteSource, start, end)] samples uniformly over
    [start, end]".  It reads as many bytes as the width of the range needs
    and reduces the integer they spell into the range; a generating source
    is asked for the bytes of a [randint] offset. *)
Definition byte_length (gap : Z) : nat := Z.to_nat ((Z.log2 gap + 8) / 8).

Definition integer_range (data : ByteSource) (lower upper : Z)
    : option (res (Z * ByteSource)) :=
  if lower =? upper then Some (Val (lower, data))
  else
    let gap := upper - lower in
    let nbytes := byte_length gap in
    let byte_distribution : Distribution := fun rnd n =>
      let (v, rnd') := randint lower upper rnd in
      Some (Val (to_bytes_be n (v - lower), rnd')) in
    match draw_bytes data nbytes byte_distribution with
    | None => None
    | Some (Exc e) => Some (Exc e)
    | Some (Val (bs, data')) =>
        Some (Val (lower + from_bytes_be bs mod (gap + 1), data'))
    end.

(** Modelled from the spec: the base class [SearchStrategy] of
    [hypothesis.searchstrategy.strategies] is not among the sources (a
    strategy "must expose [draw(byte_source) -> value] and [validate()]");
    its constructor is called with [self] alone and sets nothing that is
    read here. *)
Definition SearchStrategy___init__ (args : list PyVal)
    (kwargs : list (string * PyVal)) : res unit :=
  _ <- bind_arguments {| sig_required := []; sig_optional := [] |} args kwargs;;
  Val tt.

(** [float(x)] *)
Definition py_float (v : PyVal) : res Z :=
  match v with
  | PyFloat b => Val b
  | PyInt n => let f := of_int n in if isinf f then Exc OverflowError else Val f
  | PyBool b => Val (if b then one else zero)
  | PyNone | PyObj _ => Exc TypeError
  end.

(** [-x] *)
Definition py_neg (v : PyVal) : res PyVal :=
  match v with
  | PyFloat b => Val (PyFloat (neg b))
  | PyInt n => Val (PyInt (- n))
  | PyBool b => Val (PyInt (if b then -1 else 0))
  | PyNone | PyObj _ => Exc TypeError
  end.

(** *** BoundedIntStrategy *)

Record BoundedIntStrategy := { start : Z; end_ : Z }.

Definition invalid_range_message (start end_ : Z) : string :=
  ("Invalid range [" +:+ pretty start +:+ ", " +:+ pretty end_ +:+ "]")%string.

(** [BoundedIntStrategy.__init__(self, start, end)] *)
Definition BoundedIntStrategy___init__ (start end_ : Z) : res BoundedIntStrategy :=
  SearchStrategy___init__ [] [];;;
  let self := {| start := start; end_ := end_ |} in
  if start >? end_
  then Exc (ValueError (invalid_range_message start end_))
  else Val self.

Definition BoundedIntStrategy_do_draw (self : BoundedIntStrategy)
    (data : ByteSource) : option (res (Z * ByteSource)) :=
  integer_range data (start self) (end_ self).

(** *** The catalog of boundary floats *)

(** The sixteen literals of [NASTY_FLOATS]; [9007199254740992] is an [int],
    and the three computed entries are computed. *)
Definition NASTY_FLOATS_literals : list PyVal := [
  PyFloat 0x0000000000000000;                          (* 0.0 *)
  PyFloat 0x3FE0000000000000;                          (* 0.5 *)
  PyFloat (div one (of_int 3));                        (* 1.0 / 3 *)
  PyFloat 0x416312D000000000;                          (* 10e6 *)
  PyFloat 0x3EE4F8B588E368F1;                          (* 10e-6 *)
  PyFloat 0x38100000000A639B;                          (* 1.175494351e-38 *)
  PyFloat 0x0010000000000000;                          (* 2.2250738585072014e-308 *)
  PyFloat 0x7FEFFFFFFFFFFFFF;                          (* 1.7976931348623157e+308 *)
  PyFloat 0x47EFFFFFDFF07036;                          (* 3.402823466e+38 *)
  PyInt 9007199254740992;
  PyFloat (sub (of_int 1) 0x3EE4F8B588E368F1);        (* 1 - 10e-6 *)
  PyFloat (add (of_int 2) 0x3EE4F8B588E368F1);        (* 2 + 10e-6 *)
  PyFloat 0x3E800000001C5F68;                          (* 1.192092896e-07 *)
  PyFloat 0x3CB0000000000000;                          (* 2.2204460492503131e-016 *)
  PyFloat inf;                                         (* float('inf') *)
  PyFloat nan                                          (* float('nan') *)
].

(** [-x], for the entries of the catalog (numbers all). *)
Definition negated (v : PyVal) : PyVal :=
  match py_neg v with Val w => w | Exc _ => v end.

(** [NASTY_FLOATS.extend([-x for x in NASTY_FLOATS])] *)
Definition NASTY_FLOATS : list PyVal :=
  NASTY_FLOATS_literals ++ map negated NASTY_FLOATS_literals.

Definition INFINITY : Z := inf.
Definition STANDARD_NAN : Z := nan.

(** *** FloatStrategy *)

Record FloatStrategy := { allow_infinity : bool; allow_nan : bool }.

(** [FloatStrategy.__init__(self, allow_infinity, allow_nan)], called with
    the given positional and keyword arguments. *)
Definition FloatStrategy___init__ (args : list PyVal)
    (kwargs : list (string * PyVal)) : res FloatStrategy :=
  env <- bind_arguments
           {| sig_required := ["allow_infinity"; "allow_nan"];
              sig_optional := [] |} args kwargs;;
  SearchStrategy___init__ [] [];;;
  py_assert (isinstance_bool (arg env "allow_infinity"));;;
  py_assert (isinstance_bool (arg env "allow_nan"));;;
  match arg env "allow_infinity", arg env "allow_nan" with
  | PyBool i, PyBool n => Val {| allow_infinity := i; allow_nan := n |}
  | _, _ => Exc AssertionError
  end.

(** *** WrapperFloatStrategy *)

Record WrapperFloatStrategy := {
  wrapper_floats : FloatStrategy;
  sub_strategy : PyVal
}.

(** [WrapperFloatStrategy.__init__(self, sub_strategy)]: the [super]
    call passes no argument to [FloatStrategy.__init__]. *)
Definition WrapperFloatStrategy___init__ (args : list PyVal)
    (kwargs : list (string * PyVal)) : res WrapperFloatStrategy :=
  env <- bind_arguments
           {| sig_required := ["sub_strategy"]; sig_optional := [] |}
           args kwargs;;
  base <- FloatStrategy___init__ [] [];;
  Val {| wrapper_floats := base; sub_strategy := arg env "sub_strategy" |}.

(** [permitted(self, f)]; [and] does not evaluate its right operand when
    the left one is false. *)
Definition permitted (self : WrapperFloatStrategy) (f : PyVal) : res bool :=
  inf_forbidden <-
    (if negb (allow_infinity (wrapper_floats self))
     then x <- py_float f;; Val (isinf x)
     else Val false);;
  if inf_forbidden then Val false
  else
    nan_forbidden <-
      (if negb (allow_nan (wrapper_floats self))
       then x <- py_float f;; Val (isnan x)
       else Val false);;
    if nan_forbidden then Val false else Val true.

(** [struct.pack(b'!d', f)] of a Python number. *)
Definition pack_number (f : PyVal) : res Buffer :=
  match f with
  | PyNone | PyObj _ => Exc StructError
  | _ => x <- py_float f;; Val (struct_pack_d x)
  end.

(** The [while True] loop of [draw_float_bytes]; [fuel] bounds the number
    of iterations, and [None] is a loop that has not returned within it. *)
Fixpoint draw_float_bytes_loop (self : WrapperFloatStrategy) (fuel : nat)
    (random : Random) : option (res (Buffer * Random)) :=
  match fuel with
  | O => None
  | S fuel' =>
      let (i, r1) := randint 1 10 random in
      if i <=? 4 then
        let (f, r2) := choice NASTY_FLOATS PyNone r1 in
        match permitted self f with
        | Exc e => Some (Exc e)
        | Val true =>
            Some (bs <- pack_number f;; Val (bs, r2))
        | Val false => draw_float_bytes_loop self fuel' r2
        end
      else Some (Val (random_bytes 8 r1))
  end.

Definition draw_float_bytes (self : WrapperFloatStrategy) (fuel : nat)
    : Distribution :=
  fun random n =>
    match py_assert (n =? 8)%nat with
    | Exc e => Some (Exc e)
    | Val _ => draw_float_bytes_loop self fuel random
    end.

(** [WrapperFloatStrategy.do_draw(self, data)] *)
Definition WrapperFloatStrategy_do_draw (self : WrapperFloatStrategy)
    (fuel : nat) (data : ByteSource) : option (res (Z * ByteSource)) :=
  match draw_bytes data 8 (draw_float_bytes self fuel) with
  | None => None
  | Some (Exc e) => Some (Exc e)
  | Some (Val (bs, data')) =>
      Some (f <- struct_unpack_d bs;; Val (f, data'))
  end.

(** [compose_float(sign, exponent, fraction)] *)
Definition compose_float (sign exponent fraction : Z) : res Z :=
  let as_long := Z.lor (Z.lor (Z.shiftl sign 63) (Z.shiftl exponent 52)) fraction in
  if (0 <=? as_long) && (as_long <? 2 ^ 64)
  then struct_unpack_d (to_bytes_be 8 as_long)
  else Exc StructError.

(** *** FullRangeFloats, FixedBoundedFloatStrategy, BoundedFloatStrategy *)

(** [FullRangeFloats.__init__(self, allow_nan=True, allow_infinity=True)] *)
Definition FullRangeFloats___init__ (args : list PyVal)
    (kwargs : list (string * PyVal)) : res (FloatStrategy * PyVal * PyVal) :=
  env <- bind_arguments
           {| sig_required := [];
              sig_optional := [("allow_nan", PyBool true);
                               ("allow_infinity", PyBool true)] |}
           args kwargs;;
  base <- FloatStrategy___init__ [] [];;
  Val (base, arg env "allow_nan", arg env "allow_infinity").

Record FixedBoundedFloatStrategy := { fixed_lower : Z; fixed_upper : Z }.

(** [FixedBoundedFloatStrategy.__init__(self, lower_bound, upper_bound)] *)
Definition FixedBoundedFloatStrategy___init__ (args : list PyVal)
    (kwargs : list (string * PyVal)) : res FixedBoundedFloatStrategy :=
  env <- bind_arguments
           {| sig_required := ["lower_bound"; "upper_bound"];
              sig_optional := [] |} args kwargs;;
  SearchStrategy___init__ [] [];;;
  lo <- py_float (arg env "lower_bound");;
  hi <- py_float (arg env "upper_bound");;
  Val {| fixed_lower := lo; fixed_upper := hi |}.

(** [BoundedFloatStrategy.__init__(self)] *)
Definition BoundedFloatStrategy___init__ (args : list PyVal)
    (kwargs : list (string * PyVal))
    : res (FloatStrategy * FixedBoundedFloatStrategy) :=
  _ <- bind_arguments {| sig_required := []; sig_optional := [] |} args kwargs;;
  base <- FloatStrategy___init__ [] [];;
  inner <- FixedBoundedFloatStrategy___init__ [PyInt 0; PyInt 1] [];;
  Val (base, inner).

(** *** ExponentialFloatStrategy

    The class defines no constructor of its own: [lower_bound] and
    [upper_bound] are attributes an instance has only once they have been
    set on it. *)
Record ExponentialFloatStrategy := {
  exp_floats : FloatStrategy;
  lower_bound : option Z;
  upper_bound : option Z
}.

Definition getattr (name : string) (field : option Z) : res Z :=
  match field with
  | Some v => Val v
  | None => Exc (AttributeError name)
  end.

(** The sampling function of [ExponentialFloatStrategy.do_draw]. *)
Definition exponential_distribution (self : ExponentialFloatStrategy)
    (random0 : Random) (n : nat) : res (Buffer * Random) :=
  py_assert (n =? 8)%nat;;;
  let (i, r1) := randint 0 10 random0 in
  if i =? 0 then
    f <- getattr "lower_bound" (lower_bound self);;
    Val (struct_pack_d f, r1)
  else if i =? 1 then
    f <- getattr "upper_bound" (upper_bound self);;
    Val (struct_pack_d f, r1)
  else
    upper <- getattr "upper_bound" (upper_bound self);;
    lower <- getattr "lower_bound" (lower_bound self);;
    let '(lower, upper, r2) :=
      if lt lower zero && lt zero upper then
        let (c, r2) := randint 0 1 r1 in
        if c =? 0 then (lower, neg_zero, r2) else (zero, upper, r2)
      else (lower, upper, r1) in
    let d := sub upper lower in
    let (u, r3) := random r2 in
    Val (struct_pack_d (add lower (mul d u)), r3).

(** [a <= f <= b], on attributes: the right comparison and its attribute
    are evaluated only when the left comparison holds. *)
Definition chained_le (key : Z -> Z) (self : ExponentialFloatStrategy) (f : Z)
    : res bool :=
  lo <- getattr "lower_bound" (lower_bound self);;
  if le (key lo) (key f) then
    hi <- getattr "upper_bound" (upper_bound self);;
    Val (le (key f) (key hi))
  else Val false.

(** [ExponentialFloatStrategy.do_draw(self, data)] *)
Definition ExponentialFloatStrategy_do_draw (self : ExponentialFloatStrategy)
    (data : ByteSource) : option (res (Z * ByteSource)) :=
  match draw_bytes data 8 (fun r n => Some (exponential_distribution self r n)) with
  | None => None
  | Some (Exc e) => Some (Exc e)
  | Some (Val (bs, data')) =>
      Some (f <- struct_unpack_d bs;;
            in_bounds <- chained_le (fun x => x) self f;;
            assume in_bounds;;;
            in_sign <- chained_le sign self f;;
            assume in_sign;;;
            Val (f, data'))
  end.

End Numbers.

(** ** [hypothesis/core.py] *)

Module Core.

(** *** Data *)

(** Modelled from the spec: [Status] of
    [hypothesis.internal.conjecture.data] is not among the sources; a byte
    source "carries a terminal classification (valid / invalid /
    interesting / overflow)", compared with [<] against [VALID]. *)
Inductive Status := OVERRUN | INVALID | VALID | INTERESTING.

Definition status_rank (s : Status) : Z :=
  match s with OVERRUN => 0 | INVALID => 1 | VALID => 2 | INTERESTING => 3 end.

Definition status_ltb (a b : Status) : bool := status_rank a <? status_rank b.
Definition status_eqb (a b : Status) : bool := status_rank a =? status_rank b.

(** Modelled from the spec: the byte source [TestData], with its buffer,
    its classification and "a frozen flag once classification is final";
    [data_id] is the identity of the object. *)
Record TestData := {
  data_id : nat;
  data_buffer : Buffer;
  status : Status;
  frozen : bool
}.

(** [Example = namedtuple('Example', ('args', 'kwargs'))] *)
Record Example := {
  ex_args : list PyVal;
  ex_kwargs : gmap string PyVal
}.

(** The fields of [settings] that [wrapped_test] reads; [has_database]
    is [settings.database is not None]. *)
Record Settings := {
  max_examples : Z;
  min_satisfying_examples : Z;
  timeout : Q;
  derandomize : bool;
  has_database : bool;
  strict : bool;
  perform_health_check : bool
}.

(** What the generator handed to the engine is seeded with. *)
Inductive Seed :=
| SeedGiven (seed : PyVal)
| SeedFunctionDigest
| SeedFresh.

(** What [data.draw(search_strategy)] does on a byte source: it returns
    the arguments of the call, or runs past the end of the buffer, or
    raises. *)
Inductive DrawResult :=
| Drew (args : list PyVal) (kwargs : gmap string PyVal)
| DrawOverrun
| DrawRaised (e : Exn).

(** The test that [reify_and_execute] calls: the decorated function, or
    [test_is_flaky(test, expected_repr)]. *)
Inductive TestFn :=
| TheTest
| TestOrFlaky (expected_repr : option string).

(** The run keeps a trace of the calls it makes to its collaborators, for
    the statements about their order and number.  [EvClassified] records
    the classification a replayed buffer ended with. *)
Inductive Event :=
| EvExplicit (arguments : list PyVal) (kwargs : gmap string PyVal)
| EvDraw (buffer : Buffer)
| EvCall (args : list PyVal) (kwargs : gmap string PyVal)
| EvGetRandomState
| EvFailHealthCheck (message : string)
| EvWarn (e : Exn)
| EvReport (text : string)
| EvVerboseReport (text : string)
| EvFetch (key : string)
| EvDelete (key : string) (buffer : Buffer)
| EvSave (key : string) (buffer : Buffer)
| EvClassified (buffer : Buffer) (s : Status)
| EvEngineRun.

(** The test under [@given] and everything around it that the code only
    calls: the test function and its strategies acting on a state [W] of
    their own (which holds the global random module and the clock), the
    reflection helpers, and the candidates the engine tries. *)
Class World := {
  W : Type;
  test_name : string;
  qualified_name : string;
  argspec_args : list string;
  call_test : list PyVal -> gmap string PyVal -> W -> res PyVal * list string * W;
  draw : Buffer -> W -> DrawResult * W;
  arg_string : list PyVal -> gmap string PyVal -> string;
  repr : PyVal -> string;
  format_exc : Exn -> string;
  getglobalrandomstate : W -> Z;
  time_time : W -> Q;
  validate : res unit;
  current_verbose : bool;
  engine_candidates : Seed -> Buffer * list Buffer
}.

Section Orchestrator.
Context `{World}.

(** The mutable state of one call of [wrapped_test]: the world, the
    database, the one-element lists [warned_random], [last_exception] and
    [repr_for_last_exception], the next fresh object identity, and the
    trace (latest event first). *)
Record RunState := {
  world : W;
  db : gmap string (list Buffer);
  warned_random : bool;
  last_exception : option string;
  repr_for_last_exception : option string;
  next_id : nat;
  log : list Event
}.

Definition initial_state (w : W) (d : gmap string (list Buffer)) : RunState :=
  {| world := w; db := d; warned_random := false; last_exception := None;
     repr_for_last_exception := None; next_id := 0; log := [] |}.

(** The trace in the order of time. *)
Definition trace (st : RunState) : list Event := rev (log st).

(** *** State passing *)

Definition Run (A : Type) : Type := RunState -> A * RunState.

Definition sret {A} (a : A) : Run A := fun st => (a, st).

Definition sbind {A B} (m : Run A) (k : A -> Run B) : Run B :=
  fun st => let (a, st') := m st in k a st'.

(** Code that may raise: the rest is skipped once it has. *)
Definition mbind {A B} (m : Run (res A)) (k : A -> Run (res B)) : Run (res B) :=
  sbind m (fun r => match r with Val a => k a | Exc e => sret (Exc e) end).

Definition emit (e : Event) : Run unit :=
  fun st => (tt, {| world := world st; db := db st;
                    warned_random := warned_random st;
                    last_exception := last_exception st;
                    repr_for_last_exception := repr_for_last_exception st;
                    next_id := next_id st; log := e :: log st |}).

Definition get_world : Run W := fun st => (world st, st).

Definition put_world (w : W) : Run unit :=
  fun st => (tt, {| world := w; db := db st;
                    warned_random := warned_random st;
                    last_exception := last_exception st;
                    repr_for_last_exception := repr_for_last_exception st;
                    next_id := next_id st; log := log st |}).

Definition get_db : Run (gmap string (list Buffer)) := fun st => (db st, st).

Definition put_db (d : gmap string (list Buffer)) : Run unit :=
  fun st => (tt, {| world := world st; db := d;
                    warned_random := warned_random st;
                    last_exception := last_exception st;
                    repr_for_last_exception := repr_for_last_exception st;
                    next_id := next_id st; log := log st |}).

Definition get_warned_random : Run bool := fun st => (warned_random st, st).

Definition set_warned_random : Run unit :=
  fun st => (tt, {| world := world st; db := db st;
                    warned_random := true;
                    last_exception := last_exception st;
                    repr_for_last_exception := repr_for_last_exception st;
                    next_id := next_id st; log := log st |}).

Definition get_last_exception : Run (option string * option string) :=
  fun st => ((last_exception st, repr_for_last_exception st), st).

Definition set_last_exception (tb : string) (rp : option string) : Run unit :=
  fun st => (tt, {| world := world st; db := db st;
                    warned_random := warned_random st;
                    last_exception := Some tb;
                    repr_for_last_exception := rp;
                    next_id := next_id st; log := log st |}).

Definition fresh_id : Run nat :=
  fun st => (next_id st,
             {| world := world st; db := db st;
                warned_random := warned_random st;
                last_exception := last_exception st;
                repr_for_last_exception := repr_for_last_exception st;
                next_id := S (next_id st); log := log st |}).

Notation "x <- m ;; k" := (sbind m (fun x => k))
  (at level 100, m at next level, right associativity) : run_scope.
Notation "m ;;; k" := (sbind m (fun _ => k))
  (at level 100, right associativity) : run_scope.
Notation "x <-? m ;; k" := (mbind m (fun x => k))
  (at level 100, m at next level, right associativity) : run_scope.
Local Open Scope run_scope.

(** *** Collaborators *)

Definition newline : string := String (ascii_of_nat 10) EmptyString.

(** [report(text)] and [verbose_report(text)] of [hypothesis.reporting]. *)
Definition report (text : string) : Run unit := emit (EvReport text).
Definition verbose_report (text : string) : Run unit := emit (EvVerboseReport text).

(** Modelled from the spec: the database is not among the sources; it is
    "an external append/fetch/delete key-value store" with
    "[fetch(key) -> iterable of byte buffers], [save(key, buffer)],
    [delete(key, buffer)]".  [fetch] hands out the buffers stored when it
    is called. *)
Definition database_fetch (key : string) : Run (list Buffer) :=
  emit (EvFetch key);;;
  d <- get_db;;
  sret (default [] (d !! key)).

Definition database_delete (key : string) (value : Buffer) : Run unit :=
  emit (EvDelete key value);;;
  d <- get_db;;
  put_db (<[key := filter (fun b => b <> value) (default [] (d !! key))]> d).

Definition database_save (key : string) (value : Buffer) : Run unit :=
  emit (EvSave key value);;;
  d <- get_db;;
  let stored : list Buffer := default [] (d !! key) in
  put_db (<[key := if bool_decide (value ∈ stored) then stored
                   else (stored ++ [value])%list]> d).

(** Modelled from the spec: [TestData.for_buffer], [mark_invalid] and
    [mark_interesting] are not among the sources.  A byte source
    reconstructed from a buffer starts out valid and not frozen; "once
    classified as interesting or invalid it is frozen", and marking it
    stops the test by raising [StopTest] with that source. *)
Definition for_buffer (buffer : Buffer) : Run TestData :=
  id <- fresh_id;;
  sret {| data_id := id; data_buffer := buffer; status := VALID; frozen := false |}.

Definition mark (s : Status) (data : TestData) : TestData :=
  {| data_id := data_id data; data_buffer := data_buffer data;
     status := s; frozen := true |}.

Definition mark_invalid (data : TestData) : res unit * TestData :=
  (Exc (StopTest (data_id data)), mark INVALID data).

Definition mark_interesting (data : TestData) : res unit * TestData :=
  (Exc (StopTest (data_id data)), mark INTERESTING data).

(** Modelled from the spec: the executor is not among the sources; it is
    "a caller-pluggable wrapper around invoking the test body (default is
    direct invocation)", and the default is the one modelled. *)
Definition test_runner {A} (function : Run A) : Run A := function.

(** *** [test_is_flaky] *)

Definition flaky_same_repr (text_repr : string) : string :=
  "Hypothesis " +:+ test_name +:+ "(" +:+ text_repr +:+
  ") produces unreliable results: Falsified" +:+
  " on the first call but did not on a subsequent one".

Definition flaky_other_repr (expected_repr : option string) (text_repr : string)
    : string :=
  "Hypothesis " +:+ test_name +:+ " produces unreliable results: Falsified" +:+
  " on the first call but did not on a subsequent one." +:+
  " This is possibly due to unreliable values, which may " +:+
  "be a bug in the strategy." +:+ newline +:+
  "Call 1: " +:+ default "None" expected_repr +:+ newline +:+
  "Call 2: " +:+ text_repr +:+ newline.

(** The function [test_or_flaky] that [test_is_flaky(test, expected_repr)]
    returns, called on the drawn arguments. *)
Definition test_or_flaky (expected_repr : option string)
    (args : list PyVal) (kwargs : gmap string PyVal) : res PyVal :=
  let text_repr := arg_string args kwargs in
  if bool_decide (Some text_repr = expected_repr)
  then Exc (Flaky (flaky_same_repr text_repr))
  else Exc (Flaky (flaky_other_repr expected_repr text_repr)).

(** *** [example] *)

(** The decorator [example], applied to its arguments and then to a test
    whose [hypothesis_explicit_examples] is the given list. *)
Definition example (args : list PyVal) (kwargs : gmap string PyVal)
    : res (list Example -> list Example) :=
  if negb (bool_decide (args = [])) && negb (bool_decide (kwargs = ∅)) then
    Exc (InvalidArgument
           "Cannot mix positional and keyword arguments for examples")
  else if negb (negb (bool_decide (args = [])) || negb (bool_decide (kwargs = ∅))) then
    Exc (InvalidArgument "An example must provide at least one argument")
  else
    Val (fun hypothesis_explicit_examples =>
           (hypothesis_explicit_examples
              ++ [{| ex_args := args; ex_kwargs := kwargs |}])%list).

(** *** [reify_and_execute] *)

(** Calling the test on drawn arguments. *)
Definition call (test : TestFn) (args : list PyVal) (kwargs : gmap string PyVal)
    : Run (res PyVal) :=
  match test with
  | TheTest =>
      emit (EvCall args kwargs);;;
      w <- get_world;;
      let '(r, _, w') := call_test args kwargs w in
      put_world w';;;
      sret r
  | TestOrFlaky expected_repr => sret (test_or_flaky expected_repr args kwargs)
  end.

(** [reify_and_execute(search_strategy, data, test, print_example,
    record_repr, is_final)()]: the result of the call, what was stored in
    [record_repr[0]], and the byte source afterwards. *)
Definition reify_and_execute (data : TestData) (test : TestFn)
    (print_example : bool) : Run (res PyVal * option string * TestData) :=
  emit (EvDraw (data_buffer data));;;
  w <- get_world;;
  let (drawn, w') := draw (data_buffer data) w in
  put_world w';;;
  match drawn with
  | DrawOverrun =>
      sret (Exc (StopTest (data_id data)), None, mark OVERRUN data)
  | DrawRaised e => sret (Exc e, None, data)
  | Drew args kwargs =>
      let text_version := arg_string args kwargs in
      (if print_example then
         report ("Falsifying example: " +:+ test_name +:+ "(" +:+ text_version +:+ ")")
       else if current_verbose then
         report ("Trying example: " +:+ test_name +:+ "(" +:+ text_version +:+ ")")
       else sret tt);;;
      r <- call test args kwargs;;
      sret (r, Some text_version, data)
  end.

(** *** [wrapped_test] *)

Variable settings : Settings.

(** [Settings.default], which may be [None]. *)
Variable default_settings : option Settings.

Definition health_check_footer : string :=
  newline +:+ "See http://hypothesis.readthedocs.org/en/latest/health" +:+
  "checks.html for more information about this.".

(** [fail_health_check(message)] *)
Definition fail_health_check (message : string) : Run (res unit) :=
  let message := message +:+ health_check_footer in
  emit (EvFailHealthCheck message);;;
  if strict settings then sret (Exc (FailedHealthCheck message))
  else
    emit (EvWarn (FailedHealthCheck message));;;
    sret (Val tt).

(** The local [perform_health_check]: the setting of the run, and-ed with
    the default settings' when there are default settings. *)
Definition perform_health_check_flag : bool :=
  match default_settings with
  | Some d => perform_health_check settings && perform_health_check d
  | None => perform_health_check settings
  end.

Definition returned_value_message (result : PyVal) : string :=
  "Tests run under @given should return None, but " +:+
  test_name +:+ " returned " +:+ repr result +:+ " instead.".

Definition global_random_message : string :=
  "Your test used the global random module. " +:+
  "This is unlikely to work correctly. You should " +:+
  "consider using the randoms() strategy from " +:+
  "hypothesis.strategies instead. Alternatively, " +:+
  "you can use the random_module() strategy to " +:+
  "explicitly seed the random module.".

(** The [try] statement of [evaluate_test_data] without its [finally]
    clause: what it returns or raises, and the byte source afterwards. *)
Definition evaluate_body (data : TestData) : Run (res PyVal * TestData) :=
  x <- test_runner (reify_and_execute data TheTest false);;
  let '(r, record_repr, data) := x in
  match r with
  | Val result =>
      if is_not_None result && perform_health_check settings
      then sret (Exc (FailedHealthCheck (returned_value_message result)), data)
      else sret (Val (PyBool false), data)
  | Exc UnsatisfiedAssumption =>
      let (stop, data) := mark_invalid data in
      sret (res_bind stop (fun _ => Val PyNone), data)
  | Exc HypothesisDeprecationWarning => sret (r, data)
  | Exc (FailedHealthCheck _) => sret (r, data)
  | Exc e =>
      if is_Exception e then
        set_last_exception (format_exc e) record_repr;;;
        verbose_report (format_exc e);;;
        if negb (frozen data) then
          let (stop, data) := mark_interesting data in
          sret (res_bind stop (fun _ => Val PyNone), data)
        else sret (Val PyNone, data)
      else sret (r, data)
  end.

(** [evaluate_test_data(data)] *)
Definition evaluate_test_data (data : TestData) : Run (res PyVal * TestData) :=
  warned <- get_warned_random;;
  initial_state <-
    (if perform_health_check_flag && negb warned then
       emit EvGetRandomState;;;
       w <- get_world;;
       sret (Some (getglobalrandomstate w))
     else sret None);;
  outcome <- evaluate_body data;;
  warned <- get_warned_random;;
  if negb warned && perform_health_check_flag then
    emit EvGetRandomState;;;
    w <- get_world;;
    match initial_state with
    | None => sret (Exc NameError, snd outcome)
    | Some s0 =>
        if negb (getglobalrandomstate w =? s0) then
          set_warned_random;;;
          failed <- fail_health_check global_random_message;;
          match failed with
          | Exc e => sret (Exc e, snd outcome)
          | Val _ => sret outcome
          end
        else sret outcome
    end
  else sret outcome.

(** [except StopTest as e: if e.data is not data: raise] *)
Definition except_own_StopTest {A} (data : TestData) (r : res A) : res unit :=
  match r with
  | Val _ => Val tt
  | Exc (StopTest id) =>
      if (id =? data_id data)%nat then Val tt else Exc (StopTest id)
  | Exc e => Exc e
  end.

(** The loop over [settings.database.fetch(database_key)]. *)
Fixpoint replay (database_key : string) (fetched : list Buffer)
    : Run (res (option Buffer)) :=
  match fetched with
  | [] => sret (Val None)
  | existing :: rest =>
      data <- for_buffer existing;;
      x <- evaluate_test_data data;;
      let (r, data) := x in
      match except_own_StopTest data r with
      | Exc e => sret (Exc e)
      | Val _ =>
          emit (EvClassified existing (status data));;;
          (if status_ltb (status data) VALID
           then database_delete database_key existing else sret tt);;;
          if status_eqb (status data) INTERESTING
          then sret (Val (Some existing))
          else replay database_key rest
      end
  end.

(** Modelled from the spec: the engine ([TestRunner] of
    [hypothesis.internal.conjecture.engine]) is not among the sources.  It
    "performs the actual generate-and-shrink search loop over Byte Sources
    given a classification callback; exposes [run()] and exposes the final
    [last_data] and count of valid examples".  It tries at least one
    candidate; [last_data] is the latest interesting candidate once there is
    one and the latest candidate before that, and [valid_examples] counts
    the candidates classified valid or better. *)
Record TestRunner := {
  last_data : TestData;
  valid_examples : Z
}.

Definition counts_as_valid (data : TestData) : Z :=
  if status_ltb (status data) VALID then 0 else 1.

Definition consider (runner : TestRunner) (data : TestData) : TestRunner :=
  {| last_data :=
       if status_eqb (status data) INTERESTING
          || negb (status_eqb (status (last_data runner)) INTERESTING)
       then data else last_data runner;
     valid_examples := valid_examples runner + counts_as_valid data |}.

Fixpoint engine_loop (candidates : list Buffer) (runner : TestRunner)
    : Run (res TestRunner) :=
  match candidates with
  | [] => sret (Val runner)
  | buffer :: rest =>
      data <- for_buffer buffer;;
      x <- evaluate_test_data data;;
      let (r, data) := x in
      match except_own_StopTest data r with
      | Exc e => sret (Exc e)
      | Val _ => engine_loop rest (consider runner data)
      end
  end.

Definition TestRunner_run (random : Seed) : Run (res TestRunner) :=
  let (first, rest) := engine_candidates random in
  data <- for_buffer first;;
  x <- evaluate_test_data data;;
  let (r, data) := x in
  match except_own_StopTest data r with
  | Exc e => sret (Exc e)
  | Val _ =>
      engine_loop rest
        {| last_data := data; valid_examples := counts_as_valid data |}
  end.

(** [a < b] on times. *)
Definition Qlt_bool (a b : Q) : bool := negb (Qle_bool b a).

(** The randomized search and the classification of its outcome: the
    falsifying buffer if there is one, [None] where the code returns. *)
Definition search (database_key : string) (random : Seed)
    : Run (res (option Buffer)) :=
  w <- get_world;;
  let start_time := time_time w in
  emit EvEngineRun;;;
  runner <-? TestRunner_run random;;
  w <- get_world;;
  let run_time := (time_time w - start_time)%Q in
  let timed_out :=
    Qlt_bool 0 (timeout settings) && Qle_bool (timeout settings) run_time in
  if status_eqb (status (last_data runner)) INTERESTING then
    let falsifying_example := data_buffer (last_data runner) in
    (if has_database settings
     then database_save database_key falsifying_example else sret tt);;;
    sret (Val (Some falsifying_example))
  else
    if valid_examples runner
         <? Z.min (min_satisfying_examples settings) (max_examples settings)
    then
      if timed_out
      then sret (Exc (Timeout (valid_examples runner) run_time))
      else sret (Exc (Unsatisfiable (valid_examples runner)))
    else sret (Val None).

Definition unreliable_assumption : string :=
  "Unreliable assumption: An example which satisfied " +:+
  "assumptions on the first run now fails it.".

Definition unreliable_test_data : string :=
  "Unreliable test data: Failed to reproduce a failure " +:+
  "and then when it came to recreating the example in " +:+
  "order to print the test data with a flaky result " +:+
  "the example was filtered out (by e.g. a " +:+
  "call to filter in your strategy) when we didn't " +:+
  "expect it to be.".

Definition failed_to_reproduce (last_exception : string) : string :=
  "Failed to reproduce exception. Expected: " +:+ newline +:+ last_exception.

(** One execution of the test on a byte source rebuilt from the
    falsifying buffer, printing the example. *)
Definition execute_final (falsifying_example : Buffer) (test : TestFn)
    : Run (res PyVal) :=
  data <- for_buffer falsifying_example;;
  x <- test_runner (reify_and_execute data test true);;
  sret (fst (fst x)).

(** What [wrapped_test] does once it has a falsifying buffer. *)
Definition reproduce (falsifying_example : Buffer) : Run (res unit) :=
  le <- get_last_exception;;
  match fst le with
  | None => sret (Exc AssertionError)
  | Some _ =>
      r <- execute_final falsifying_example TheTest;;
      match r with
      | Exc UnsatisfiedAssumption =>
          report (format_exc UnsatisfiedAssumption);;;
          sret (Exc (Flaky unreliable_assumption))
      | Exc e => sret (Exc e)
      | Val _ =>
          le <- get_last_exception;;
          report (failed_to_reproduce (default "" (fst le)));;;
          le <- get_last_exception;;
          r <- execute_final falsifying_example (TestOrFlaky (snd le));;
          match r with
          | Exc UnsatisfiedAssumption => sret (Exc (Flaky unreliable_test_data))
          | Exc e => sret (Exc e)
          | Val _ =>
              le <- get_last_exception;;
              r <- execute_final falsifying_example (TestOrFlaky (snd le));;
              sret (res_bind r (fun _ => Val tt))
          end
      end
  end.

(** [dict(zip(names, values))] *)
Definition dict_of_pairs (pairs : list (string * PyVal)) : gmap string PyVal :=
  fold_left (fun m kv => <[fst kv := snd kv]> m) pairs ∅.

(** The keyword arguments an explicit example is called with.  (The
    [update] also changes the stored example when it has no positional
    arguments; a call of [wrapped_test] reads each example once.) *)
Definition example_kwargs_of (example : Example) (kwargs : gmap string PyVal)
    : gmap string PyVal :=
  let example_kwargs :=
    if negb (bool_decide (ex_args example = [])) then
      dict_of_pairs
        (zip (drop (length argspec_args - length (ex_args example)) argspec_args)
             (ex_args example))
    else ex_kwargs example in
  kwargs ∪ example_kwargs.

Fixpoint report_all (notes : list string) : Run unit :=
  match notes with
  | [] => sret tt
  | n :: rest => report n;;; report_all rest
  end.

(** The loop over the explicit examples, in the order it is given them. *)
Fixpoint run_explicit_examples (examples : list Example)
    (arguments : list PyVal) (kwargs : gmap string PyVal) : Run (res unit) :=
  match examples with
  | [] => sret (Val tt)
  | example :: rest =>
      let example_kwargs := example_kwargs_of example kwargs in
      let message_on_failure :=
        "Falsifying example: " +:+ test_name +:+ "(" +:+
        arg_string arguments example_kwargs +:+ ")" in
      emit (EvExplicit arguments example_kwargs);;;
      w <- get_world;;
      let '(r, notes, w') := call_test arguments example_kwargs w in
      put_world w';;;
      match r with
      | Exc e =>
          report message_on_failure;;;
          report_all notes;;;
          sret (Exc e)
      | Val _ => run_explicit_examples rest arguments kwargs
      end
  end.

(** The generator handed to the engine: seeded with the seed attribute of
    the test when there is one, else with the digest of the function when
    [settings.derandomize] is set, else fresh. *)
Definition derive_random (use_seed : option PyVal) : Seed :=
  match use_seed with
  | Some seed => SeedGiven seed
  | None => if derandomize settings then SeedFunctionDigest else SeedFresh
  end.

(** The replay of the stored buffers, when there is a database. *)
Definition replay_database (database_key : string) : Run (res (option Buffer)) :=
  if has_database settings then
    fetched <- database_fetch database_key;;
    replay database_key fetched
  else sret (Val None).

(** The call of [wrapped_test], after the conversion of its
    positional arguments, for a test with the given seed attribute and
    list of explicit examples. *)
Definition wrapped_test (use_seed : option PyVal)
    (hypothesis_explicit_examples : list Example)
    (arguments : list PyVal) (kwargs : gmap string PyVal) : Run (res unit) :=
  let random := derive_random use_seed in
  _ <-? run_explicit_examples (rev hypothesis_explicit_examples) arguments kwargs;;
  if max_examples settings <=? 0 then sret (Val tt)
  else
    _ <-? sret validate;;
    let database_key := qualified_name in
    found <-? replay_database database_key;;
    found <-?
      (match found with
       | Some falsifying_example => sret (Val (Some falsifying_example))
       | None => search database_key random
       end);;
    match found with
    | None => sret (Val tt)
    | Some falsifying_example => reproduce falsifying_example
    end.

(** One call of [wrapped_test], in a world and with a database. *)
Definition run_wrapped_test (use_seed : option PyVal)
    (hypothesis_explicit_examples : list Example)
    (arguments : list PyVal) (kwargs : gmap string PyVal)
    (w : W) (d : gmap string (list Buffer)) : res unit * RunState :=
  wrapped_test use_seed hypothesis_explicit_examples arguments kwargs
    (initial_state w d).

End Orchestrator.

End Core.

(** ** The vocabulary of the statements about runs *)

Module Traces.
Import Core.

(** The events of one kind. *)
Definition is_fail_health_check (e : Event) : bool :=
  match e with EvFailHealthCheck _ => true | _ => false end.

Definition is_get_random_state (e : Event) : bool :=
  match e with EvGetRandomState => true | _ => false end.

Definition is_engine_run (e : Event) : bool :=
  match e with EvEngineRun => true | _ => false end.


(** An event that neither reads the global random state nor reports that
    it changed. *)
Definition quiet (e : Event) : bool :=
  negb (is_fail_health_check e) && negb (is_get_random_state e).

(** What the phases of a run may put on the trace: the execution of the
    test on a byte source; a candidate evaluation around it; the replay of
    the database; the search; the explicit examples. *)
Definition execution_event (e : Event) : bool :=
  match e with
  | EvDraw _ | EvCall _ _ | EvReport _ | EvVerboseReport _ => true
  | _ => false
  end.

Definition evaluation_event (e : Event) : bool :=
  match e with
  | EvGetRandomState | EvFailHealthCheck _ | EvWarn _ => true
  | _ => execution_event e
  end.

Definition replay_event (e : Event) : bool :=
  match e with
  | EvFetch _ | EvDelete _ _ | EvClassified _ _ => true
  | _ => evaluation_event e
  end.

Definition search_event (e : Event) : bool :=
  match e with
  | EvEngineRun | EvSave _ _ => true
  | _ => evaluation_event e
  end.

Definition explicit_event (e : Event) : bool :=
  match e with
  | EvExplicit _ _ | EvReport _ => true
  | _ => false
  end.

(** The classifications recorded on a trace, in order. *)
Fixpoint classifications (evs : list Event) : list (Buffer * Status) :=
  match evs with
  | [] => []
  | EvClassified b s :: rest => (b, s) :: classifications rest
  | _ :: rest => classifications rest
  end.

(** A classification other than [INTERESTING]. *)
Definition not_interesting (c : Buffer * Status) : Prop :=
  snd c <> INTERESTING.

(** The buffers a list of classifications puts below [VALID]. *)
Definition below_valid (cls : list (Buffer * Status)) : list Buffer :=
  map fst (List.filter (fun c => status_ltb (snd c) VALID) cls).

(** The database after buffers have been deleted under a key, one after
    the other. *)
Definition delete_buffers (key : string) (buffers : list Buffer)
    (d : gmap string (list Buffer)) : gmap string (list Buffer) :=
  fold_left
    (fun d b => <[key := filter (fun x => x <> b) (default [] (d !! key))]> d)
    buffers d.





(** A state in another world and with more events on its trace. *)
Definition moved_on `{World} (w : W) (evs : list Event) (st : RunState)
    : RunState :=
  {| world := w; db := db st; warned_random := warned_random st;
     last_exception := last_exception st;
     repr_for_last_exception := repr_for_last_exception st;
     next_id := next_id st; log := (rev evs ++ log st)%list |}.

(** Reading a trace in the order of time with the flag [warned_random]:
    once the flag is set, the trace must stay [quiet]; before that, a
    failed health check sets it.  [None] is a trace that does not. *)
Fixpoint scan (warned : bool) (evs : list Event) : option bool :=
  match evs with
  | [] => Some warned
  | e :: rest =>
      if warned then (if quiet e then scan true rest else None)
      else scan (is_fail_health_check e) rest
  end.

Section Relations.
Context `{World}.

(** A property of every state change a piece of code can make. *)
Definition respects (R : RunState -> RunState -> Prop) {A} (m : Run A) : Prop :=
  forall st a st', m st = (a, st') -> R st st'.

(** The code adds events of the class [P] to the trace, and leaves the
    database and the flag [warned_random] alone where asked to. *)
Record step (P : Event -> bool) (keep_db keep_warned : bool)
    (st st' : RunState) : Prop := {
  step_log : exists evs, log st' = (evs ++ log st)%list /\ forallb P evs = true;
  step_db : keep_db = true -> db st' = db st;
  step_warned : keep_warned = true -> warned_random st' = warned_random st
}.

(** The code keeps the discipline of the global-random check. *)
Definition health_step (st st' : RunState) : Prop :=
  exists evs,
    log st' = (evs ++ log st)%list
    /\ scan (warned_random st) (rev evs) = Some (warned_random st').

End Relations.

Section Replay.
Context `{World}.
Variables (settings : Settings) (default_settings : option Settings).

(** How the evaluation of a stored buffer ends: with the classification of
    its byte source, or with an error that ends the run. *)
Inductive Classified :=
| ClassifiedAs (s : Status)
| EndedWith (e : Exn).

(** A stored buffer is classified by evaluating the test on a fresh byte
    source over it.  Its classification is that of the byte source
    afterwards, when the evaluation returns or is stopped by this very
    byte source; any other error of the evaluation ends the run. *)
Definition classify (buffer : Buffer) (st : RunState) : Classified * RunState :=
  let (data, st) := for_buffer buffer st in
  let '(r, data', st) := evaluate_test_data settings default_settings data st in
  (match r with
   | Val _ => ClassifiedAs (status data')
   | Exc (StopTest id) =>
       if (id =? data_id data)%nat then ClassifiedAs (status data')
       else EndedWith (StopTest id)
   | Exc e => EndedWith e
   end, st).

(** The replay of stored buffers in the words of the specification: the
    buffers are classified in order, each in the state the one before it
    left; one classified below valid is deleted from the database; the
    first one classified interesting is the falsifying buffer, and the
    buffers after it are not replayed; an error ends the replay. *)
Fixpoint replay_stored (key : string) (stored : list Buffer) (st : RunState)
    : res (option Buffer) * RunState :=
  match stored with
  | [] => (Val None, st)
  | buffer :: later =>
      let (classification, st) := classify buffer st in
      match classification with
      | EndedWith e => (Exc e, st)
      | ClassifiedAs s =>
          let st := moved_on (world st) [EvClassified buffer s] st in
          let st := if status_ltb s VALID
                    then snd (database_delete key buffer st) else st in
          if status_eqb s INTERESTING then (Val (Some buffer), st)
          else replay_stored key later st
      end
  end.

(** A call of [wrapped_test] comes to the falsifying buffer
    [falsifying_example] in the state [st]: its explicit examples pass,
    there are examples to run, the strategy is valid, and the replay of
    the database or, when that finds nothing, the search yields the
    buffer. *)
Definition finds_falsifying_example (use_seed : option PyVal)
    (examples : list Example) (arguments : list PyVal)
    (kwargs : gmap string PyVal) (w : W) (d : gmap string (list Buffer))
    (falsifying_example : Buffer) (st : RunState) : Prop :=
  exists st1,
    run_explicit_examples (rev examples) arguments kwargs (initial_state w d)
    = (Val tt, st1)
    /\ 0 < max_examples settings
    /\ validate = Val tt
    /\ (replay_database settings default_settings qualified_name st1
        = (Val (Some falsifying_example), st)
        \/ exists st2,
             replay_database settings default_settings qualified_name st1
             = (Val None, st2)
             /\ search settings default_settings qualified_name
                  (derive_random settings use_seed) st2
                = (Val (Some falsifying_example), st)).

End Replay.

End Traces.

(** ** Concrete inputs

    The byte sources, generators, strategies and worlds at which the
    statements below are evaluated. *)

Module Fixtures.
Import Float64 Numbers Core.

(** The stream of a generator that always answers the same number. *)
Definition constant_random (x : N) : Random :=
  {| rnd_src := fun _ => x; rnd_pos := 0 |}.

(** A generator whose [randint(1, 10)] answers 5 and whose next eight
    [randint(0, 255)] spell the bytes of positive infinity. *)
Definition infinity_random : Random :=
  {| rnd_src := fun n =>
       match n with
       | O => 4%N
       | 1%nat => 0x7F%N
       | 2%nat => 0xF0%N
       | _ => 0%N
       end;
     rnd_pos := 0 |}.

(** A wrapper strategy whose flags forbid both infinities and NaN. *)
Definition finite_only : WrapperFloatStrategy :=
  {| wrapper_floats := {| allow_infinity := false; allow_nan := false |};
     sub_strategy := PyNone |}.

(** An exponential strategy with the bounds 0.0 and 1.0 set on it. *)
Definition unit_interval : ExponentialFloatStrategy :=
  {| exp_floats := {| allow_infinity := true; allow_nan := true |};
     lower_bound := Some zero; upper_bound := Some one |}.

(** A world that follows a script.  Its state counts the draws and the
    calls of the test made so far, which is also what its clock shows; the
    script says what the test does at a count on given keyword arguments,
    what a draw from a buffer yields at a count, what the state of the
    global random module is at a count, and which candidates the engine
    tries. *)
Record Script := {
  script_test : nat -> gmap string PyVal -> res PyVal;
  script_draw : nat -> Buffer -> DrawResult;
  script_random : nat -> Z;
  script_notes : list string;
  script_candidates : Buffer * list Buffer
}.

(** The integer argument [n] of a call. *)
Definition argument_n (kwargs : gmap string PyVal) : Z :=
  match kwargs !! "n" with
  | Some (PyInt k) => k
  | _ => 0
  end.

(** A draw that reads the buffer as the integer argument [n]. *)
Definition draw_n (buffer : Buffer) : DrawResult :=
  Drew [] {[ "n" := PyInt (from_bytes_be buffer) ]}.

Definition scripted (s : Script) : World := {|
  W := nat;
  test_name := "test";
  qualified_name := "tests.test";
  argspec_args := ["n"];
  call_test := fun _ kwargs count =>
    (script_test s count kwargs, script_notes s, S count);
  draw := fun buffer count => (script_draw s count buffer, S count);
  arg_string := fun _ kwargs => "n=" +:+ pretty (argument_n kwargs);
  repr := fun v => match v with PyInt k => pretty k | _ => "object" end;
  format_exc := fun e =>
    match e with
    | UserException k => "Traceback: error " +:+ pretty k
    | _ => "Traceback"
    end;
  getglobalrandomstate := script_random s;
  time_time := fun count => inject_Z (Z.of_nat count);
  validate := Val tt;
  current_verbose := false;
  engine_candidates := fun _ => script_candidates s
|}.

(** A test that fails exactly when [n >= 5], on values read off the
    buffers; the engine tries 1, 2 and 7. *)
Definition fails_from_5 : Script := {|
  script_test := fun _ kwargs =>
    if 5 <=? argument_n kwargs then Exc (UserException 1) else Val PyNone;
  script_draw := fun _ => draw_n;
  script_random := fun _ => 0;
  script_notes := [];
  script_candidates := ([x01], [[x02]; [x07]])
|}.

(** The same test, which moreover rejects 9 with an unsatisfied
    assumption. *)
Definition fails_from_5_rejects_9 : Script := {|
  script_test := fun _ kwargs =>
    if argument_n kwargs =? 9 then Exc UnsatisfiedAssumption
    else if 5 <=? argument_n kwargs then Exc (UserException 1)
    else Val PyNone;
  script_draw := fun _ => draw_n;
  script_random := fun _ => 0;
  script_notes := ["a note"];
  script_candidates := ([x01], [[x02]; [x07]])
|}.

(** A test that always passes; the engine tries 1, 2 and 3. *)
Definition passes : Script := {|
  script_test := fun _ _ => Val PyNone;
  script_draw := fun _ => draw_n;
  script_random := fun _ => 0;
  script_notes := [];
  script_candidates := ([x01], [[x02]; [x03]])
|}.

(** A test that rejects every value with an unsatisfied assumption. *)
Definition assumes_false : Script := {|
  script_test := fun _ _ => Exc UnsatisfiedAssumption;
  script_draw := fun _ => draw_n;
  script_random := fun _ => 0;
  script_notes := [];
  script_candidates := ([x01], [[x02]; [x03]])
|}.

(** A test that returns 1, and one that also touches the global random
    module on every call. *)
Definition returns_1 : Script := {|
  script_test := fun _ _ => Val (PyInt 1);
  script_draw := fun _ => draw_n;
  script_random := fun _ => 0;
  script_notes := [];
  script_candidates := ([x01], [])
|}.

Definition uses_global_random : Script := {|
  script_test := fun _ _ => Val PyNone;
  script_draw := fun _ => draw_n;
  script_random := fun count => Z.of_nat count;
  script_notes := [];
  script_candidates := ([x01], [[x02]; [x03]])
|}.

(** A test that fails on its first call only: the strategy is reliable in
    the one script, and raises at its third draw in the other. *)
Definition fails_once : Script := {|
  script_test := fun count _ =>
    if (count =? 1)%nat then Exc (UserException 1) else Val PyNone;
  script_draw := fun _ => draw_n;
  script_random := fun _ => 0;
  script_notes := [];
  script_candidates := ([x07], [])
|}.

Definition fails_once_then_strategy_raises : Script := {|
  script_test := fun count _ =>
    if (count =? 1)%nat then Exc (UserException 1) else Val PyNone;
  script_draw := fun count buffer =>
    if (count =? 4)%nat then DrawRaised (UserException 7) else draw_n buffer;
  script_random := fun _ => 0;
  script_notes := [];
  script_candidates := ([x07], [])
|}.

(** Settings with a database and health checks that warn, and the same
    without a database. *)
Definition plain_settings : Settings := {|
  max_examples := 3;
  min_satisfying_examples := 2;
  timeout := 60 # 1;
  derandomize := false;
  has_database := true;
  strict := false;
  perform_health_check := true
|}.

Definition hasty_settings : Settings := {|
  max_examples := 3;
  min_satisfying_examples := 2;
  timeout := 2 # 1;
  derandomize := false;
  has_database := false;
  strict := false;
  perform_health_check := true
|}.

(** A database that holds the buffers 9, 7 and 8 for the test. *)
Definition stored_buffers : gmap string (list Buffer) :=
  {[ "tests.test" := [[x09]; [x07]; [x08]] ]}.

(** The state of a run that has just recorded a failure on [n=7], after
    one draw and one call. *)
Definition recorded_failure (s : Script) : @RunState (scripted s) :=
  @Build_RunState (scripted s) 2%nat ∅ false
    (Some "Traceback: error 1") (Some "n=7") 1%nat [].

(** The state in which a call of [wrapped_test] starts, in a scripted
    world that has made no step yet. *)
Definition fresh_run (s : Script) (d : gmap string (list Buffer))
    : @RunState (scripted s) :=
  @initial_state (scripted s) 0%nat d.

(** The explicit examples [n=3], [n=6] and [n=4], in the order in which
    they were added to the test. *)
Definition three_examples : list Example :=
  [ {| ex_args := [PyInt 3]; ex_kwargs := ∅ |};
    {| ex_args := []; ex_kwargs := {[ "n" := PyInt 6 ]} |};
    {| ex_args := [PyInt 4]; ex_kwargs := ∅ |} ].

(** A short name for an event, for reading traces. *)
Definition describe (e : Event) : string :=
  match e with
  | EvExplicit _ kwargs => "explicit " +:+ pretty (argument_n kwargs)
  | EvDraw buffer => "draw " +:+ pretty (from_bytes_be buffer)
  | EvCall _ kwargs => "call " +:+ pretty (argument_n kwargs)
  | EvGetRandomState => "getstate"
  | EvFailHealthCheck _ => "fail_health_check"
  | EvWarn _ => "warn"
  | EvReport text => "report: " +:+ text
  | EvVerboseReport text => "verbose: " +:+ text
  | EvFetch _ => "fetch"
  | EvDelete _ buffer => "delete " +:+ pretty (from_bytes_be buffer)
  | EvSave _ buffer => "save " +:+ pretty (from_bytes_be buffer)
  | EvClassified buffer _ => "classified " +:+ pretty (from_bytes_be buffer)
  | EvEngineRun => "engine"
  end.

(** A byte source over the buffer 1. *)
Definition data_1 : TestData :=
  {| data_id := 0; data_buffer := [x01]; status := VALID; frozen := false |}.

End Fixtures.
(** ** The other strategies of [numbers.py] *)

Module MoreNumbers.
Import Float64 Numbers.

Local Open Scope res_scope.

(** Modelled from the spec: the sampling function a byte source uses when
    [draw_bytes] is given none ([uniform] of
    [hypothesis.internal.conjecture.data]) is not among the sources; it
    hands out [n] random bytes. *)
Definition uniform : Distribution :=
  fun random n => Some (Val (random_bytes n random)).

(** [random.getrandbits(k)], for [k > 0]. *)
Definition getrandbits (k : Z) (r : Random) : Z * Random :=
  let (x, r') := rnd_next r in (Z.of_N x mod 2 ^ k, r').

(** [r.to_bytes(n, 'big', signed=True)], for [n > 0]: the two's complement
    of [r] on [n] bytes, and [OverflowError] when it does not fit. *)
Definition int_to_bytes_signed (r : Z) (n : nat) : res Buffer :=
  let half := 2 ^ (8 * Z.of_nat n - 1) in
  if (- half <=? r) && (r <? half) then Val (to_bytes_be n r)
  else Exc OverflowError.

(** [bool(x)], for an object that defines neither [__bool__] nor
    [__len__]. *)
Definition truthy (v : PyVal) : bool :=
  match v with
  | PyNone => false
  | PyBool b => b
  | PyInt n => negb (n =? 0)
  | PyFloat f => negb (Z.land f 0x7FFFFFFFFFFFFFFF =? 0)
  | PyObj _ => true
  end.

(** *** WideRangeIntStrategy *)

Definition size : nat := 16.

(** The integer that the sampling function of
    [WideRangeIntStrategy.do_draw] writes out. *)
Definition wide_range_sample (random : Random) (n : nat) : Z * Random :=
  let (a, r1) := randint 0 (Z.of_nat n * 8 - 1) random in
  let (b, r2) := randint 0 (Z.of_nat n * 8 - 1) r1 in
  let k := Z.min a b in
  let (r, r3) := if k >? 0 then getrandbits k r2 else (0, r2) in
  let (negate, r4) := randint 0 1 r3 in
  (if negb (negate =? 0) then - r else r, r4).

(** The sampling function [distribution(random, n)] itself. *)
Definition wide_range_distribution (random : Random) (n : nat)
    : res (Buffer * Random) :=
  py_assert (n =? size)%nat;;;
  let (r, random') := wide_range_sample random n in
  bs <- int_to_bytes_signed r n;;
  Val (bs, random').

(** [WideRangeIntStrategy.do_draw(self, data)].  The byte source hands out
    as many bytes as it is asked for (it asserts so); [first] holds one
    byte. *)
Definition WideRangeIntStrategy_do_draw (data : ByteSource)
    : option (res (Z * ByteSource)) :=
  match draw_bytes data 1 uniform with
  | None => None
  | Some (Exc e) => Some (Exc e)
  | Some (Val (first, data1)) =>
      match first with
      | [] => Some (Exc AssertionError)
      | b :: _ =>
          let negative := Z.land (Z.of_N (Byte.to_N b)) 1 in
          match draw_bytes data1 size
                  (fun r n => Some (wide_range_distribution r n)) with
          | None => None
          | Some (Exc e) => Some (Exc e)
          | Some (Val (byt, data2)) =>
              let r := from_bytes_be byt in
              Some (Val (if negb (negative =? 0) then - r else r, data2))
          end
      end
  end.

(** *** is_integral *)

(** [int(value)]: a float is truncated towards zero; an infinity raises
    [OverflowError] and a NaN [ValueError]. *)
Definition py_int (value : PyVal) : res Z :=
  match value with
  | PyInt n => Val n
  | PyBool b => Val (if b then 1 else 0)
  | PyFloat f =>
      match decode f with
      | S754_zero _ => Val 0
      | S754_infinity _ => Exc OverflowError
      | S754_nan => Exc (ValueError "cannot convert float NaN to integer")
      | S754_finite s m e =>
          let magnitude :=
            if 0 <=? e then Zpos m * 2 ^ e else Zpos m / 2 ^ (- e) in
          Val (if s then - magnitude else magnitude)
      end
  | PyNone | PyObj _ => Exc TypeError
  end.

(** [n == value] for an integer [n]: the comparison with a float is
    exact. *)
Definition int_eq (n : Z) (value : PyVal) : bool :=
  match value with
  | PyInt k => n =? k
  | PyBool b => n =? (if b then 1 else 0)
  | PyFloat f =>
      match decode f with
      | S754_zero _ => n =? 0
      | S754_finite s m e =>
          let signed := if s then Zneg m else Zpos m in
          if 0 <=? e then n =? signed * 2 ^ e
          else n * 2 ^ (- e) =? signed
      | _ => false
      end
  | PyNone | PyObj _ => false
  end.

(** [is_integral(value)] *)
Definition is_integral (value : PyVal) : res bool :=
  match py_int value with
  | Val n => Val (int_eq n value)
  | Exc OverflowError | Exc (ValueError _) => Val false
  | Exc e => Exc e
  end.

(** The number a finite bit pattern stands for. *)
Definition to_Q (b : Z) : option Q :=
  match decode b with
  | S754_zero _ => Some 0%Q
  | S754_finite s m e =>
      let signed := if s then Zneg m else Zpos m in
      Some (if 0 <=? e then inject_Z (signed * 2 ^ e)
            else (signed # Z.to_pos (2 ^ (- e)))%Q)
  | _ => None
  end.

(** *** ExponentialFloatStrategy, as constructed *)

(** The class has no constructor of its own: an instance is built by
    [FloatStrategy.__init__], which sets neither [lower_bound] nor
    [upper_bound]. *)
Definition ExponentialFloatStrategy___init__ (args : list PyVal)
    (kwargs : list (string * PyVal)) : res ExponentialFloatStrategy :=
  base <- FloatStrategy___init__ args kwargs;;
  Val {| exp_floats := base; lower_bound := None; upper_bound := None |}.

(** *** NastyFloats *)

(** [sys.float_info.min] and [sys.float_info.max] *)
Definition float_info_min : Z := 0x0010000000000000.
Definition float_info_max : Z := 0x7FEFFFFFFFFFFFFF.

(** [NastyFloats.__init__(self, allow_nan=True, allow_infinity=True)]:
    the elements it hands to [SampledFromStrategy.__init__]. *)
Definition NastyFloats___init__ (args : list PyVal)
    (kwargs : list (string * PyVal)) : res (list Z) :=
  env <- bind_arguments
           {| sig_required := [];
              sig_optional := [("allow_nan", PyBool true);
                               ("allow_infinity", PyBool true)] |}
           args kwargs;;
  let elements :=
    [zero; neg_zero; float_info_min; neg float_info_min;
     neg float_info_max; float_info_max] in
  let elements :=
    if truthy (arg env "allow_infinity")
    then (elements ++ [inf; neg inf])%list else elements in
  let elements :=
    if truthy (arg env "allow_nan")
    then (elements ++ [nan])%list else elements in
  Val elements.

(** *** The sampling loop of [WrapperFloatStrategy.do_draw] *)

(** An iteration of the loop that goes round again: the generator picks
    the catalog and an entry of it that [permitted] refuses.  The result
    is the generator afterwards. *)
Definition rejected_iteration (self : WrapperFloatStrategy) (r : Random)
    : option Random :=
  let (i, r1) := randint 1 10 r in
  if i <=? 4 then
    let (f, r2) := choice NASTY_FLOATS PyNone r1 in
    match permitted self f with
    | Val false => Some r2
    | _ => None
    end
  else None.

(** The generator after [n] such iterations in a row. *)
Fixpoint after_rejections (self : WrapperFloatStrategy) (n : nat) (r : Random)
    : option Random :=
  match n with
  | O => Some r
  | S k =>
      match rejected_iteration self r with
      | Some r' => after_rejections self k r'
      | None => None
      end
  end.

End MoreNumbers.
(** ** The decorators of [core.py] *)

Module Decorators.
Import Core.

Local Open Scope res_scope.

(** [inspect.getargspec(test)]: the names of the parameters, of the
    starred and double-starred parameter where there is one, and the
    default values ([None] where there is none). *)
Record ArgSpec := {
  args : list string;
  varargs : option string;
  keywords : option string;
  defaults : option (list PyVal)
}.

(** The truth value of a list or tuple, and of a name or [None]. *)
Definition nonempty {A} (l : list A) : bool :=
  match l with [] => false | _ :: _ => true end.

Definition is_set {A} (o : option A) : bool :=
  match o with Some _ => true | None => false end.

(** [repr(k)] of the name of a keyword. *)
Definition repr_str (k : string) : string := "'" +:+ k +:+ "'".

(** [d[k] = v], on a dict kept in the order of insertion. *)
Fixpoint dict_setitem (d : list (string * PyVal)) (k : string) (v : PyVal)
    : list (string * PyVal) :=
  match d with
  | [] => [(k, v)]
  | (k', v') :: rest =>
      if bool_decide (k' = k) then (k, v) :: rest
      else (k', v') :: dict_setitem rest k v
  end.

(** [l[-k:]] *)
Definition last_items {A} (k : nat) (l : list A) : list A :=
  if (k =? 0)%nat then l else drop (length l - k) l.

(** What [run_test_with_generator(test)] returns: [invalid(message)], a
    function that raises [InvalidArgument(message)] when it is called, or
    the wrapped test, with its argspec and the strategies by name. *)
Inductive Decorated :=
| Invalid (message : string)
| Wrapped (argspec : ArgSpec) (generator_kwargs : list (string * PyVal)).

(** The function [wrapped_test] that [invalid(message)] returns. *)
Definition invalid (message : string) (arguments : list PyVal)
    (kwargs : list (string * PyVal)) : res unit :=
  Exc (InvalidArgument message).

(** [run_test_with_generator(test)] for a test of the given name and
    argspec, in the closure of [given]: [generator_arguments] are the
    positional strategies, and [generator_kwargs] is the dict of the
    keyword strategies as it is when the decorator is applied.  The
    function stores the positional strategies into that dict; the dict
    afterwards is the one of [Wrapped], and a call that returns
    [invalid(message)] leaves the dict as it was.  (The names of the
    parameters are strings, so the check for destructuring parameters
    never fires.) *)
Definition run_test_with_generator (generator_arguments : list PyVal)
    (generator_kwargs : list (string * PyVal))
    (test_name : string) (original_argspec : ArgSpec) : Decorated :=
  if negb (nonempty generator_arguments || nonempty generator_kwargs) then
    Invalid "given must be called with at least one argument"
  else if nonempty generator_arguments
          && (is_set (varargs original_argspec)
              || is_set (keywords original_argspec)) then
    Invalid ("varargs or keywords are not supported with positional " +:+
             "arguments to @given")
  else if (length (args original_argspec) <? length generator_arguments)%nat then
    Invalid ("Too many positional arguments for " +:+ test_name +:+
             "() (got " +:+ pretty (length generator_arguments) +:+ " but" +:+
             " expected at most " +:+ pretty (length (args original_argspec)))
  else if nonempty generator_arguments && nonempty generator_kwargs then
    Invalid "cannot mix positional and keyword arguments to @given"
  else
    let extra_kwargs :=
      filter (fun k => k ∉ args original_argspec) (map fst generator_kwargs) in
    match extra_kwargs, keywords original_argspec with
    | k :: _, None =>
        Invalid (test_name +:+ "() got an unexpected keyword argument " +:+
                 repr_str k)
    | _, _ =>
        let arguments := args original_argspec in
        if match defaults original_argspec with
           | Some (_ :: _) => true
           | _ => false
           end
        then Invalid "Cannot apply @given to a function with defaults."
        else
          let generator_kwargs :=
            fold_left (fun d ns => dict_setitem d (fst ns) (snd ns))
              (zip (last_items (length generator_arguments) arguments)
                   generator_arguments)
              generator_kwargs in
          Wrapped
            {| args := filter (fun a => a ∉ map fst generator_kwargs) arguments;
               keywords := keywords original_argspec;
               varargs := varargs original_argspec;
               defaults := None |}
            generator_kwargs
    end.

(** The decorator that [given(...)] returns: a closure over the
    positional strategies and over the dict of the keyword strategies.
    The dict is one object, shared by all the applications of the
    decorator and by the wrapped tests they return. *)
Record Given := {
  closure_arguments : list PyVal;
  closure_kwargs : list (string * PyVal)
}.

(** [given] called with its positional and keyword strategies. *)
Definition given (generator_arguments : list PyVal)
    (generator_kwargs : list (string * PyVal)) : Given :=
  {| closure_arguments := generator_arguments;
     closure_kwargs := generator_kwargs |}.

(** The decorator applied to a test: what it returns, and the decorator
    afterwards, whose dict is the one the application left. *)
Definition decorate (g : Given) (test_name : string)
    (original_argspec : ArgSpec) : Decorated * Given :=
  let decorated :=
    run_test_with_generator (closure_arguments g) (closure_kwargs g)
      test_name original_argspec in
  (decorated,
   match decorated with
   | Wrapped _ generator_kwargs =>
       {| closure_arguments := closure_arguments g;
          closure_kwargs := generator_kwargs |}
   | Invalid _ => g
   end).

(** A stack of [@example(...)] decorators on a test, as written from top
    to bottom: the calls of [example] are evaluated from the top, and the
    functions they return are applied from the bottom, to a test whose
    list of explicit examples is [below]. *)
Fixpoint evaluate_examples (written : list (list PyVal * gmap string PyVal))
    : res (list (list Example -> list Example)) :=
  match written with
  | [] => Val []
  | (a, k) :: rest =>
      accept <- example a k;;
      accepts <- evaluate_examples rest;;
      Val (accept :: accepts)
  end.

Definition stacked_examples (written : list (list PyVal * gmap string PyVal))
    (below : list Example) : res (list Example) :=
  accepts <- evaluate_examples written;;
  Val (fold_right (fun accept examples => accept examples) below accepts).

End Decorators.

(** ** More vocabulary for the statements about runs *)

Module MoreTraces.
Import Core.

(** The key of an access to the database. *)
Definition database_key_of (e : Event) : option string :=
  match e with
  | EvFetch k | EvDelete k _ | EvSave k _ => Some k
  | _ => None
  end.

(** An event allowed on a run that may use the database under [key] only,
    and only if it has one. *)
Definition database_discipline (key : string) (has_database : bool)
    (e : Event) : bool :=
  match database_key_of e with
  | Some k => has_database && bool_decide (k = key)
  | None => true
  end.

(** An event that is no part of the check of the global random state. *)
Definition no_random_check (e : Event) : bool :=
  match e with
  | EvGetRandomState | EvFailHealthCheck _ | EvWarn _ => false
  | _ => true
  end.

End MoreTraces.

(** ** More concrete inputs *)

Module MoreFixtures.
Import Core Fixtures.

(** Settings that ask for no generated example, and settings with the
    health checks switched off. *)
Definition explicit_only_settings : Settings := {|
  max_examples := 0;
  min_satisfying_examples := 0;
  timeout := 60 # 1;
  derandomize := false;
  has_database := true;
  strict := false;
  perform_health_check := true
|}.

Definition unchecked_settings : Settings := {|
  max_examples := 3;
  min_satisfying_examples := 2;
  timeout := 60 # 1;
  derandomize := false;
  has_database := true;
  strict := true;
  perform_health_check := false
|}.

End MoreFixtures.

(** ** [find] *)

Module Find.
Import Core.

(** What [data.draw(search)] does on a byte source: it returns a value,
    runs past the end of the buffer, or raises. *)
Inductive Drawn :=
| DrewValue (result : PyVal)
| DrawnOverrun
| DrawnRaised (e : Exn).

(** How a call of [find] ends: with the value it returns, with
    [NoSuchExample], or with another exception. *)
Inductive FindOutcome :=
| Found (value : PyVal)
| NoSuchExample (condition_description : string)
| Raised (e : Exn).

(** What [find] does and what its collaborators do, in time order. *)
Inductive FindEvent :=
| FStorage
| FNewRandom
| FDraw (buffer : Buffer)
| FCondition (result : PyVal)
| FReport (text : string).

(** The arguments of [find] and everything around them that the code only
    calls: the strategy and the condition acting on a state [FW] of their
    own, [repr], the description of the condition, and the candidates the
    engine tries. *)
Class FindWorld := {
  FW : Type;
  specifier_is_strategy : bool;
  specifier_repr : string;
  specifier_type_name : string;
  draw_value : Buffer -> FW -> Drawn * FW;
  condition : PyVal -> FW -> res PyVal * FW;
  repr_result : PyVal -> string;
  condition_description : string;
  find_candidates : Buffer * list Buffer
}.

Section FindRun.
Context `{FindWorld}.

(** [settings.verbosity == Verbosity.verbose],
    [settings.database is not None], and whether [find] was given a
    [storage] and a [random]. *)
Variables (verbose has_database storage_given random_given : bool).

(** The mutable state of one call of [find]: the world, the one-element
    lists [successful_examples] and [last_data], the next fresh object
    identity, and the trace (latest event first). *)
Record FindState := {
  fworld : FW;
  successful_examples : Z;
  find_last_data : option TestData;
  fnext_id : nat;
  flog : list FindEvent
}.

Definition find_initial_state (w : FW) : FindState :=
  {| fworld := w; successful_examples := 0; find_last_data := None;
     fnext_id := 0; flog := [] |}.

Definition find_trace (st : FindState) : list FindEvent := rev (flog st).

Definition femit (e : FindEvent) (st : FindState) : FindState :=
  {| fworld := fworld st; successful_examples := successful_examples st;
     find_last_data := find_last_data st; fnext_id := fnext_id st;
     flog := e :: flog st |}.

Definition set_fworld (w : FW) (st : FindState) : FindState :=
  {| fworld := w; successful_examples := successful_examples st;
     find_last_data := find_last_data st; fnext_id := fnext_id st;
     flog := flog st |}.

Definition count_success (st : FindState) : FindState :=
  {| fworld := fworld st; successful_examples := successful_examples st + 1;
     find_last_data := find_last_data st; fnext_id := fnext_id st;
     flog := flog st |}.

Definition set_find_last_data (data : TestData) (st : FindState) : FindState :=
  {| fworld := fworld st; successful_examples := successful_examples st;
     find_last_data := Some data; fnext_id := fnext_id st;
     flog := flog st |}.

(** Modelled from the spec: [TestData.for_buffer], as in the orchestrator:
    a fresh byte source over a buffer, valid and not frozen. *)
Definition find_for_buffer (buffer : Buffer) (st : FindState)
    : TestData * FindState :=
  ({| data_id := fnext_id st; data_buffer := buffer; status := VALID;
      frozen := false |},
   {| fworld := fworld st; successful_examples := successful_examples st;
      find_last_data := find_last_data st; fnext_id := S (fnext_id st);
      flog := flog st |}).

(** The texts of the three reports. *)
Definition trying_example (result : PyVal) : string :=
  "Trying example " +:+ repr_result result.
Definition found_satisfying_example (result : PyVal) : string :=
  "Found satisfying example " +:+ repr_result result.
Definition shrunk_example (result : PyVal) : string :=
  "Shrunk example to " +:+ repr_result result.

(** The [if settings.verbosity == Verbosity.verbose] statement of
    [template_condition]. *)
Definition report_progress (data : TestData) (result : PyVal) (success : bool)
    (st : FindState) : FindState :=
  if verbose then
    if successful_examples st =? 0 then
      femit (FReport (trying_example result)) st
    else if success then
      set_find_last_data data
        (if successful_examples st =? 1
         then femit (FReport (found_satisfying_example result)) st
         else femit (FReport (shrunk_example result)) st)
    else st
  else st.

(** [template_condition(data)]: what it returns or raises, the byte source
    and the state afterwards.  [data.note(result)] leaves no trace here,
    and the cell [last_data] (which holds the byte source that is marked
    afterwards) is never read. *)
Definition template_condition (data : TestData) (st : FindState)
    : res unit * TestData * FindState :=
  let st := femit (FDraw (data_buffer data)) st in
  let (drawn, w1) := draw_value (data_buffer data) (fworld st) in
  let st := set_fworld w1 st in
  match drawn with
  | DrawnOverrun => (Exc (StopTest (data_id data)), mark OVERRUN data, st)
  | DrawnRaised UnsatisfiedAssumption =>
      let (stop, data) := mark_invalid data in (stop, data, st)
  | DrawnRaised e => (Exc e, data, st)
  | DrewValue result =>
      let st := femit (FCondition result) st in
      let (answer, w2) := condition result (fworld st) in
      let st := set_fworld w2 st in
      match answer with
      | Exc UnsatisfiedAssumption =>
          let (stop, data) := mark_invalid data in (stop, data, st)
      | Exc e => (Exc e, data, st)
      | Val answer =>
          let success := MoreNumbers.truthy answer in
          let st := if success then count_success st else st in
          let st := report_progress data result success st in
          if success then
            let (stop, data) := mark_interesting data in (stop, data, st)
          else (Val tt, data, st)
      end
  end.

(** Modelled from the spec: the engine, as in the orchestrator, run on
    [template_condition]. *)
Fixpoint find_engine_loop (candidates : list Buffer) (runner : TestRunner)
    (st : FindState) : res TestRunner * FindState :=
  match candidates with
  | [] => (Val runner, st)
  | buffer :: rest =>
      let (data, st) := find_for_buffer buffer st in
      let '(r, data, st) := template_condition data st in
      match except_own_StopTest data r with
      | Exc e => (Exc e, st)
      | Val _ => find_engine_loop rest (consider runner data) st
      end
  end.

Definition find_TestRunner_run (st : FindState) : res TestRunner * FindState :=
  let (first, rest) := find_candidates in
  let (data, st) := find_for_buffer first st in
  let '(r, data, st) := template_condition data st in
  match except_own_StopTest data r with
  | Exc e => (Exc e, st)
  | Val _ =>
      find_engine_loop rest
        {| last_data := data; valid_examples := counts_as_valid data |} st
  end.

Definition expected_strategy_message : string :=
  "Expected SearchStrategy but got " +:+ specifier_repr +:+ " of type " +:+
  specifier_type_name.

(** [find(specifier, condition, settings, random, storage)] *)
Definition find (st : FindState) : FindOutcome * FindState :=
  if negb specifier_is_strategy then
    (Raised (InvalidArgument expected_strategy_message), st)
  else
    let st := if negb storage_given && has_database
              then femit FStorage st else st in
    let st := if random_given then st else femit FNewRandom st in
    let (ran, st) := find_TestRunner_run st in
    match ran with
    | Exc e => (Raised e, st)
    | Val runner =>
        if status_eqb (status (last_data runner)) INTERESTING then
          let (data, st) := find_for_buffer (data_buffer (last_data runner)) st in
          let st := femit (FDraw (data_buffer data)) st in
          let (drawn, w) := draw_value (data_buffer data) (fworld st) in
          let st := set_fworld w st in
          match drawn with
          | DrewValue value => (Found value, st)
          | DrawnOverrun => (Raised (StopTest (data_id data)), st)
          | DrawnRaised e => (Raised e, st)
          end
        else (NoSuchExample condition_description, st)
    end.

(** The texts reported on a trace, in order. *)
Fixpoint reports_of (evs : list FindEvent) : list string :=
  match evs with
  | [] => []
  | FReport text :: rest => text :: reports_of rest
  | _ :: rest => reports_of rest
  end.

(** The reports of a search for an example: attempts, and once one has
    succeeded the satisfying example and the examples it was shrunk to. *)
Definition progress_reports (tried : list PyVal) (satisfying : list PyVal)
    : list string :=
  (map trying_example tried
   ++ match satisfying with
      | [] => []
      | first :: shrunk =>
          found_satisfying_example first :: map shrunk_example shrunk
      end)%list.

(** What comes of trying one candidate, as the strategy and the condition
    see it: the condition answers on the value drawn, or the candidate is
    passed over (the draw runs past the end of the buffer, or the strategy
    or the condition raises [UnsatisfiedAssumption] or the stop of the
    byte source of this candidate, whose identity is [id]), or an error
    ends the search. *)
Inductive Tried :=
| Answered (value : PyVal) (success : bool)
| PassedOver
| Stopped (e : Exn).

Definition raised_on (id : nat) (e : Exn) : Tried :=
  match e with
  | UnsatisfiedAssumption => PassedOver
  | StopTest k => if (k =? id)%nat then PassedOver else Stopped e
  | _ => Stopped e
  end.

Definition try_candidate (id : nat) (buffer : Buffer) (w : FW) : Tried * FW :=
  let (drawn, w1) := draw_value buffer w in
  match drawn with
  | DrawnOverrun => (PassedOver, w1)
  | DrawnRaised e => (raised_on id e, w1)
  | DrewValue result =>
      let (answer, w2) := condition result w1 in
      (match answer with
       | Val answer => Answered result (MoreNumbers.truthy answer)
       | Exc e => raised_on id e
       end, w2)
  end.

(** A candidate on which the condition answered. *)
Record Attempt := {
  attempt_buffer : Buffer;
  attempt_value : PyVal;
  attempt_success : bool
}.

(** The course of a search: the candidates on which the condition
    answered, in order; the error that ended the search, if one did; and
    the world it left. *)
Record Course := {
  attempts : list Attempt;
  stopped : option Exn;
  world_left : FW
}.

(** The candidates tried one after the other, each in the world the one
    before it left; the byte sources are numbered from [id] on. *)
Fixpoint try_candidates (id : nat) (candidates : list Buffer) (w : FW)
    : Course :=
  match candidates with
  | [] => {| attempts := []; stopped := None; world_left := w |}
  | buffer :: later =>
      let (tried, w') := try_candidate id buffer w in
      match tried with
      | Stopped e => {| attempts := []; stopped := Some e; world_left := w' |}
      | PassedOver => try_candidates (S id) later w'
      | Answered value success =>
          let course := try_candidates (S id) later w' in
          {| attempts :=
               {| attempt_buffer := buffer; attempt_value := value;
                  attempt_success := success |} :: attempts course;
             stopped := stopped course;
             world_left := world_left course |}
      end
  end.

(** The attempts before the first on which the condition held. *)
Fixpoint failed_first (tried : list Attempt) : list Attempt :=
  match tried with
  | [] => []
  | a :: later => if attempt_success a then [] else a :: failed_first later
  end.

(** The attempts on which the condition held. *)
Definition satisfying (tried : list Attempt) : list Attempt :=
  List.filter attempt_success tried.

(** What a search has come to after the attempts [done]: the count of
    satisfying examples, the reports when the search is verbose, and the
    byte source the engine holds. *)
Record searched (done : list Attempt) (runner : TestRunner) (st : FindState)
    : Prop := {
  searched_count :
    successful_examples st = Z.of_nat (length (satisfying done));
  searched_reports :
    reports_of (find_trace st)
    = if verbose
      then progress_reports (map attempt_value (failed_first done))
             (map attempt_value (satisfying done))
      else [];
  searched_last_data :
    match last (satisfying done) with
    | Some a =>
        status (last_data runner) = INTERESTING
        /\ data_buffer (last_data runner) = attempt_buffer a
    | None => status (last_data runner) <> INTERESTING
    end
}.

End FindRun.

(** A search for an integer of at least 5 among the values read off the
    buffers 1, 7, 2 and 6. *)
Definition at_least_5 : FindWorld := {|
  FW := nat;
  specifier_is_strategy := true;
  specifier_repr := "integers()";
  specifier_type_name := "IntegersStrategy";
  draw_value := fun buffer count =>
    (DrewValue (PyInt (Float64.from_bytes_be buffer)), S count);
  condition := fun result count =>
    (Val (PyBool match result with PyInt n => 5 <=? n | _ => false end),
     S count);
  repr_result := fun v => match v with PyInt k => pretty k | _ => "object" end;
  condition_description := "lambda x: x >= 5";
  find_candidates := ([x01], [[x07]; [x02]; [x06]])
|}.

End Find.

(** * Properties *)

(** ** The numeric strategies *)

Module NumbersFacts.
Import Float64 Numbers Fixtures.

(** The module-level [assert len(NASTY_FLOATS) == 32]. *)
Example NASTY_FLOATS_has_32_entries : length NASTY_FLOATS = 32%nat.
Proof. reflexivity. Qed.

(** The computed entries of the catalog are the doubles Python computes. *)
Example NASTY_FLOATS_computed_entries :
  div one (of_int 3) = 0x3FD5555555555555
  /\ sub (of_int 1) 0x3EE4F8B588E368F1 = 0x3FEFFFEB074A771D
  /\ add (of_int 2) 0x3EE4F8B588E368F1 = 0x400000053E2D6239.
Proof. vm_compute. auto. Qed.

(** *** Argument binding *)

Lemma bind_keywords_raises params kwargs : forall env e,
  bind_keywords params env kwargs = Exc e -> e = TypeError.
Proof.
  induction kwargs as [|[k v] rest IH]; intros env e; simpl.
  - discriminate.
  - destruct (bool_decide (k ∈ params)); [|congruence].
    destruct (env !! k); [congruence|]. apply IH.
Qed.

Lemma check_required_raises required env e :
  check_required required env = Exc e -> e = TypeError.
Proof.
  induction required as [|p rest IH]; simpl; [discriminate|].
  destruct (env !! p); [exact IH|congruence].
Qed.

Lemma bind_arguments_raises sg args kwargs e :
  bind_arguments sg args kwargs = Exc e -> e = TypeError.
Proof.
  unfold bind_arguments.
  destruct (length (sig_params sg) <? length args)%nat; [congruence|].
  destruct (bind_keywords _ _ kwargs) as [env|e'] eqn:Hk; simpl.
  - destruct (check_required _ env) as [[]|e'] eqn:Hr; simpl; [discriminate|].
    intros [= <-]. eapply check_required_raises; eauto.
  - intros [= <-]. eapply bind_keywords_raises; eauto.
Qed.

(** Called without arguments, [FloatStrategy.__init__] cannot bind its two
    required parameters. *)
Lemma FloatStrategy_needs_its_arguments :
  FloatStrategy___init__ [] [] = Exc TypeError.
Proof. reflexivity. Qed.

(** With two booleans the constructor of [FloatStrategy] itself succeeds. *)
Example FloatStrategy_constructible :
  FloatStrategy___init__ [PyBool false; PyBool false] []
  = Val {| allow_infinity := false; allow_nan := false |}.
Proof. reflexivity. Qed.

(** C10.  Whatever positional and keyword arguments they are called with
    (a single [sub_strategy] included), the constructors of
    [WrapperFloatStrategy], [FullRangeFloats] and [BoundedFloatStrategy]
    raise [TypeError]: where their own parameters bind, the [super] call
    reaches [FloatStrategy.__init__] without [allow_infinity] and
    [allow_nan].  None of the three is constructible. *)
Theorem float_strategy_constructors_raise_TypeError :
  (forall sub_strategy,
     WrapperFloatStrategy___init__ [sub_strategy] [] = Exc TypeError)
  /\ (forall args kwargs,
        WrapperFloatStrategy___init__ args kwargs = Exc TypeError
        /\ FullRangeFloats___init__ args kwargs = Exc TypeError
        /\ BoundedFloatStrategy___init__ args kwargs = Exc TypeError).
Proof.
  assert (Hgen : forall args kwargs,
    WrapperFloatStrategy___init__ args kwargs = Exc TypeError
    /\ FullRangeFloats___init__ args kwargs = Exc TypeError
    /\ BoundedFloatStrategy___init__ args kwargs = Exc TypeError).
  { intros args kwargs.
    unfold WrapperFloatStrategy___init__, FullRangeFloats___init__,
      BoundedFloatStrategy___init__.
    repeat split;
      match goal with
      | |- res_bind (bind_arguments ?sg args kwargs) _ = _ =>
          destruct (bind_arguments sg args kwargs) as [env|e] eqn:Hb; simpl;
          [ rewrite FloatStrategy_needs_its_arguments; reflexivity
          | apply bind_arguments_raises in Hb; congruence ]
      end. }
  split; [intros sub_strategy; apply Hgen | exact Hgen].
Qed.

(** *** BoundedIntStrategy *)

Lemma integer_range_within data lower upper v data' :
  lower <= upper ->
  integer_range data lower upper = Some (Val (v, data')) ->
  lower <= v <= upper.
Proof.
  intros Hle. unfold integer_range.
  destruct (lower =? upper) eqn:E.
  - intros [= <- <-]. apply Z.eqb_eq in E. lia.
  - destruct (draw_bytes _ _ _) as [[[bs d]|e]|]; try discriminate.
    intros [= <- <-].
    pose proof (Z.mod_pos_bound (from_bytes_be bs) (upper - lower + 1)).
    lia.
Qed.

Lemma integer_range_generates id rnd lower upper :
  exists v data', integer_range (Generate id rnd) lower upper = Some (Val (v, data')).
Proof.
  unfold integer_range. destruct (lower =? upper); [eauto|].
  unfold draw_bytes. destruct (randint lower upper rnd). eauto.
Qed.

(** C4, as the code has it.  Constructing a [BoundedIntStrategy] with
    [start > end] fails at construction time, with a [ValueError] (not an
    [InvalidArgument]); with [start <= end] the construction succeeds,
    every value a draw returns lies in [[start, end]], and a draw from a
    generating byte source does return a value. *)
Theorem BoundedIntStrategy_range (start end_ : Z) :
  (start > end_ ->
     BoundedIntStrategy___init__ start end_
     = Exc (ValueError (invalid_range_message start end_)))
  /\ (start <= end_ ->
        exists self,
          BoundedIntStrategy___init__ start end_ = Val self
          /\ (forall data v data',
                BoundedIntStrategy_do_draw self data = Some (Val (v, data')) ->
                start <= v <= end_)
          /\ (forall id rnd, exists v data',
                BoundedIntStrategy_do_draw self (Generate id rnd)
                = Some (Val (v, data')))).
Proof.
  unfold BoundedIntStrategy___init__, BoundedIntStrategy_do_draw.
  change (SearchStrategy___init__ [] []) with (Val tt). simpl.
  split; intros Hcmp.
  - destruct (start >? end_) eqn:E; [reflexivity|]. lia.
  - destruct (start >? end_) eqn:E; [lia|].
    eexists; split; [reflexivity|]. simpl. split.
    + intros data v data'. now apply integer_range_within.
    + intros id rnd. apply integer_range_generates.
Qed.

Lemma BoundedIntStrategy_range_witness :
  BoundedIntStrategy___init__ 5 2 = Exc (ValueError "Invalid range [5, 2]")
  /\ exists self,
       BoundedIntStrategy___init__ 2 5 = Val self
       /\ (forall data v data',
             BoundedIntStrategy_do_draw self data = Some (Val (v, data')) ->
             2 <= v <= 5)
       /\ (forall id rnd, exists v data',
             BoundedIntStrategy_do_draw self (Generate id rnd)
             = Some (Val (v, data'))).
Proof.
  split.
  - apply (proj1 (BoundedIntStrategy_range 5 2)). reflexivity.
  - apply (proj2 (BoundedIntStrategy_range 2 5)). discriminate.
Defined.

(** The bad range [[1, 0]] raises [ValueError], so no [InvalidArgument]. *)
Lemma BoundedIntStrategy_bad_range_is_not_InvalidArgument :
  ~ exists msg, BoundedIntStrategy___init__ 1 0 = Exc (InvalidArgument msg).
Proof. intros [msg Hm]. vm_compute in Hm. discriminate. Qed.

Example BoundedIntStrategy_draws :
  BoundedIntStrategy_do_draw {| start := 2; end_ := 5 |} (for_buffer 0 [x07])
  = Some (Val (5, Replay 0 []))
  /\ BoundedIntStrategy_do_draw {| start := 2; end_ := 5 |} (for_buffer 0 [])
     = Some (Exc (StopTest 0))
  /\ BoundedIntStrategy_do_draw {| start := 2; end_ := 5 |}
       (Generate 0 (constant_random 6))
     = Some (Val (4, Generate 0 {| rnd_src := fun _ => 6%N; rnd_pos := 1 |})).
Proof. vm_compute. repeat split. Qed.

(** *** WrapperFloatStrategy *)

(** The catalog branch of the sampling function does re-sample: whatever
    it returns from the catalog is permitted by the flags. *)
Example catalog_entries_are_filtered :
  permitted finite_only (PyFloat inf) = Val false
  /\ permitted finite_only (PyFloat (neg inf)) = Val false
  /\ permitted finite_only (PyFloat nan) = Val false
  /\ permitted finite_only (PyFloat 0x3FE0000000000000) = Val true.
Proof. vm_compute. repeat split. Qed.

(** C1.  With [allow_nan] and [allow_infinity] both false, a draw returns
    positive infinity: from a byte source that replays the eight bytes of
    infinity, and from a generating source whose sampling function takes
    the branch of eight random bytes.  Only the catalog branch asks
    [permitted]; the decoded value is returned unchecked. *)
Theorem WrapperFloatStrategy_draws_forbidden_infinity :
  WrapperFloatStrategy_do_draw finite_only 1 (for_buffer 0 (struct_pack_d inf))
  = Some (Val (inf, Replay 0 []))
  /\ WrapperFloatStrategy_do_draw finite_only 1 (Generate 0 infinity_random)
     = Some (Val (inf, Generate 0 {| rnd_src := rnd_src infinity_random;
                                     rnd_pos := 9 |}))
  /\ isinf inf = true
  /\ isfinite inf = false
  /\ permitted finite_only (PyFloat inf) = Val false.
Proof. vm_compute. repeat split. Qed.

(** The same holds of a NaN. *)
Example WrapperFloatStrategy_draws_forbidden_nan :
  WrapperFloatStrategy_do_draw finite_only 1 (for_buffer 0 (struct_pack_d nan))
  = Some (Val (nan, Replay 0 []))
  /\ isnan nan = true.
Proof. vm_compute. repeat split. Qed.

(** *** ExponentialFloatStrategy *)

Lemma chained_le_true key self f :
  chained_le key self f = Val true ->
  exists lo hi,
    lower_bound self = Some lo /\ upper_bound self = Some hi
    /\ le (key lo) (key f) = true /\ le (key f) (key hi) = true.
Proof.
  unfold chained_le, getattr.
  destruct (lower_bound self) as [lo|]; cbn [res_bind assume]; [|discriminate].
  destruct (le (key lo) (key f)) eqn:E1; [|discriminate].
  destruct (upper_bound self) as [hi|]; cbn [res_bind assume]; [|discriminate].
  intros [= E2]. eauto 10.
Qed.

Lemma chained_le_configured key self f lo hi :
  lower_bound self = Some lo -> upper_bound self = Some hi ->
  chained_le key self f = Val (le (key lo) (key f) && le (key f) (key hi)).
Proof.
  intros Hlo Hhi. unfold chained_le, getattr. rewrite Hlo, Hhi. cbn [res_bind assume].
  destruct (le (key lo) (key f)); reflexivity.
Qed.

(** C9.  A value [f] that a draw of the exponential strategy returns
    satisfies [lower_bound <= f <= upper_bound] and
    [sign(lower_bound) <= sign(f) <= sign(upper_bound)]; and with both
    bounds configured, the eight bytes drawn decide the draw: their value
    is returned when it satisfies the two conditions, and the draw raises
    [UnsatisfiedAssumption] when it violates either of them. *)
Theorem ExponentialFloatStrategy_draw_within_bounds
    (self : ExponentialFloatStrategy) (data : ByteSource) :
  (forall f data',
     ExponentialFloatStrategy_do_draw self data = Some (Val (f, data')) ->
     exists lo hi,
       lower_bound self = Some lo /\ upper_bound self = Some hi
       /\ le lo f = true /\ le f hi = true
       /\ le (sign lo) (sign f) = true /\ le (sign f) (sign hi) = true)
  /\ (forall lo hi bs data',
        lower_bound self = Some lo -> upper_bound self = Some hi ->
        draw_bytes data 8 (fun r n => Some (exponential_distribution self r n))
        = Some (Val (bs, data')) ->
        length bs = 8%nat ->
        ExponentialFloatStrategy_do_draw self data
        = Some (let f := from_bytes_be bs in
                if (le lo f && le f hi)
                   && (le (sign lo) (sign f) && le (sign f) (sign hi))
                then Val (f, data') else Exc UnsatisfiedAssumption)).
Proof.
  unfold ExponentialFloatStrategy_do_draw. split.
  - intros f data'.
    destruct (draw_bytes data 8 _) as [[[bs d]|e]|]; try discriminate.
    destruct (struct_unpack_d bs) as [x|e]; cbn [res_bind assume]; [|discriminate].
    destruct (chained_le (fun x => x) self x) as [[|]|e] eqn:Hb; cbn [res_bind assume];
      try discriminate.
    destruct (chained_le sign self x) as [[|]|e] eqn:Hs; cbn [res_bind assume];
      try discriminate.
    intros [= <- <-].
    apply chained_le_true in Hb as (lo & hi & Hlo & Hhi & H1 & H2).
    apply chained_le_true in Hs as (lo' & hi' & Hlo' & Hhi' & H3 & H4).
    rewrite Hlo in Hlo'. rewrite Hhi in Hhi'.
    injection Hlo' as <-. injection Hhi' as <-.
    exists lo, hi. auto 10.
  - intros lo hi bs data' Hlo Hhi -> Hlen.
    unfold struct_unpack_d. rewrite Hlen, Nat.eqb_refl. cbn [res_bind].
    rewrite (chained_le_configured (fun x => x) self _ lo hi Hlo Hhi).
    destruct (le lo (from_bytes_be bs) && le (from_bytes_be bs) hi);
      cbn [res_bind assume andb]; [|reflexivity].
    rewrite (chained_le_configured sign self _ lo hi Hlo Hhi).
    cbn [res_bind].
    destruct (le (sign lo) (sign (from_bytes_be bs))
              && le (sign (from_bytes_be bs)) (sign hi)); reflexivity.
Qed.

Lemma ExponentialFloatStrategy_draw_within_bounds_witness :
  (exists lo hi,
     lower_bound unit_interval = Some lo /\ upper_bound unit_interval = Some hi
     /\ le lo 0x3FE0000000000000 = true /\ le 0x3FE0000000000000 hi = true
     /\ le (sign lo) (sign 0x3FE0000000000000) = true
     /\ le (sign 0x3FE0000000000000) (sign hi) = true)
  /\ ExponentialFloatStrategy_do_draw unit_interval
       (for_buffer 0 (struct_pack_d 0x4000000000000000))
     = Some (Exc UnsatisfiedAssumption).
Proof.
  split.
  - apply (proj1 (ExponentialFloatStrategy_draw_within_bounds unit_interval
                    (for_buffer 0 (struct_pack_d 0x3FE0000000000000)))
             0x3FE0000000000000 (Replay 0 [])).
    vm_compute. reflexivity.
  - apply (proj2 (ExponentialFloatStrategy_draw_within_bounds unit_interval
                    (for_buffer 0 (struct_pack_d 0x4000000000000000)))
             zero one (struct_pack_d 0x4000000000000000) (Replay 0 []));
      vm_compute; reflexivity.
Defined.

(** The filter at work: 0.5 is returned, and 2.0, -0.0 and a NaN are not;
    the sampling function itself stays within the bounds. *)
Example ExponentialFloatStrategy_draws :
  ExponentialFloatStrategy_do_draw unit_interval
    (for_buffer 0 (struct_pack_d 0x3FE0000000000000))
  = Some (Val (0x3FE0000000000000, Replay 0 []))
  /\ ExponentialFloatStrategy_do_draw unit_interval
       (for_buffer 0 (struct_pack_d neg_zero))
     = Some (Exc UnsatisfiedAssumption)
  /\ ExponentialFloatStrategy_do_draw unit_interval
       (for_buffer 0 (struct_pack_d nan))
     = Some (Exc UnsatisfiedAssumption)
  /\ ExponentialFloatStrategy_do_draw unit_interval
       (Generate 0 (constant_random 0x18000000000000))
     = Some (Val (0x3FE8000000000000,
                  Generate 0 {| rnd_src := fun _ => 0x18000000000000%N;
                                rnd_pos := 2 |}))
  /\ ExponentialFloatStrategy_do_draw
       {| exp_floats := {| allow_infinity := false; allow_nan := false |};
          lower_bound := None; upper_bound := None |}
       (for_buffer 0 (struct_pack_d zero))
     = Some (Exc (AttributeError "lower_bound")).
Proof. vm_compute. repeat split. Qed.

End NumbersFacts.
(** ** The numeric strategies, further *)

Module MoreNumbersFacts.
Import Float64 Numbers MoreNumbers Fixtures.

(** *** Bytes and integers *)

Lemma to_bytes_be_length n z : length (to_bytes_be n z) = n.
Proof. induction n as [|k IH]; simpl; [reflexivity|]. now rewrite IH. Qed.

Lemma fold_bytes_acc (l : Buffer) : forall acc,
  fold_left (fun acc b => acc * 256 + Z.of_N (Byte.to_N b)) l acc
  = acc * 256 ^ Z.of_nat (length l) + from_bytes_be l.
Proof.
  unfold from_bytes_be.
  induction l as [|b l IH]; intros acc.
  - simpl. lia.
  - cbn [fold_left length]. rewrite IH, (IH (0 * 256 + _)).
    rewrite Nat2Z.inj_succ, Z.pow_succ_r by lia. ring.
Qed.

Lemma from_bytes_be_cons b (l : Buffer) :
  from_bytes_be (b :: l)
  = Z.of_N (Byte.to_N b) * 256 ^ Z.of_nat (length l) + from_bytes_be l.
Proof.
  unfold from_bytes_be at 1. cbn [fold_left]. rewrite fold_bytes_acc. ring.
Qed.

Lemma byte_value_bound b : 0 <= Z.of_N (Byte.to_N b) < 256.
Proof. pose proof (Byte.to_N_bounded b). lia. Qed.

Lemma from_bytes_be_bound (l : Buffer) :
  0 <= from_bytes_be l < 256 ^ Z.of_nat (length l).
Proof.
  induction l as [|b l IH].
  - cbn. lia.
  - rewrite from_bytes_be_cons. cbn [length].
    rewrite Nat2Z.inj_succ, Z.pow_succ_r by lia.
    pose proof (byte_value_bound b). nia.
Qed.

(** The value of the byte that [to_bytes_be] writes at a position. *)
Lemma byte_of_value x :
  0 <= x < 256 ->
  Z.of_N (Byte.to_N (default x00 (Byte.of_N (Z.to_N x)))) = x.
Proof.
  intros Hx. destruct (Byte.of_N (Z.to_N x)) as [b|] eqn:E.
  - apply Byte.to_of_N in E. change (default x00 (Some b)) with b.
    rewrite E. lia.
  - apply Byte.of_N_None_iff in E. lia.
Qed.

Lemma pow_256 n : 256 ^ Z.of_nat n = 2 ^ (8 * Z.of_nat n).
Proof. change 256 with (2 ^ 8). rewrite <- Z.pow_mul_r by lia. reflexivity. Qed.

(** Writing an integer on [n] bytes and reading the bytes back gives the
    integer modulo [2 ^ (8 n)]: itself when it fits, its two's complement
    when it is negative. *)
Lemma from_to_bytes_be n z :
  from_bytes_be (to_bytes_be n z) = z mod 2 ^ (8 * Z.of_nat n).
Proof.
  induction n as [|k IH].
  - cbn. now rewrite Z.mod_1_r.
  - cbn [to_bytes_be]. rewrite from_bytes_be_cons, to_bytes_be_length, IH.
    change 0xFF with (Z.ones 8).
    rewrite Z.land_ones, Z.shiftr_div_pow2 by lia.
    rewrite byte_of_value by (apply Z.mod_pos_bound; lia).
    replace (8 * Z.of_nat (S k)) with (8 * Z.of_nat k + 8) by lia.
    rewrite Z.pow_add_r by lia.
    rewrite (Z.rem_mul_r z (2 ^ (8 * Z.of_nat k)) (2 ^ 8)) by lia.
    rewrite pow_256. ring.
Qed.

(** [struct.unpack] undoes [struct.pack] on every 64-bit pattern. *)
Lemma struct_unpack_pack f :
  0 <= f < 2 ^ 64 -> struct_unpack_d (struct_pack_d f) = Val f.
Proof.
  intros Hf. unfold struct_unpack_d, struct_pack_d.
  rewrite to_bytes_be_length, from_to_bytes_be. cbn [Nat.eqb].
  change (8 * Z.of_nat 8) with 64. now rewrite Z.mod_small.
Qed.

Lemma struct_unpack_range bs f :
  struct_unpack_d bs = Val f -> 0 <= f < 2 ^ 64.
Proof.
  unfold struct_unpack_d. destruct (length bs =? 8)%nat eqn:E; [|discriminate].
  intros [= <-]. apply Nat.eqb_eq in E.
  pose proof (from_bytes_be_bound bs) as Hb. rewrite E in Hb.
  change (256 ^ Z.of_nat 8) with (2 ^ 64) in Hb. exact Hb.
Qed.

Lemma random_bytes_length n : forall r, length (fst (random_bytes n r)) = n.
Proof.
  induction n as [|k IH]; intros r; cbn [random_bytes]; [reflexivity|].
  destruct (randint 0 255 r) as [b r1].
  specialize (IH r1). destruct (random_bytes k r1) as [bs r2].
  cbn [fst length] in *. now rewrite IH.
Qed.

(** *** compose_float *)

Lemma testbit_small x n i :
  0 <= x < 2 ^ n -> n <= i -> Z.testbit x i = false.
Proof.
  intros [H0 Hn] Hi.
  destruct (Z.eq_dec x 0) as [->|Hx]; [apply Z.bits_0|].
  apply Z.bits_above_log2; [lia|].
  destruct (Z.le_gt_cases 0 n) as [Hn0|Hn0].
  - assert (Z.log2 x < n) by (apply Z.log2_lt_pow2; lia). lia.
  - rewrite Z.pow_neg_r in Hn by lia. lia.
Qed.

Lemma as_long_bits sign exponent fraction i :
  0 <= sign < 2 -> 0 <= exponent < 2 ^ 11 -> 0 <= fraction < 2 ^ 52 ->
  0 <= i ->
  Z.testbit (Z.lor (Z.lor (Z.shiftl sign 63) (Z.shiftl exponent 52)) fraction) i
  = if i <? 52 then Z.testbit fraction i
    else if i <? 63 then Z.testbit exponent (i - 52)
    else Z.testbit sign (i - 63).
Proof.
  intros Hs He Hf Hi.
  rewrite !Z.lor_spec, !Z.shiftl_spec by lia.
  destruct (i <? 52) eqn:E1; [apply Z.ltb_lt in E1 | apply Z.ltb_ge in E1].
  - rewrite (Z.testbit_neg_r sign), (Z.testbit_neg_r exponent) by lia.
    reflexivity.
  - rewrite (testbit_small fraction 52 i) by lia.
    destruct (i <? 63) eqn:E2; [apply Z.ltb_lt in E2 | apply Z.ltb_ge in E2].
    + rewrite (Z.testbit_neg_r sign) by lia. now rewrite orb_false_r.
    + rewrite (testbit_small exponent 11 (i - 52)) by lia.
      now rewrite !orb_false_r.
Qed.

Lemma as_long_range sign exponent fraction :
  0 <= sign < 2 -> 0 <= exponent < 2 ^ 11 -> 0 <= fraction < 2 ^ 52 ->
  0 <= Z.lor (Z.lor (Z.shiftl sign 63) (Z.shiftl exponent 52)) fraction < 2 ^ 64.
Proof.
  intros Hs He Hf.
  set (x := Z.lor _ _).
  assert (H0 : 0 <= x).
  { subst x. rewrite !Z.lor_nonneg, !Z.shiftl_nonneg. lia. }
  split; [exact H0|].
  destruct (Z.eq_dec x 0) as [->|Hx]; [lia|].
  apply Z.log2_lt_pow2; [lia|].
  destruct (Z.lt_ge_cases (Z.log2 x) 64) as [|Hge]; [assumption|exfalso].
  assert (Hb : Z.testbit x (Z.log2 x) = true) by (apply Z.bit_log2; lia).
  subst x. rewrite as_long_bits in Hb by lia.
  destruct (_ <? 52) eqn:E1; [apply Z.ltb_lt in E1; lia|].
  destruct (_ <? 63) eqn:E2; [apply Z.ltb_lt in E2; lia|].
  rewrite (testbit_small sign 1) in Hb by lia. discriminate.
Qed.

(** X1.  [compose_float] puts a float together from its three fields:
    for a sign of 0 or 1, an exponent below 2048 and a fraction below
    [2 ** 52] it returns (it does not raise) the float whose sign bit,
    exponent field and fraction field are the ones given. *)
Theorem compose_float_fields (sign exponent fraction : Z) :
  0 <= sign < 2 -> 0 <= exponent < 2048 -> 0 <= fraction < 2 ^ 52 ->
  exists f,
    compose_float sign exponent fraction = Val f
    /\ sign_bit f = (sign =? 1)
    /\ exponent_field f = exponent
    /\ fraction_field f = fraction.
Proof.
  intros Hs He Hf. change 2048 with (2 ^ 11) in He.
  pose proof (as_long_range sign exponent fraction Hs He Hf) as Hr.
  assert (Hbit : forall i, 0 <= i ->
    Z.testbit (Z.lor (Z.lor (Z.shiftl sign 63) (Z.shiftl exponent 52)) fraction) i
    = if i <? 52 then Z.testbit fraction i
      else if i <? 63 then Z.testbit exponent (i - 52)
      else Z.testbit sign (i - 63)).
  { intros i Hi. now apply as_long_bits. }
  unfold compose_float.
  set (x := Z.lor _ _) in *.
  replace ((0 <=? x) && (x <? 2 ^ 64)) with true
    by (symmetry; apply andb_true_iff; split; [apply Z.leb_le | apply Z.ltb_lt]; lia).
  exists x. split; [now apply struct_unpack_pack|].
  repeat split.
  - unfold sign_bit. rewrite Hbit by lia.
    assert (sign = 0 \/ sign = 1) as [-> | ->] by lia; reflexivity.
  - unfold exponent_field. apply Z.bits_inj'. intros i Hi.
    change 0x7FF with (Z.ones 11).
    rewrite Z.land_spec, Z.shiftr_spec, Hbit by lia.
    destruct (Z.lt_ge_cases i 11) as [Hlt|Hge].
    + rewrite Z.ones_spec_low by lia.
      replace (i + 52 <? 52) with false by (symmetry; apply Z.ltb_ge; lia).
      replace (i + 52 <? 63) with true by (symmetry; apply Z.ltb_lt; lia).
      rewrite andb_true_r. f_equal. lia.
    + rewrite Z.ones_spec_high by lia. rewrite andb_false_r.
      symmetry. apply (testbit_small exponent 11); lia.
  - unfold fraction_field. apply Z.bits_inj'. intros i Hi.
    change 0xFFFFFFFFFFFFF with (Z.ones 52).
    rewrite Z.land_spec, Hbit by lia.
    destruct (Z.lt_ge_cases i 52) as [Hlt|Hge].
    + rewrite Z.ones_spec_low by lia.
      replace (i <? 52) with true by (symmetry; apply Z.ltb_lt; lia).
      now rewrite andb_true_r.
    + rewrite Z.ones_spec_high by lia. rewrite andb_false_r.
      symmetry. apply (testbit_small fraction 52); lia.
Qed.

Lemma compose_float_fields_witness :
  exists f,
    compose_float 1 1023 0 = Val f
    /\ sign_bit f = true
    /\ exponent_field f = 1023
    /\ fraction_field f = 0.
Proof. apply (compose_float_fields 1 1023 0); lia. Defined.

(** X2.  [compose_float] does not return for a negative argument:
    packing the negative integer they make raises [struct.error]. *)
Theorem compose_float_negative_raises (sign exponent fraction : Z) :
  sign < 0 \/ exponent < 0 \/ fraction < 0 ->
  compose_float sign exponent fraction = Exc StructError.
Proof.
  intros Hneg. unfold compose_float.
  set (x := Z.lor _ _).
  assert (Hx : x < 0).
  { subst x. rewrite !Z.lor_neg, !Z.shiftl_neg. tauto. }
  replace (0 <=? x) with false by (symmetry; apply Z.leb_gt; lia).
  reflexivity.
Qed.

Lemma compose_float_negative_raises_witness :
  compose_float 0 (-1) 0 = Exc StructError.
Proof. apply compose_float_negative_raises. right. left. lia. Defined.

(** *** WrapperFloatStrategy *)

(** Every entry of the catalog is a number that converts to a float. *)
Lemma NASTY_FLOATS_convert f :
  In f NASTY_FLOATS -> exists x, py_float f = Val x /\ 0 <= x < 2 ^ 64.
Proof.
  assert (Hall : forallb (fun f =>
            match py_float f with
            | Val x => (0 <=? x) && (x <? 2 ^ 64)
            | Exc _ => false
            end) NASTY_FLOATS = true) by (vm_compute; reflexivity).
  rewrite forallb_forall in Hall. intros Hin. specialize (Hall f Hin).
  destruct (py_float f) as [x|]; [|discriminate].
  apply andb_true_iff in Hall as [H0 H1].
  apply Z.leb_le in H0. apply Z.ltb_lt in H1. eauto.
Qed.

Lemma choice_in {A} (seq : list A) d r :
  seq <> [] -> In (fst (choice seq d r)) seq.
Proof.
  intros Hne. unfold choice. destruct (rnd_next r) as [x r'].
  apply nth_In. apply Nat.mod_upper_bound.
  destruct seq; [congruence | discriminate].
Qed.

Lemma permitted_of_float self f x :
  py_float f = Val x ->
  permitted self f
  = Val (negb (negb (allow_infinity (wrapper_floats self)) && isinf x)
         && negb (negb (allow_nan (wrapper_floats self)) && isnan x)).
Proof.
  intros Hx. unfold permitted. rewrite Hx.
  destruct (allow_infinity _), (allow_nan _); cbn [negb res_bind andb];
    destruct (isinf x), (isnan x); reflexivity.
Qed.

Lemma pack_number_of_float f x :
  py_float f = Val x -> pack_number f = Val (struct_pack_d x).
Proof.
  intros Hx. unfold pack_number.
  destruct f; try (rewrite Hx; reflexivity); discriminate.
Qed.

(** X3.  The sampling function of [WrapperFloatStrategy.do_draw]
    returns exactly as follows.  It goes round its loop as long as the
    generator picks the catalog and an entry of it that [permitted]
    refuses.  In the iteration after that, with the generator as these
    rounds left it: when [randint(1, 10)] answers more than 4, it returns
    the next eight random bytes of the generator; when it answers at most
    4, it returns the packing of the entry of [NASTY_FLOATS] that the
    generator chooses, which [permitted] accepts.  So the catalog branch
    never hands out an infinity when [allow_infinity] is false, nor a NaN
    when [allow_nan] is false; and the random bytes are not filtered. *)
Theorem draw_float_bytes_origin
    (self : WrapperFloatStrategy) (fuel : nat) (random : Random)
    (bs : Buffer) (random' : Random) :
  draw_float_bytes self fuel random 8%nat = Some (Val (bs, random'))
  <-> exists n r,
        (n < fuel)%nat
        /\ after_rejections self n random = Some r
        /\ let i := fst (randint 1 10 r) in
           let r1 := snd (randint 1 10 r) in
           if i <=? 4 then
             let f := fst (choice NASTY_FLOATS PyNone r1) in
             In f NASTY_FLOATS
             /\ permitted self f = Val true
             /\ random' = snd (choice NASTY_FLOATS PyNone r1)
             /\ exists x,
                  py_float f = Val x /\ bs = struct_pack_d x
                  /\ (allow_infinity (wrapper_floats self) = false ->
                      isinf x = false)
                  /\ (allow_nan (wrapper_floats self) = false ->
                      isnan x = false)
           else (bs, random') = random_bytes 8 r1.
Proof.
  unfold draw_float_bytes. cbn [Nat.eqb py_assert]. split.
  - revert random. induction fuel as [|fuel IH]; intros random; [discriminate|].
    cbn [draw_float_bytes_loop].
    destruct (randint 1 10 random) as [i r1] eqn:Ei.
    destruct (i <=? 4) eqn:E4.
    + pose proof (choice_in NASTY_FLOATS PyNone r1) as Hin.
      destruct (choice NASTY_FLOATS PyNone r1) as [f r2] eqn:Ec.
      cbn [fst] in Hin. specialize (Hin ltac:(discriminate)).
      destruct (NASTY_FLOATS_convert f Hin) as (x & Hx & _).
      pose proof (permitted_of_float self f x Hx) as Hp.
      destruct (permitted self f) as [[|]|e] eqn:Ep; [| |discriminate].
      * rewrite (pack_number_of_float f x Hx). cbn [res_bind].
        intros [= <- <-]. exists 0%nat, random.
        split; [lia|]. split; [reflexivity|].
        rewrite Ei. cbn [fst snd]. rewrite E4, Ec. cbn [fst snd].
        split; [exact Hin|]. split; [exact Ep|]. split; [reflexivity|].
        exists x. injection Hp as Hp. symmetry in Hp.
        apply andb_true_iff in Hp as [Hi Hn].
        repeat split; auto.
        -- intros Ha. rewrite Ha in Hi. cbn in Hi. now destruct (isinf x).
        -- intros Ha. rewrite Ha in Hn. cbn in Hn. now destruct (isnan x).
      * intros Hloop. destruct (IH r2 Hloop) as (n & r & Hn & Hr & Hret).
        exists (S n), r. split; [lia|]. split; [|exact Hret].
        cbn [after_rejections]. unfold rejected_iteration.
        rewrite Ei, E4, Ec, Ep. exact Hr.
    + destruct (random_bytes 8 r1) as [bs' r'] eqn:Er.
      intros [= <- <-]. exists 0%nat, random.
      split; [lia|]. split; [reflexivity|].
      rewrite Ei. cbn [fst snd]. rewrite E4. now rewrite Er.
  - intros (n & r & Hn & Hr & Hret). revert fuel random Hn Hr.
    induction n as [|n IH]; intros fuel random Hn Hr;
      (destruct fuel as [|fuel]; [lia|]); cbn [draw_float_bytes_loop].
    + injection Hr as ->. revert Hret.
      destruct (randint 1 10 r) as [i r1]. cbn [fst snd].
      destruct (i <=? 4).
      * destruct (choice NASTY_FLOATS PyNone r1) as [f r2]. cbn [fst snd].
        intros (_ & -> & -> & x & Hx & -> & _).
        now rewrite (pack_number_of_float f x Hx).
      * now intros <-.
    + revert Hr. cbn [after_rejections]. unfold rejected_iteration.
      destruct (randint 1 10 random) as [i r1].
      destruct (i <=? 4); [|discriminate].
      destruct (choice NASTY_FLOATS PyNone r1) as [f r2].
      destruct (permitted self f) as [[|]|e]; try discriminate.
      intros Hr. apply IH; [lia|exact Hr].
Qed.

Lemma draw_float_bytes_origin_witness :
  exists n r,
    (n < 2)%nat
    /\ after_rejections finite_only n
         {| rnd_src := fun k => match k with 1%nat => 14%N | _ => 0%N end;
            rnd_pos := 0 |} = Some r
    /\ let i := fst (randint 1 10 r) in
       let r1 := snd (randint 1 10 r) in
       if i <=? 4 then
         let f := fst (choice NASTY_FLOATS PyNone r1) in
         In f NASTY_FLOATS
         /\ permitted finite_only f = Val true
         /\ {| rnd_src := fun k => match k with 1%nat => 14%N | _ => 0%N end;
               rnd_pos := 4 |}
            = snd (choice NASTY_FLOATS PyNone r1)
         /\ exists x,
              py_float f = Val x /\ struct_pack_d 0 = struct_pack_d x
              /\ (allow_infinity (wrapper_floats finite_only) = false ->
                  isinf x = false)
              /\ (allow_nan (wrapper_floats finite_only) = false ->
                  isnan x = false)
       else (struct_pack_d 0,
             {| rnd_src := fun k => match k with 1%nat => 14%N | _ => 0%N end;
                rnd_pos := 4 |})
            = random_bytes 8 r1.
Proof.
  apply (proj1 (draw_float_bytes_origin finite_only 2
                  {| rnd_src := fun k => match k with 1%nat => 14%N | _ => 0%N end;
                     rnd_pos := 0 |}
                  (struct_pack_d 0)
                  {| rnd_src := fun k => match k with 1%nat => 14%N | _ => 0%N end;
                     rnd_pos := 4 |})).
  vm_compute. reflexivity.
Defined.

Lemma draw_float_bytes_returns self fuel : forall random outcome,
  draw_float_bytes_loop self fuel random = Some outcome ->
  exists bs random', outcome = Val (bs, random') /\ length bs = 8%nat.
Proof.
  induction fuel as [|fuel IH]; intros random outcome; [discriminate|].
  cbn [draw_float_bytes_loop].
  destruct (randint 1 10 random) as [i r1].
  destruct (i <=? 4).
  - pose proof (choice_in NASTY_FLOATS PyNone r1) as Hin.
    destruct (choice NASTY_FLOATS PyNone r1) as [f r2]. cbn [fst] in Hin.
    specialize (Hin ltac:(discriminate)).
    destruct (NASTY_FLOATS_convert f Hin) as (x & Hx & _).
    rewrite (permitted_of_float self f x Hx).
    destruct (negb _ && negb _); [|apply IH].
    rewrite (pack_number_of_float f x Hx). cbn [res_bind].
    intros [= <-]. eexists _, _. split; [reflexivity|].
    apply to_bytes_be_length.
  - intros [= <-]. pose proof (random_bytes_length 8 r1) as Hl.
    destruct (random_bytes 8 r1) as [bs r2]. eauto.
Qed.

(** X4.  A draw of a [WrapperFloatStrategy] that ends either returns a
    64-bit float, or stops the test because the byte source replays a
    buffer with fewer than eight bytes left: the sampling function never
    raises, and it always hands out eight bytes. *)
Theorem WrapperFloatStrategy_do_draw_outcomes
    (self : WrapperFloatStrategy) (fuel : nat) (data : ByteSource)
    (outcome : res (Z * ByteSource)) :
  WrapperFloatStrategy_do_draw self fuel data = Some outcome ->
  match outcome with
  | Val (f, _) => 0 <= f < 2 ^ 64
  | Exc e =>
      exists id rest,
        data = Replay id rest /\ (length rest < 8)%nat /\ e = StopTest id
  end.
Proof.
  unfold WrapperFloatStrategy_do_draw, draw_bytes.
  destruct data as [id rest|id rnd].
  - destruct (8 <=? length rest)%nat eqn:E.
    + apply Nat.leb_le in E.
      assert (Hl : length (take 8 rest) = 8%nat)
        by (rewrite length_take; lia).
      destruct (struct_unpack_d (take 8 rest)) as [f|e] eqn:Eu.
      * cbn [res_bind]. intros [= <-]. eapply struct_unpack_range; eauto.
      * unfold struct_unpack_d in Eu. rewrite Hl in Eu. discriminate.
    + apply Nat.leb_gt in E. intros [= <-]. eauto.
  - unfold draw_float_bytes. cbn [Nat.eqb py_assert].
    destruct (draw_float_bytes_loop self fuel rnd) as [r|] eqn:El; [|discriminate].
    apply draw_float_bytes_returns in El as (bs & rnd' & -> & Hl).
    destruct (struct_unpack_d bs) as [f|e] eqn:Eu.
    + cbn [res_bind]. intros [= <-]. eapply struct_unpack_range; eauto.
    + unfold struct_unpack_d in Eu. rewrite Hl in Eu. discriminate.
Qed.

Lemma WrapperFloatStrategy_do_draw_outcomes_witness :
  exists id rest,
    for_buffer 0 [x01; x02] = Replay id rest
    /\ (length rest < 8)%nat /\ StopTest 0 = StopTest id.
Proof.
  apply (WrapperFloatStrategy_do_draw_outcomes finite_only 1
           (for_buffer 0 [x01; x02]) (Exc (StopTest 0))).
  reflexivity.
Defined.

(** X5.  With [allow_infinity] and [allow_nan] both true nothing is
    re-sampled: the sampling loop returns at its first iteration, whatever
    the generator answers, and so does a draw from a generating byte
    source. *)
Theorem WrapperFloatStrategy_no_resampling
    (self : WrapperFloatStrategy) (id : nat) (random : Random) :
  allow_infinity (wrapper_floats self) = true ->
  allow_nan (wrapper_floats self) = true ->
  (exists bs random',
     draw_float_bytes self 1 random 8%nat = Some (Val (bs, random')))
  /\ (exists f data',
        WrapperFloatStrategy_do_draw self 1 (Generate id random)
        = Some (Val (f, data'))).
Proof.
  intros Hi Hn.
  assert (Hloop : exists bs random',
            draw_float_bytes self 1 random 8%nat = Some (Val (bs, random'))
            /\ length bs = 8%nat).
  { unfold draw_float_bytes. cbn [Nat.eqb py_assert draw_float_bytes_loop].
    destruct (randint 1 10 random) as [i r1].
    destruct (i <=? 4).
    - pose proof (choice_in NASTY_FLOATS PyNone r1) as Hin.
      destruct (choice NASTY_FLOATS PyNone r1) as [f r2]. cbn [fst] in Hin.
      specialize (Hin ltac:(discriminate)).
      destruct (NASTY_FLOATS_convert f Hin) as (x & Hx & _).
      rewrite (permitted_of_float self f x Hx), Hi, Hn. cbn [negb andb].
      rewrite (pack_number_of_float f x Hx). cbn [res_bind].
      eexists _, _. split; [reflexivity | apply to_bytes_be_length].
    - pose proof (random_bytes_length 8 r1) as Hl.
      destruct (random_bytes 8 r1) as [bs r2]. eauto. }
  destruct Hloop as (bs & random' & Hd & Hl). split; [eauto|].
  unfold WrapperFloatStrategy_do_draw, draw_bytes. rewrite Hd.
  unfold struct_unpack_d. rewrite Hl. cbn [Nat.eqb res_bind]. eauto.
Qed.

Lemma WrapperFloatStrategy_no_resampling_witness :
  (exists bs random',
     draw_float_bytes
       {| wrapper_floats := {| allow_infinity := true; allow_nan := true |};
          sub_strategy := PyNone |} 1 (constant_random 0) 8%nat
     = Some (Val (bs, random')))
  /\ (exists f data',
        WrapperFloatStrategy_do_draw
          {| wrapper_floats := {| allow_infinity := true; allow_nan := true |};
             sub_strategy := PyNone |} 1 (Generate 0 (constant_random 0))
        = Some (Val (f, data'))).
Proof.
  apply (WrapperFloatStrategy_no_resampling
           {| wrapper_floats := {| allow_infinity := true; allow_nan := true |};
              sub_strategy := PyNone |} 0 (constant_random 0));
    reflexivity.
Defined.

(** X6.  Replaying the eight bytes that [struct.pack] writes for a float
    draws that float, whichever it is and whatever the flags of the
    strategy are, and leaves the rest of the buffer to the next draw. *)
Theorem WrapperFloatStrategy_replays_packed_float
    (self : WrapperFloatStrategy) (fuel id : nat) (f : Z) (rest : Buffer) :
  0 <= f < 2 ^ 64 ->
  WrapperFloatStrategy_do_draw self fuel
    (Replay id (struct_pack_d f ++ rest)%list)
  = Some (Val (f, Replay id rest)).
Proof.
  intros Hf. unfold WrapperFloatStrategy_do_draw, draw_bytes.
  assert (Hl : length (struct_pack_d f) = 8%nat) by apply to_bytes_be_length.
  replace (8 <=? length (struct_pack_d f ++ rest)%list)%nat with true
    by (symmetry; apply Nat.leb_le; rewrite length_app; lia).
  rewrite (take_app_length' _ _ 8), (drop_app_length' _ _ 8) by now rewrite Hl.
  now rewrite struct_unpack_pack.
Qed.

Lemma WrapperFloatStrategy_replays_packed_float_witness :
  WrapperFloatStrategy_do_draw finite_only 0
    (Replay 0 (struct_pack_d nan ++ [x2a])%list)
  = Some (Val (nan, Replay 0 [x2a])).
Proof.
  apply (WrapperFloatStrategy_replays_packed_float finite_only 0 0 nan [x2a]).
  unfold nan. lia.
Defined.

(** *** ExponentialFloatStrategy *)

Lemma isnan_decode f : isnan f = true -> decode f = S754_nan.
Proof.
  unfold isnan, decode. intros Hn. apply andb_true_iff in Hn as [He Hm].
  apply Z.eqb_eq in He. rewrite He. cbn [Z.eqb].
  destruct (fraction_field f =? 0); [discriminate | reflexivity].
Qed.

Lemma le_nan_r x f : isnan f = true -> le x f = false.
Proof.
  intros Hn. unfold le. rewrite (isnan_decode f Hn).
  unfold SFleb, SFcompare. now destruct (decode x).
Qed.

Lemma ExponentialFloatStrategy_draw_checked self data f data' :
  ExponentialFloatStrategy_do_draw self data = Some (Val (f, data')) ->
  chained_le (fun x => x) self f = Val true
  /\ chained_le sign self f = Val true.
Proof.
  unfold ExponentialFloatStrategy_do_draw.
  destruct (draw_bytes data 8 _) as [[[bs d]|e]|]; try discriminate.
  destruct (struct_unpack_d bs) as [x|e]; cbn [res_bind assume]; [|discriminate].
  destruct (chained_le (fun x => x) self x) as [[|]|e] eqn:Hb; cbn [res_bind assume];
    try discriminate.
  destruct (chained_le sign self x) as [[|]|e] eqn:Hs; cbn [res_bind assume];
    try discriminate.
  intros [= <- <-]. auto.
Qed.

(** X7.  A draw of the exponential strategy never returns a NaN: a NaN
    fails the comparison with the lower bound, whatever the bounds are. *)
Theorem ExponentialFloatStrategy_never_draws_nan
    (self : ExponentialFloatStrategy) (data : ByteSource)
    (f : Z) (data' : ByteSource) :
  ExponentialFloatStrategy_do_draw self data = Some (Val (f, data')) ->
  isnan f = false.
Proof.
  intros Hd. apply ExponentialFloatStrategy_draw_checked in Hd as [Hb _].
  apply NumbersFacts.chained_le_true in Hb as (lo & hi & _ & _ & Hlo & _).
  destruct (isnan f) eqn:En; [|reflexivity].
  rewrite (le_nan_r lo f En) in Hlo. discriminate.
Qed.

Lemma ExponentialFloatStrategy_never_draws_nan_witness :
  isnan 0x3FE0000000000000 = false.
Proof.
  apply (ExponentialFloatStrategy_never_draws_nan unit_interval
           (for_buffer 0 (struct_pack_d 0x3FE0000000000000))
           0x3FE0000000000000 (Replay 0 [])).
  vm_compute. reflexivity.
Defined.

Lemma sign_le_sign a b :
  le (sign a) (sign b) = true -> sign_bit b = true -> sign_bit a = true.
Proof.
  unfold sign. intros Hle Hb. rewrite Hb in Hle.
  destruct (sign_bit a); [reflexivity|].
  vm_compute in Hle. discriminate.
Qed.

(** X8.  The value a draw of the exponential strategy returns has the
    sign bit of the bounds where they agree: with a lower bound whose
    sign bit is clear (such as [0.0]) the value is never [-0.0] nor any
    other negative float, and with an upper bound whose sign bit is set
    the value has its sign bit set. *)
Theorem ExponentialFloatStrategy_draw_sign
    (self : ExponentialFloatStrategy) (data : ByteSource)
    (f : Z) (data' : ByteSource) :
  ExponentialFloatStrategy_do_draw self data = Some (Val (f, data')) ->
  exists lo hi,
    lower_bound self = Some lo /\ upper_bound self = Some hi
    /\ (sign_bit lo = false -> sign_bit f = false)
    /\ (sign_bit hi = true -> sign_bit f = true).
Proof.
  intros Hd. apply ExponentialFloatStrategy_draw_checked in Hd as [_ Hs].
  apply NumbersFacts.chained_le_true in Hs as (lo & hi & Hlo & Hhi & H1 & H2).
  exists lo, hi. repeat split; auto.
  - intros Hl. destruct (sign_bit f) eqn:Ef; [|reflexivity].
    rewrite (sign_le_sign lo f H1 Ef) in Hl. discriminate.
  - intros Hh. now apply (sign_le_sign f hi).
Qed.

Lemma ExponentialFloatStrategy_draw_sign_witness :
  exists lo hi,
    lower_bound unit_interval = Some lo /\ upper_bound unit_interval = Some hi
    /\ (sign_bit lo = false -> sign_bit 0x3FE0000000000000 = false)
    /\ (sign_bit hi = true -> sign_bit 0x3FE0000000000000 = true).
Proof.
  apply (ExponentialFloatStrategy_draw_sign unit_interval
           (for_buffer 0 (struct_pack_d 0x3FE0000000000000))
           0x3FE0000000000000 (Replay 0 [])).
  vm_compute. reflexivity.
Defined.

(** X9.  An [ExponentialFloatStrategy] as its constructor (the one it
    inherits from [FloatStrategy]) builds it has no bounds, and no draw
    from it ever returns a value: every draw raises [AttributeError] for
    [lower_bound] or [upper_bound], or stops the test on a buffer that is
    too short. *)
Theorem ExponentialFloatStrategy_as_constructed_never_draws
    (args : list PyVal) (kwargs : list (string * PyVal))
    (self : ExponentialFloatStrategy) (data : ByteSource) :
  ExponentialFloatStrategy___init__ args kwargs = Val self ->
  exists e,
    ExponentialFloatStrategy_do_draw self data = Some (Exc e)
    /\ (e = AttributeError "lower_bound" \/ e = AttributeError "upper_bound"
        \/ exists id, e = StopTest id).
Proof.
  unfold ExponentialFloatStrategy___init__.
  destruct (FloatStrategy___init__ args kwargs) as [base|e]; [|discriminate].
  cbn [res_bind]. intros [= <-].
  unfold ExponentialFloatStrategy_do_draw, draw_bytes.
  destruct data as [id rest|id rnd].
  - destruct (8 <=? length rest)%nat eqn:E.
    + apply Nat.leb_le in E.
      unfold struct_unpack_d. rewrite length_take.
      replace (8 `min` length rest)%nat with 8%nat by lia.
      cbn [Nat.eqb res_bind chained_le lower_bound getattr].
      eauto.
    + eauto 6.
  - unfold exponential_distribution.
    cbn [Nat.eqb py_assert res_bind].
    destruct (randint 0 10 rnd) as [i r1].
    destruct (i =? 0); [cbn; eauto|].
    destruct (i =? 1); cbn; eauto.
Qed.

Lemma ExponentialFloatStrategy_as_constructed_never_draws_witness :
  exists e,
    ExponentialFloatStrategy_do_draw
      {| exp_floats := {| allow_infinity := true; allow_nan := false |};
         lower_bound := None; upper_bound := None |}
      (for_buffer 0 (struct_pack_d zero)) = Some (Exc e)
    /\ (e = AttributeError "lower_bound" \/ e = AttributeError "upper_bound"
        \/ exists id, e = StopTest id).
Proof.
  apply (ExponentialFloatStrategy_as_constructed_never_draws
           [PyBool true; PyBool false] []).
  reflexivity.
Defined.

(** *** NastyFloats *)

(** X10.  The elements [NastyFloats] hands to [SampledFromStrategy] hold
    an infinity exactly when [allow_infinity] is true and a NaN exactly
    when [allow_nan] is true; there are six finite elements in every case,
    so the list is never empty.  The first positional parameter is
    [allow_nan]. *)
Theorem NastyFloats_elements (allow_nan allow_infinity : PyVal) :
  exists elements,
    NastyFloats___init__ [allow_nan; allow_infinity] [] = Val elements
    /\ NastyFloats___init__ []
         [("allow_infinity", allow_infinity); ("allow_nan", allow_nan)]
       = Val elements
    /\ existsb isinf elements = truthy allow_infinity
    /\ existsb isnan elements = truthy allow_nan
    /\ length (List.filter isfinite elements) = 6%nat
    /\ length elements
       = (6 + (if truthy allow_infinity then 2 else 0)
            + (if truthy allow_nan then 1 else 0))%nat.
Proof.
  assert (Hpos : NastyFloats___init__ [allow_nan; allow_infinity] []
                 = NastyFloats___init__ []
                     [("allow_infinity", allow_infinity); ("allow_nan", allow_nan)]).
  { reflexivity. }
  rewrite <- Hpos.
  assert (Hrun : NastyFloats___init__ [allow_nan; allow_infinity] []
    = Val (let elements :=
             [zero; neg_zero; float_info_min; neg float_info_min;
              neg float_info_max; float_info_max] in
           let elements :=
             if truthy allow_infinity
             then (elements ++ [inf; neg inf])%list else elements in
           if truthy allow_nan then (elements ++ [nan])%list else elements)).
  { reflexivity. }
  rewrite Hrun. eexists. split; [reflexivity|]. split; [reflexivity|].
  destruct (truthy allow_infinity), (truthy allow_nan);
    vm_compute; repeat split.
Qed.

(** *** WideRangeIntStrategy *)

Lemma randint_range a b r : a <= b -> a <= fst (randint a b r) <= b.
Proof.
  intros Hab. unfold randint. destruct (rnd_next r) as [x r']. cbn [fst].
  pose proof (Z.mod_pos_bound (Z.of_N x) (b - a + 1)). lia.
Qed.

Lemma getrandbits_range k r : 0 <= k -> 0 <= fst (getrandbits k r) < 2 ^ k.
Proof.
  intros Hk. unfold getrandbits. destruct (rnd_next r) as [x r']. cbn [fst].
  apply Z.mod_pos_bound. apply Z.pow_pos_nonneg; lia.
Qed.

(** The integer the sampling function writes out has fewer than 128
    bits. *)
Lemma wide_range_sample_range random :
  - 2 ^ 127 < fst (wide_range_sample random size) < 2 ^ 127.
Proof.
  unfold wide_range_sample. change (Z.of_nat size * 8 - 1) with 127.
  pose proof (randint_range 0 127 random ltac:(lia)) as Ha.
  destruct (randint 0 127 random) as [a r1]. cbn [fst] in Ha.
  pose proof (randint_range 0 127 r1 ltac:(lia)) as Hb.
  destruct (randint 0 127 r1) as [b r2]. cbn [fst] in Hb.
  assert (Hr : 0 <= fst (if Z.min a b >? 0 then getrandbits (Z.min a b) r2 else (0, r2))
               < 2 ^ 127).
  { destruct (Z.min a b >? 0) eqn:Ek.
    - pose proof (getrandbits_range (Z.min a b) r2 ltac:(lia)) as Hg.
      assert (2 ^ Z.min a b <= 2 ^ 127) by (apply Z.pow_le_mono_r; lia). lia.
    - cbn [fst]. lia. }
  destruct (if Z.min a b >? 0 then _ else _) as [r r3]. cbn [fst] in Hr.
  destruct (randint 0 1 r3) as [negate r4]. cbn [fst].
  destruct (negb (negate =? 0)); lia.
Qed.

Lemma wide_range_distribution_writes random :
  wide_range_distribution random size
  = Val (to_bytes_be size (fst (wide_range_sample random size)),
         snd (wide_range_sample random size)).
Proof.
  unfold wide_range_distribution. cbn [size Nat.eqb py_assert res_bind].
  pose proof (wide_range_sample_range random) as Hr. fold size.
  destruct (wide_range_sample random size) as [r random']. cbn [fst snd] in *.
  unfold int_to_bytes_signed. change (2 ^ (8 * Z.of_nat size - 1)) with (2 ^ 127).
  replace ((- 2 ^ 127 <=? r) && (r <? 2 ^ 127)) with true; [reflexivity|].
  symmetry. apply andb_true_iff. split; [apply Z.leb_le | apply Z.ltb_lt]; lia.
Qed.

Lemma sixteen_bytes_bound (bs : Buffer) :
  length bs = size -> 0 <= from_bytes_be bs < 2 ^ 128.
Proof.
  intros Hl. pose proof (from_bytes_be_bound bs) as Hb. rewrite Hl in Hb.
  exact Hb.
Qed.

Lemma uniform_one_byte rnd :
  exists b, fst (random_bytes 1 rnd) = [b].
Proof.
  pose proof (random_bytes_length 1 rnd) as Hl.
  destruct (fst (random_bytes 1 rnd)) as [|b [|c l]]; try discriminate. eauto.
Qed.

(** X11.  A draw of [WideRangeIntStrategy] always ends, and its value has
    a magnitude below [2 ** 128]; the only way it can fail is by stopping
    the test, on a replayed buffer with fewer than 17 bytes left.  The
    sampling function never raises [OverflowError]. *)
Theorem WideRangeIntStrategy_do_draw_outcomes (data : ByteSource) :
  exists outcome,
    WideRangeIntStrategy_do_draw data = Some outcome
    /\ match outcome with
       | Val (v, _) => - 2 ^ 128 < v < 2 ^ 128
       | Exc e =>
           exists id rest,
             data = Replay id rest /\ (length rest < 17)%nat /\ e = StopTest id
       end.
Proof.
  unfold WideRangeIntStrategy_do_draw.
  destruct data as [id rest|id rnd].
  - destruct rest as [|b rest].
    + eexists. split; [reflexivity|]. exists id, []. cbn [length]. split; [reflexivity|].
      split; [lia|reflexivity].
    + cbn [draw_bytes length Nat.leb firstn skipn]. rewrite ?drop_0.
      destruct (size <=? length rest)%nat eqn:E.
      * apply Nat.leb_le in E. eexists. split; [reflexivity|].
        assert (Hl : length (take size rest) = size) by (rewrite length_take; lia).
        pose proof (sixteen_bytes_bound _ Hl).
        destruct (negb _); lia.
      * apply Nat.leb_gt in E. eexists. split; [reflexivity|].
        exists id, (b :: rest). cbn [length]. unfold size in E.
        split; [reflexivity|]. split; [lia|reflexivity].
  - cbn [draw_bytes uniform].
    destruct (uniform_one_byte rnd) as [b Hb].
    destruct (random_bytes 1 rnd) as [first rnd1]. cbn [fst] in Hb. subst first.
    cbn [draw_bytes]. rewrite wide_range_distribution_writes.
    eexists. split; [reflexivity|].
    pose proof (sixteen_bytes_bound _ (to_bytes_be_length size
                  (fst (wide_range_sample rnd1 size)))).
    destruct (negb _); lia.
Qed.

Lemma land_1_odd x : negb (Z.land x 1 =? 0) = Z.odd x.
Proof.
  change 1 with (Z.ones 1). rewrite Z.land_ones by lia.
  change (2 ^ 1) with 2. rewrite Zmod_odd. now destruct (Z.odd x).
Qed.

(** X12.  On a replayed buffer the draw reads seventeen bytes: the lowest
    bit of the first is the sign and the other sixteen are the magnitude,
    most significant byte first.  So every integer of magnitude below
    [2 ** 128] is the value of a buffer, and the rest of the buffer is
    left to the next draw. *)
Theorem WideRangeIntStrategy_replays
    (id : nat) (b : byte) (magnitude : Z) (rest : Buffer) :
  0 <= magnitude < 2 ^ 128 ->
  WideRangeIntStrategy_do_draw
    (Replay id (b :: to_bytes_be 16 magnitude ++ rest)%list)
  = Some (Val (if Z.odd (Z.of_N (Byte.to_N b)) then - magnitude else magnitude,
               Replay id rest)).
Proof.
  intros Hm. unfold WideRangeIntStrategy_do_draw.
  cbn [draw_bytes length Nat.leb firstn skipn]. rewrite ?drop_0.
  assert (Hl : length (to_bytes_be 16 magnitude) = size) by apply to_bytes_be_length.
  replace (size <=? length (to_bytes_be 16 magnitude ++ rest)%list)%nat with true
    by (symmetry; apply Nat.leb_le; rewrite length_app; lia).
  rewrite (take_app_length' _ _ size), (drop_app_length' _ _ size) by now rewrite Hl.
  rewrite from_to_bytes_be, land_1_odd.
  change (2 ^ (8 * Z.of_nat 16)) with (2 ^ 128).
  now rewrite Z.mod_small.
Qed.

Lemma WideRangeIntStrategy_replays_witness :
  WideRangeIntStrategy_do_draw
    (Replay 0 (x03 :: to_bytes_be 16 1000 ++ [x2a])%list)
  = Some (Val (-1000, Replay 0 [x2a])).
Proof. apply (WideRangeIntStrategy_replays 0 x03 1000 [x2a]). lia. Defined.

(** X13.  The sampling function writes its integer [r] in two's
    complement, and the draw reads the sixteen bytes back as an unsigned
    integer: on a generating byte source the magnitude of the value drawn
    is [r mod 2 ** 128], so a negative [r] gives a magnitude above
    [2 ** 127], and the sign of the value comes from the byte drawn
    before, not from [r]. *)
Theorem WideRangeIntStrategy_generates (id : nat) (rnd : Random) :
  let rnd1 := snd (random_bytes 1 rnd) in
  let r := fst (wide_range_sample rnd1 size) in
  exists v,
    WideRangeIntStrategy_do_draw (Generate id rnd)
    = Some (Val (v, Generate id (snd (wide_range_sample rnd1 size))))
    /\ Z.abs v = r mod 2 ^ 128
    /\ (0 <= r -> Z.abs v = r)
    /\ (r < 0 -> Z.abs v = 2 ^ 128 + r /\ 2 ^ 127 < Z.abs v).
Proof.
  intros rnd1 r. subst rnd1 r.
  unfold WideRangeIntStrategy_do_draw. cbn [draw_bytes uniform].
  destruct (uniform_one_byte rnd) as [b Hb].
  destruct (random_bytes 1 rnd) as [first rnd1]. cbn [fst snd] in *. subst first.
  cbn [draw_bytes]. rewrite wide_range_distribution_writes.
  pose proof (wide_range_sample_range rnd1) as Hr.
  set (r := fst (wide_range_sample rnd1 size)) in *.
  rewrite from_to_bytes_be. change (2 ^ (8 * Z.of_nat size)) with (2 ^ 128).
  pose proof (Z.mod_pos_bound r (2 ^ 128) ltac:(lia)) as Hmod.
  eexists. split; [reflexivity|].
  assert (Habs : Z.abs (if negb (Z.land (Z.of_N (Byte.to_N b)) 1 =? 0)
                        then - (r mod 2 ^ 128) else r mod 2 ^ 128)
                 = r mod 2 ^ 128) by (destruct (negb _); lia).
  rewrite Habs. split; [reflexivity|]. split.
  - intros H0. apply Z.mod_small. lia.
  - intros Hneg.
    assert (Hm : r mod 2 ^ 128 = 2 ^ 128 + r).
    { rewrite <- (Z.mod_small (2 ^ 128 + r) (2 ^ 128)) by lia.
      rewrite <- (Z_mod_plus_full r 1 (2 ^ 128)). f_equal. lia. }
    lia.
Qed.

(** *** is_integral *)

Lemma truncation_exact m k :
  0 < k -> (m / k * k =? m) = (m mod k =? 0).
Proof.
  intros Hk. pose proof (Z.div_mod m k ltac:(lia)) as Hd.
  destruct (m mod k =? 0) eqn:E.
  - apply Z.eqb_eq in E. apply Z.eqb_eq. lia.
  - apply Z.eqb_neq in E. apply Z.eqb_neq. lia.
Qed.

(** X14.  [is_integral] never raises on a float: it answers [False] for
    the infinities and for a NaN (where [int] raises), and for a finite
    float it answers [True] exactly when the number the float stands for
    is a whole number. *)
Theorem is_integral_of_float (b : Z) :
  exists answer,
    is_integral (PyFloat b) = Val answer
    /\ (answer = true <->
        exists q n, to_Q b = Some q /\ (q == inject_Z n)%Q)
    /\ (isfinite b = false -> answer = false).
Proof.
  unfold is_integral, py_int, int_eq, to_Q.
  assert (Hfin : isfinite b = false -> decode b = S754_nan
                 \/ exists s, decode b = S754_infinity s).
  { unfold isfinite, decode. intros Hf. apply negb_false_iff in Hf.
    apply Z.eqb_eq in Hf. rewrite Hf. cbn [Z.eqb].
    destruct (fraction_field b =? 0); eauto. }
  destruct (decode b) as [s|s| |s m e] eqn:Ed.
  - exists true. repeat split; auto.
    + exists 0%Q, 0. split; reflexivity.
    + intros Hf. destruct (Hfin Hf) as [|[? ?]]; discriminate.
  - exists false. repeat split; auto; try discriminate.
    intros (q & n & Hq & _). discriminate.
  - exists false. repeat split; auto; try discriminate.
    intros (q & n & Hq & _). discriminate.
  - destruct (0 <=? e) eqn:Ee.
    + exists true. split; [|split].
      * f_equal. apply Z.eqb_eq. destruct s; [|reflexivity].
        change (Z.neg m) with (- Z.pos m). ring.
      * split; [|reflexivity]. intros _.
        eexists _, _. split; [reflexivity|reflexivity].
      * intros Hf. destruct (Hfin Hf) as [|[? ?]]; discriminate.
    + apply Z.leb_gt in Ee.
      assert (Hk : 0 < 2 ^ (- e)) by (apply Z.pow_pos_nonneg; lia).
      exists (Z.pos m mod 2 ^ (- e) =? 0). split; [|split].
      * f_equal. rewrite <- (truncation_exact (Z.pos m) (2 ^ (- e)) Hk).
        destruct s; [|reflexivity].
        change (Z.neg m) with (- Z.pos m).
        destruct (Z.pos m / 2 ^ (- e) * 2 ^ (- e) =? Z.pos m) eqn:E.
        -- apply Z.eqb_eq in E. apply Z.eqb_eq. lia.
        -- apply Z.eqb_neq in E. apply Z.eqb_neq. lia.
      * split.
        -- intros Hm. apply Z.eqb_eq in Hm.
           pose proof (Z.div_mod (Z.pos m) (2 ^ (- e)) ltac:(lia)) as Hd.
           eexists _, ((if s then -1 else 1) * (Z.pos m / 2 ^ (- e))).
           split; [reflexivity|].
           unfold Qeq. cbn [Qnum Qden inject_Z].
           rewrite Z2Pos.id by lia.
           destruct s; [change (Z.neg m) with (- Z.pos m)|]; lia.
        -- intros (q & n & [= <-] & Hq).
           unfold Qeq in Hq. cbn [Qnum Qden inject_Z] in Hq.
           rewrite Z2Pos.id in Hq by lia.
           apply Z.eqb_eq.
           assert (Hdiv : Z.pos m = (if s then - n else n) * 2 ^ (- e)).
           { destruct s; [change (Z.neg m) with (- Z.pos m) in Hq|]; lia. }
           rewrite Hdiv. apply Z.mod_mul. lia.
      * intros Hf. destruct (Hfin Hf) as [|[? ?]]; discriminate.
Qed.

End MoreNumbersFacts.

(** ** The orchestrator *)

Module CoreFacts.
Import Float64 Core Traces Fixtures.

Section Facts.
Context `{World}.

(** *** Composition of state changes *)

Lemma respects_sret R `{!Reflexive R} {A} (a : A) : respects R (sret a).
Proof. intros st a' st' [= _ <-]. reflexivity. Qed.

Lemma respects_sbind R `{!Transitive R} {A B} (m : Run A) (k : A -> Run B) :
  respects R m -> (forall a, respects R (k a)) -> respects R (sbind m k).
Proof.
  intros Hm Hk st b st''. unfold sbind.
  destruct (m st) as [a st'] eqn:E. intros Hb.
  transitivity st'; [eapply Hm | eapply Hk]; eauto.
Qed.

Lemma respects_mbind R `{!Reflexive R} `{!Transitive R} {A B}
    (m : Run (res A)) (k : A -> Run (res B)) :
  respects R m -> (forall a, respects R (k a)) -> respects R (mbind m k).
Proof.
  intros Hm Hk. apply respects_sbind; [assumption | assumption |].
  intros [a|e]; [apply Hk | now apply respects_sret].
Qed.

Lemma respects_weaken (R R' : RunState -> RunState -> Prop) {A} (m : Run A) :
  (forall st st', R st st' -> R' st st') -> respects R m -> respects R' m.
Proof. intros Hsub Hm st a st' E. eauto. Qed.

Lemma sbind_inv {A B} (m : Run A) (k : A -> Run B) st b st'' :
  sbind m k st = (b, st'') ->
  exists a st', m st = (a, st') /\ k a st' = (b, st'').
Proof. unfold sbind. destruct (m st) as [a st']. eauto. Qed.

Lemma sbind_run {A B} (m : Run A) (k : A -> Run B) st a st' :
  m st = (a, st') -> sbind m k st = k a st'.
Proof. unfold sbind. now intros ->. Qed.

(** *** Steps *)

#[local] Instance step_reflexive P kd kw : Reflexive (step P kd kw).
Proof. intros st. split; [exists []; auto | auto | auto]. Qed.

#[local] Instance step_transitive P kd kw : Transitive (step P kd kw).
Proof.
  intros st1 st2 st3 [(e1 & L1 & F1) D1 W1] [(e2 & L2 & F2) D2 W2]. split.
  - exists (e2 ++ e1)%list. rewrite L2, L1, app_assoc. split; [reflexivity|].
    rewrite forallb_app, F1, F2. reflexivity.
  - intros K. rewrite D2, D1; auto.
  - intros K. rewrite W2, W1; auto.
Qed.

Lemma step_weaken (P Q : Event -> bool) kd kw kd' kw' st st' :
  (forall e, P e = true -> Q e = true) ->
  (kd' = true -> kd = true) -> (kw' = true -> kw = true) ->
  step P kd kw st st' -> step Q kd' kw' st st'.
Proof.
  intros HPQ Hd Hw [(evs & L & F) D W]. split; auto.
  exists evs. split; [assumption|].
  rewrite forallb_forall in *. auto.
Qed.

Lemma forallb_rev {A} (P : A -> bool) (l : list A) :
  forallb P (rev l) = forallb P l.
Proof.
  induction l as [|x l IH]; [reflexivity|]. simpl.
  rewrite forallb_app, IH. simpl. rewrite andb_true_r. apply andb_comm.
Qed.

(** A step, read on the traces. *)
Lemma step_trace P kd kw st st' :
  step P kd kw st st' ->
  exists evs, trace st' = (trace st ++ evs)%list /\ forallb P evs = true.
Proof.
  intros [(evs & L & F) _ _]. exists (rev evs). unfold trace.
  rewrite L, rev_app_distr, forallb_rev. auto.
Qed.

Lemma step_emit P kd kw e : P e = true -> respects (step P kd kw) (emit e).
Proof.
  intros HP st a st' [= _ <-]. split; simpl; auto.
  exists [e]. simpl. rewrite HP. auto.
Qed.

Lemma step_get_world P kd kw : respects (step P kd kw) get_world.
Proof. intros st a st' [= _ <-]. reflexivity. Qed.

Lemma step_get_db P kd kw : respects (step P kd kw) get_db.
Proof. intros st a st' [= _ <-]. reflexivity. Qed.

Lemma step_get_warned_random P kd kw : respects (step P kd kw) get_warned_random.
Proof. intros st a st' [= _ <-]. reflexivity. Qed.

Lemma step_get_last_exception P kd kw : respects (step P kd kw) get_last_exception.
Proof. intros st a st' [= _ <-]. reflexivity. Qed.

Lemma step_put_world P kd kw w : respects (step P kd kw) (put_world w).
Proof. intros st a st' [= _ <-]. split; simpl; auto. exists []. auto. Qed.

Lemma step_set_last_exception P kd kw tb rp :
  respects (step P kd kw) (set_last_exception tb rp).
Proof. intros st a st' [= _ <-]. split; simpl; auto. exists []. auto. Qed.

Lemma step_fresh_id P kd kw : respects (step P kd kw) fresh_id.
Proof. intros st a st' [= _ <-]. split; simpl; auto. exists []. auto. Qed.

Lemma step_put_db P kw d : respects (step P false kw) (put_db d).
Proof.
  intros st a st' [= _ <-]. split; simpl; auto; [|discriminate].
  exists []. auto.
Qed.

Lemma step_set_warned_random P kd : respects (step P kd false) set_warned_random.
Proof.
  intros st a st' [= _ <-]. split; simpl; auto; [|discriminate].
  exists []. auto.
Qed.

Create HintDb run discriminated.
#[local] Hint Resolve step_get_world step_get_db step_get_warned_random
  step_get_last_exception step_put_world step_set_last_exception step_fresh_id
  step_put_db step_set_warned_random : run.

(** Taking a composed run apart, down to the steps above and to the runs
    already dealt with. *)
Ltac run_step :=
  match goal with
  | |- respects _ (sret _) => apply respects_sret; typeclasses eauto
  | |- respects _ (sbind _ _) =>
      apply respects_sbind; [typeclasses eauto | | intros ?]
  | |- respects _ (mbind _ _) =>
      apply respects_mbind; [typeclasses eauto | typeclasses eauto | | intros ?]
  | |- respects _ (emit _) => apply step_emit; reflexivity
  | |- respects _ (match ?x with _ => _ end) => destruct x
  | |- respects _ _ => solve [auto with run]
  end.

Ltac run_steps := repeat run_step.

(** A run already dealt with, used where more is allowed. *)
Ltac by_phase lemma :=
  eapply respects_weaken; [|apply lemma];
  intros ? ?; apply step_weaken; [now intros [] | first [discriminate | auto] ..].

(** *** What each part of a run adds to the trace *)

Variables (settings : Settings) (default_settings : option Settings).

Lemma call_steps test args kwargs :
  respects (step execution_event true true) (call test args kwargs).
Proof. unfold call. destruct test; run_steps. Qed.

Lemma reify_and_execute_steps data test print_example :
  respects (step execution_event true true)
    (reify_and_execute data test print_example).
Proof.
  unfold reify_and_execute, report. run_steps; apply call_steps.
Qed.

Lemma evaluate_body_steps data :
  respects (step execution_event true true) (evaluate_body settings data).
Proof.
  unfold evaluate_body, test_runner, verbose_report.
  apply respects_sbind; [typeclasses eauto | apply reify_and_execute_steps |].
  intros [[r record_repr] data']. run_steps.
Qed.

Lemma fail_health_check_steps message :
  respects (step evaluation_event true true) (fail_health_check settings message).
Proof. unfold fail_health_check. run_steps. Qed.

Lemma evaluate_test_data_steps data :
  respects (step evaluation_event true false)
    (evaluate_test_data settings default_settings data).
Proof.
  unfold evaluate_test_data.
  run_steps;
    first [by_phase evaluate_body_steps | by_phase fail_health_check_steps].
Qed.

Lemma for_buffer_steps P kd kw buffer : respects (step P kd kw) (for_buffer buffer).
Proof. unfold for_buffer. run_steps. Qed.



Lemma database_save_steps key value :
  respects (step search_event false true) (database_save key value).
Proof. unfold database_save. run_steps. Qed.



Lemma engine_loop_steps candidates : forall runner,
  respects (step evaluation_event true false)
    (engine_loop settings default_settings candidates runner).
Proof.
  induction candidates as [|buffer rest IH]; intros runner; simpl; [run_steps|].
  apply respects_sbind; [typeclasses eauto | apply for_buffer_steps |].
  intros data.
  apply respects_sbind; [typeclasses eauto | apply evaluate_test_data_steps |].
  intros [r data']. run_steps; try apply IH.
Qed.

Lemma TestRunner_run_steps random :
  respects (step evaluation_event true false)
    (TestRunner_run settings default_settings random).
Proof.
  unfold TestRunner_run. destruct (engine_candidates random) as [first rest].
  apply respects_sbind; [typeclasses eauto | apply for_buffer_steps |].
  intros data.
  apply respects_sbind; [typeclasses eauto | apply evaluate_test_data_steps |].
  intros [r data']. run_steps; try apply engine_loop_steps.
Qed.

Lemma search_steps key random :
  respects (step search_event false false)
    (search settings default_settings key random).
Proof.
  unfold search. run_steps;
    first [by_phase TestRunner_run_steps | by_phase database_save_steps].
Qed.

Lemma execute_final_steps falsifying_example test :
  respects (step execution_event true true)
    (execute_final falsifying_example test).
Proof.
  unfold execute_final, test_runner.
  apply respects_sbind; [typeclasses eauto | apply for_buffer_steps |].
  intros data.
  apply respects_sbind; [typeclasses eauto | apply reify_and_execute_steps |].
  intros x. run_steps.
Qed.

Lemma reproduce_steps falsifying_example :
  respects (step execution_event true true) (reproduce falsifying_example).
Proof.
  unfold reproduce, report.
  run_steps; apply execute_final_steps.
Qed.

Lemma report_all_steps notes :
  respects (step explicit_event true true) (report_all notes).
Proof.
  induction notes as [|n rest IH]; simpl; unfold report; run_steps; try exact IH.
Qed.

Lemma run_explicit_examples_steps examples arguments kwargs :
  respects (step explicit_event true true)
    (run_explicit_examples examples arguments kwargs).
Proof.
  induction examples as [|example rest IH]; simpl; unfold report;
    run_steps; try exact IH; apply report_all_steps.
Qed.

(** *** One execution of the test *)

Lemma reify_TheTest_drew data print_example st args kwargs w1 r notes w2 :
  draw (data_buffer data) (world st) = (Drew args kwargs, w1) ->
  call_test args kwargs w1 = (r, notes, w2) ->
  exists st2,
    reify_and_execute data TheTest print_example st
    = ((r, Some (arg_string args kwargs), data), st2)
    /\ world st2 = w2
    /\ warned_random st2 = warned_random st
    /\ last_exception st2 = last_exception st
    /\ repr_for_last_exception st2 = repr_for_last_exception st.
Proof.
  intros Hd Hc.
  unfold reify_and_execute, call, report, sbind, emit, get_world, put_world, sret.
  cbn. rewrite Hd. cbn.
  destruct print_example; [|destruct current_verbose]; cbn; rewrite Hc; cbn;
    eexists; (split; [reflexivity|]); cbn; auto.
Qed.

Lemma evaluate_body_returned data st args kwargs w1 result notes w2 :
  draw (data_buffer data) (world st) = (Drew args kwargs, w1) ->
  call_test args kwargs w1 = (Val result, notes, w2) ->
  is_not_None result = true ->
  perform_health_check settings = true ->
  exists st2,
    evaluate_body settings data st
    = ((Exc (FailedHealthCheck (returned_value_message result)), data), st2)
    /\ warned_random st2 = warned_random st.
Proof.
  intros Hd Hc Hn Hp.
  destruct (reify_TheTest_drew data false st _ _ _ _ _ _ Hd Hc)
    as (st2 & E & _ & Hw & _).
  exists st2. split; [|exact Hw].
  unfold evaluate_body, test_runner, sbind. rewrite E. cbn.
  rewrite Hn, Hp. reflexivity.
Qed.

(** C8, as the code has it.  When the test body returns a value other
    than [None] and [settings.perform_health_check] is set, the candidate
    evaluation raises [FailedHealthCheck], whatever [settings.strict] is:
    the failure is raised in place, not handed to [fail_health_check], and
    without [strict] it is the failure about the returned value that
    propagates. *)
Theorem returned_value_raises_whatever_strict
    data st args kwargs w1 result notes w2 :
  draw (data_buffer data) (world st) = (Drew args kwargs, w1) ->
  call_test args kwargs w1 = (Val result, notes, w2) ->
  is_not_None result = true ->
  perform_health_check settings = true ->
  let outcome := fst (fst (evaluate_test_data settings default_settings data st)) in
  (exists message, outcome = Exc (FailedHealthCheck message))
  /\ (strict settings = false ->
      outcome = Exc (FailedHealthCheck (returned_value_message result))).
Proof.
  intros Hd Hc Hn Hp. unfold evaluate_test_data, sbind, get_warned_random.
  destruct (perform_health_check_flag settings default_settings
            && negb (warned_random st)) eqn:Hsnap.
  - cbn.
    destruct (evaluate_body_returned data
                (snd (emit EvGetRandomState st)) _ _ _ _ _ _ Hd Hc Hn Hp)
      as (st2 & E & Hw).
    cbn in E, Hw. rewrite E. cbn. rewrite Hw.
    apply andb_prop in Hsnap as [Hflag Hnw]. rewrite Hnw, Hflag. cbn.
    unfold fail_health_check, sbind, emit, set_warned_random, get_world.
    destruct (strict settings) eqn:Hs;
      destruct (negb (getglobalrandomstate (world st2)
                      =? getglobalrandomstate (world st)));
      cbn; rewrite ?Hs; cbn; split; eauto; discriminate.
  - destruct (evaluate_body_returned data st _ _ _ _ _ _ Hd Hc Hn Hp)
      as (st2 & E & Hw).
    cbn. rewrite E. cbn. rewrite Hw, andb_comm, Hsnap. cbn. eauto.
Qed.

(** *** Reproduction *)

Lemma append_cancel (a x y : string) : a +:+ x = a +:+ y -> x = y.
Proof. induction a as [|c a IH]; simpl; [auto|]. intros [= E]. auto. Qed.

(** The two messages of [test_is_flaky] are never the same text. *)
Lemma flaky_messages_differ expected text_repr text_repr' :
  flaky_same_repr text_repr <> flaky_other_repr expected text_repr'.
Proof.
  unfold flaky_same_repr, flaky_other_repr. intros E.
  apply append_cancel in E. apply append_cancel in E. discriminate.
Qed.

Lemma execute_final_starts_with_draw falsifying_example test st :
  exists evs,
    log (snd (execute_final falsifying_example test st))
    = (evs ++ EvDraw falsifying_example :: log st)%list.
Proof.
  unfold execute_final, test_runner, for_buffer, reify_and_execute, call,
    report, sbind, emit, get_world, put_world, fresh_id, sret. cbn.
  destruct (draw falsifying_example (world st)) as [[args kwargs| |e] w1]; cbn;
    try (now exists []).
  destruct test; cbn.
  - destruct (call_test args kwargs w1) as [[r notes] w2]; cbn.
    eexists [_; _]; reflexivity.
  - eexists [_]; reflexivity.
Qed.

Lemma execute_final_TheTest_drew falsifying_example st args kwargs w1 r notes w2 :
  draw falsifying_example (world st) = (Drew args kwargs, w1) ->
  call_test args kwargs w1 = (r, notes, w2) ->
  exists st2,
    execute_final falsifying_example TheTest st = (r, st2)
    /\ world st2 = w2
    /\ last_exception st2 = last_exception st
    /\ repr_for_last_exception st2 = repr_for_last_exception st.
Proof.
  intros Hd Hc.
  unfold execute_final, test_runner, for_buffer, sbind, fresh_id, sret.
  cbv beta iota zeta.
  match goal with
  | |- context [reify_and_execute ?d TheTest true ?s] =>
      destruct (reify_TheTest_drew d true s args kwargs w1 r notes w2 Hd Hc)
        as (st2 & E & Hw & _ & Hl & Hr)
  end.
  rewrite E. cbn. eauto.
Qed.

(** What the execution of [test_is_flaky(test, expected)] comes to. *)
Lemma execute_final_TestOrFlaky falsifying_example expected st :
  fst (execute_final falsifying_example (TestOrFlaky expected) st)
  = match fst (draw falsifying_example (world st)) with
    | Drew args kwargs => test_or_flaky expected args kwargs
    | DrawOverrun => Exc (StopTest (next_id st))
    | DrawRaised e => Exc e
    end.
Proof.
  unfold execute_final, test_runner, for_buffer, reify_and_execute, call,
    report, sbind, emit, get_world, put_world, fresh_id, sret. cbn.
  destruct (draw falsifying_example (world st)) as [[args kwargs| |e] w1];
    reflexivity.
Qed.

Lemma test_or_flaky_raises expected args kwargs :
  test_or_flaky expected args kwargs
  = Exc (Flaky (if bool_decide (Some (arg_string args kwargs) = expected)
                then flaky_same_repr (arg_string args kwargs)
                else flaky_other_repr expected (arg_string args kwargs))).
Proof. unfold test_or_flaky. destruct (bool_decide _); reflexivity. Qed.

Lemma execute_final_TestOrFlaky_world falsifying_example expected st :
  world (snd (execute_final falsifying_example (TestOrFlaky expected) st))
  = snd (draw falsifying_example (world st)).
Proof.
  unfold execute_final, test_runner, for_buffer, reify_and_execute, call,
    report, sbind, emit, get_world, put_world, fresh_id, sret. cbn.
  destruct (draw falsifying_example (world st)) as [[args kwargs| |e] w1];
    reflexivity.
Qed.

(** What [wrapped_test] does with a falsifying buffer, in a state with a
    recorded failure. *)
Lemma reproduce_from_recorded_failure (falsifying_example : Buffer)
    (st : RunState) :
  is_Some (last_exception st) ->
  let run := reproduce falsifying_example st in
  (exists rest,
     trace (snd run) = (trace st ++ EvDraw falsifying_example :: rest)%list)
  /\ (forall w1,
        draw falsifying_example (world st) = (DrawOverrun, w1) ->
        run = (Exc (StopTest (next_id st)),
               moved_on w1 [EvDraw falsifying_example]
                 (snd (fresh_id st))))
  /\ (forall e w1,
        draw falsifying_example (world st) = (DrawRaised e, w1) ->
        fst run = Exc (match e with
                       | UnsatisfiedAssumption => Flaky unreliable_assumption
                       | _ => e
                       end)
        /\ world (snd run) = w1)
  /\ (forall args' kwargs' w1 e notes w2,
        draw falsifying_example (world st) = (Drew args' kwargs', w1) ->
        call_test args' kwargs' w1 = (Exc e, notes, w2) ->
        fst run = Exc (match e with
                       | UnsatisfiedAssumption => Flaky unreliable_assumption
                       | _ => e
                       end)
        /\ world (snd run) = w2)
  /\ (forall args' kwargs' w1 result notes w2,
        draw falsifying_example (world st) = (Drew args' kwargs', w1) ->
        call_test args' kwargs' w1 = (Val result, notes, w2) ->
        world (snd run) = snd (draw falsifying_example w2)
        /\ match fst (draw falsifying_example w2) with
           | Drew args'' kwargs'' =>
               let text_repr := arg_string args'' kwargs'' in
               fst run
               = Exc (Flaky (if bool_decide
                                  (Some text_repr = repr_for_last_exception st)
                             then flaky_same_repr text_repr
                             else flaky_other_repr (repr_for_last_exception st)
                                    text_repr))
               /\ flaky_same_repr text_repr
                  <> flaky_other_repr (repr_for_last_exception st) text_repr
           | DrawRaised UnsatisfiedAssumption =>
               fst run = Exc (Flaky unreliable_test_data)
           | DrawRaised e => fst run = Exc e
           | DrawOverrun => fst run = Exc (StopTest (S (next_id st)))
           end).
Proof.
  intros [tb Hlast] run. subst run.
  destruct (reproduce falsifying_example st) as [outcome st'] eqn:E.
  unfold reproduce in E.
  apply sbind_inv in E as (le & st0 & E0 & E).
  injection E0 as <- <-. cbn [fst] in E. rewrite Hlast in E.
  apply sbind_inv in E as (r & st1 & E1 & E).
  cbn [fst snd]. split; [|split; [|split; [|split]]].
  - pose proof (execute_final_starts_with_draw falsifying_example TheTest st)
      as (evs & Hevs).
    rewrite E1 in Hevs. cbn [snd] in Hevs.
    match type of E with
    | ?m st1 = _ =>
        assert (Hm : respects (step execution_event true true) m)
          by (unfold report; run_steps; apply execute_final_steps)
    end.
    apply Hm in E as [(evs' & L & _) _ _].
    exists (rev evs ++ rev evs')%list. unfold trace.
    rewrite L, Hevs, !rev_app_distr. cbn [rev]. rewrite <- !app_assoc.
    reflexivity.
  - intros w1 Hd.
    revert E1. unfold execute_final, test_runner, for_buffer,
      reify_and_execute, sbind, emit, get_world, put_world, fresh_id, sret.
    cbn. rewrite Hd. cbn. intros [= <- <-].
    revert E. unfold sret. intros [= <- <-]. reflexivity.
  - intros e w1 Hd.
    revert E1. unfold execute_final, test_runner, for_buffer,
      reify_and_execute, sbind, emit, get_world, put_world, fresh_id, sret.
    cbn. rewrite Hd. cbn. intros [= <- <-].
    revert E. unfold report, sbind, emit, sret.
    destruct e; cbn; intros [= <- <-]; auto.
  - intros args' kwargs' w1 e notes w2 Hd Hc.
    destruct (execute_final_TheTest_drew falsifying_example st
                _ _ _ _ _ _ Hd Hc) as (st2 & E2 & Hw & _).
    rewrite E2 in E1. injection E1 as <- <-.
    revert E. unfold report, sbind, emit, sret.
    destruct e; cbn; intros [= <- <-]; auto.
  - intros args' kwargs' w1 result notes w2 Hd Hc.
    destruct (execute_final_TheTest_drew falsifying_example st
                _ _ _ _ _ _ Hd Hc) as (st2 & E2 & Hw & Hl & Hr).
    assert (Hid : next_id st2 = S (next_id st)).
    { revert E2. unfold execute_final, test_runner, for_buffer,
        reify_and_execute, call, report, sbind, emit, get_world, put_world,
        fresh_id, sret. cbn. rewrite Hd. cbn. rewrite Hc. cbn.
      intros E2. now inversion E2. }
    rewrite E2 in E1. injection E1 as <- <-.
    unfold sbind, get_last_exception, report, emit in E.
    cbv beta iota zeta in E. cbn [fst snd] in E.
    match type of E with
    | context [execute_final falsifying_example (TestOrFlaky ?x) ?s] =>
        pose proof (execute_final_TestOrFlaky falsifying_example x s) as Hf;
        pose proof (execute_final_TestOrFlaky_world falsifying_example x s) as Hfw;
        destruct (execute_final falsifying_example (TestOrFlaky x) s)
          as [r2 st3] eqn:E3
    end.
    cbn in Hf, Hfw. rewrite Hw, Hr in Hf. rewrite ?Hid in Hf.
    rewrite Hw in Hfw. subst r2.
    destruct (draw falsifying_example w2) as [[args'' kwargs''| |e] w3];
      cbn [fst snd] in *.
    + rewrite test_or_flaky_raises in E. cbn in E.
      injection E as <- <-. split; [exact Hfw|]. split; [reflexivity|].
      apply flaky_messages_differ.
    + cbn in E. injection E as <- <-. auto.
    + destruct e; cbn in E; injection E as <- <-; auto.
Qed.

(** *** The outcome of the search *)

Lemma status_eqb_eq a b : status_eqb a b = true <-> a = b.
Proof. destruct a, b; cbv; split; congruence. Qed.

Lemma status_eqb_neq a b : a <> b -> status_eqb a b = false.
Proof.
  intros Hne. destruct (status_eqb a b) eqn:E; [|reflexivity].
  apply status_eqb_eq in E. contradiction.
Qed.

Lemma timed_out_iff (timeout run_time : Q) :
  Qlt_bool 0 timeout && Qle_bool timeout run_time = true
  <-> (0 < timeout)%Q /\ (timeout <= run_time)%Q.
Proof.
  unfold Qlt_bool. rewrite andb_true_iff, negb_true_iff, Qle_bool_iff.
  split; intros [H1 H2]; split; try assumption.
  - apply Qnot_le_lt. intros Hle. apply Qle_bool_iff in Hle. congruence.
  - destruct (Qle_bool timeout 0) eqn:E; [|reflexivity].
    apply Qle_bool_iff in E. apply Qlt_not_le in H1. contradiction.
Qed.

Lemma search_without_failure key random st runner st2 :
  TestRunner_run settings default_settings random (snd (emit EvEngineRun st))
  = (Val runner, st2) ->
  status (last_data runner) <> INTERESTING ->
  search settings default_settings key random st
  = (let run_time := (time_time (world st2) - time_time (world st))%Q in
     if valid_examples runner
          <? Z.min (min_satisfying_examples settings) (max_examples settings)
     then
       if Qlt_bool 0 (timeout settings) && Qle_bool (timeout settings) run_time
       then Exc (Timeout (valid_examples runner) run_time)
       else Exc (Unsatisfiable (valid_examples runner))
     else Val None, st2).
Proof.
  intros Hrun Hst. unfold search, mbind, sbind, get_world.
  cbv beta iota zeta. cbn [snd] in *.
  change (emit EvEngineRun st) with (tt, snd (emit EvEngineRun st)).
  cbv beta iota zeta. rewrite Hrun. cbv beta iota zeta.
  rewrite (status_eqb_neq _ _ Hst).
  destruct (valid_examples runner <? _); [|reflexivity].
  destruct (Qlt_bool 0 (timeout settings) && _); reflexivity.
Qed.

(** The run up to the search: the explicit examples pass, there are
    examples to run, the strategy is valid and the replay finds nothing. *)
Lemma wrapped_test_reaches_search use_seed examples arguments kwargs w d st1 st2 :
  run_explicit_examples (rev examples) arguments kwargs (initial_state w d)
  = (Val tt, st1) ->
  0 < max_examples settings ->
  validate = Val tt ->
  replay_database settings default_settings qualified_name st1 = (Val None, st2) ->
  run_wrapped_test settings default_settings use_seed examples arguments kwargs w d
  = (let found := search settings default_settings qualified_name
                    (derive_random settings use_seed) st2 in
     match fst found with
     | Val None => (Val tt, snd found)
     | Val (Some falsifying_example) => reproduce falsifying_example (snd found)
     | Exc e => (Exc e, snd found)
     end).
Proof.
  intros Hex Hmax Hval Hrep.
  unfold run_wrapped_test, wrapped_test, mbind, sbind.
  rewrite Hex. cbv beta iota zeta.
  destruct (max_examples settings <=? 0) eqn:E; [lia|].
  rewrite Hval. unfold sret at 1. cbv beta iota zeta.
  rewrite Hrep. cbv beta iota zeta.
  destruct (search settings default_settings qualified_name _ st2)
    as [[[fb|]|e] st3]; reflexivity.
Qed.

(** C6.  In a run that reaches the randomized search, when the engine
    completes and its last byte source is not interesting: with fewer
    valid examples than [min(min_satisfying_examples, max_examples)] the
    run raises [Timeout] if [timeout > 0] and the time the search took is
    at least [timeout], and [Unsatisfiable] if not; with at least that
    many valid examples the run returns normally. *)
Theorem search_without_failure_outcome
    use_seed examples arguments kwargs w d st1 st2 runner st3 :
  run_explicit_examples (rev examples) arguments kwargs (initial_state w d)
  = (Val tt, st1) ->
  0 < max_examples settings ->
  validate = Val tt ->
  replay_database settings default_settings qualified_name st1 = (Val None, st2) ->
  TestRunner_run settings default_settings (derive_random settings use_seed)
    (snd (emit EvEngineRun st2)) = (Val runner, st3) ->
  status (last_data runner) <> INTERESTING ->
  let outcome :=
    fst (run_wrapped_test settings default_settings use_seed examples
           arguments kwargs w d) in
  let run_time := (time_time (world st3) - time_time (world st2))%Q in
  let enough := Z.min (min_satisfying_examples settings) (max_examples settings) in
  (valid_examples runner < enough ->
   (0 < timeout settings)%Q /\ (timeout settings <= run_time)%Q ->
   outcome = Exc (Timeout (valid_examples runner) run_time))
  /\ (valid_examples runner < enough ->
      ~ ((0 < timeout settings)%Q /\ (timeout settings <= run_time)%Q) ->
      outcome = Exc (Unsatisfiable (valid_examples runner)))
  /\ (enough <= valid_examples runner -> outcome = Val tt).
Proof.
  intros Hex Hmax Hval Hrep Hrun Hst outcome run_time enough.
  subst outcome.
  rewrite (wrapped_test_reaches_search _ _ _ _ _ _ _ _ Hex Hmax Hval Hrep).
  rewrite (search_without_failure _ _ _ _ _ Hrun Hst).
  cbv beta iota zeta. cbn [fst snd].
  fold run_time. fold enough.
  pose proof (timed_out_iff (timeout settings) run_time) as Hto.
  destruct (valid_examples runner <? enough) eqn:E.
  - apply Z.ltb_lt in E.
    destruct (Qlt_bool 0 (timeout settings)
              && Qle_bool (timeout settings) run_time).
    + split; [reflexivity|]. split; [|lia].
      intros _ Hno. exfalso. apply Hno. now apply Hto.
    + split; [|split; [reflexivity|lia]].
      intros _ Hyes. apply Hto in Hyes. discriminate.
  - apply Z.ltb_ge in E. split; [lia|]. split; [lia|]. reflexivity.
Qed.

(** *** The explicit examples *)







(** *** The replay of the database *)

Lemma classifications_app a b :
  classifications (a ++ b) = (classifications a ++ classifications b)%list.
Proof.
  induction a as [|e a IH]; [reflexivity|].
  destruct e; simpl; rewrite IH; reflexivity.
Qed.

Lemma classifications_none P evs :
  (forall b s, P (EvClassified b s) = false) ->
  forallb P evs = true -> classifications evs = [].
Proof.
  intros HP. induction evs as [|e evs IH]; [reflexivity|]. simpl.
  intros [He Hevs]%andb_prop. destruct e; auto.
  rewrite HP in He. discriminate.
Qed.

Lemma replay_classifies key fetched : forall st r st',
  replay settings default_settings key fetched st = (r, st') ->
  exists evs,
    trace st' = (trace st ++ evs)%list
    /\ forallb replay_event evs = true
    /\ forallb (fun e => negb (is_engine_run e)) evs = true
    /\ map fst (classifications evs) `prefix_of` fetched
    /\ db st' = delete_buffers key (below_valid (classifications evs)) (db st)
    /\ match r with
       | Val (Some b) =>
           exists evs',
             evs = (evs' ++ [EvClassified b INTERESTING])%list
             /\ Forall not_interesting (classifications evs')
       | Val None =>
           map fst (classifications evs) = fetched
           /\ Forall not_interesting (classifications evs)
       | Exc _ => Forall not_interesting (classifications evs)
       end.
Proof.
  induction fetched as [|existing rest IH]; intros st r st'; simpl.
  - intros [= <- <-]. exists []. rewrite app_nil_r. simpl.
    repeat split; auto; try now exists [].
  - intros E.
    apply sbind_inv in E as (data & st0 & E0 & E).
    apply for_buffer_steps with (P := evaluation_event) (kd := true) (kw := true)
      in E0 as S0.
    apply sbind_inv in E as ([r0 data'] & st1 & E1 & E).
    apply evaluate_test_data_steps in E1 as S1.
    assert (S01 : step evaluation_event true false st st1).
    { etransitivity; [|exact S1]. revert S0. apply step_weaken; auto. }
    destruct (step_trace _ _ _ _ _ S01) as (evs1 & T1 & F1).
    assert (C1 : classifications evs1 = [])
      by (eapply classifications_none; [|exact F1]; reflexivity).
    assert (D1 : db st1 = db st) by (apply S01; reflexivity).
    assert (N1 : forallb (fun e => negb (is_engine_run e)) evs1 = true).
    { rewrite forallb_forall in *. intros e He. apply F1 in He.
      now destruct e. }
    assert (R1 : forallb replay_event evs1 = true).
    { rewrite forallb_forall in *. intros e He. apply F1 in He.
      now destruct e. }
    destruct (except_own_StopTest data' r0) as [[]|e].
    2:{ injection E as <- <-. exists evs1. rewrite C1. simpl.
        repeat split; auto. now exists (existing :: rest). }
    apply sbind_inv in E as ([] & st2 & E2 & E).
    injection E2 as <-.
    apply sbind_inv in E as ([] & st3 & E3 & E).
    destruct (status_eqb (status data') INTERESTING) eqn:Hint.
    + apply status_eqb_eq in Hint. rewrite Hint in *.
      injection E3 as <-. injection E as <- <-.
      exists (evs1 ++ [EvClassified existing INTERESTING])%list.
      unfold trace in *. cbn [log rev]. rewrite T1, <- app_assoc.
      rewrite !forallb_app, R1, N1, classifications_app, C1. simpl.
      repeat split; auto.
      * now exists rest.
      * exists evs1. rewrite C1. auto.
    + assert (Hni : status data' <> INTERESTING).
      { intros Heq. rewrite Heq in Hint. discriminate. }
      apply IH in E as (evs & T & F & N & Hpre & Hdb & Hres).
      destruct (status_ltb (status data') VALID) eqn:Hlt.
      * apply sbind_inv in E3 as ([] & st4 & E4 & E3).
        injection E4 as <-.
        apply sbind_inv in E3 as (d4 & st5 & E5 & E3).
        injection E5 as <- <-. injection E3 as <-.
        exists (evs1 ++ EvClassified existing (status data')
                     :: EvDelete key existing :: evs)%list.
        rewrite T. unfold trace. cbn [log rev]. unfold trace in T1.
        rewrite T1, <- !app_assoc. cbn [app].
        rewrite !forallb_app, classifications_app, C1. cbn.
        rewrite R1, N1, F, N. unfold below_valid. cbn. rewrite Hlt. cbn.
        rewrite Hdb. unfold below_valid. rewrite D1.
        repeat split; auto.
        -- destruct Hpre as [k ->]. now exists k.
        -- destruct r as [[b|]|e].
           ++ destruct Hres as (evs' & -> & Hn).
              exists (evs1 ++ EvClassified existing (status data')
                           :: EvDelete key existing :: evs')%list.
              rewrite <- !app_assoc. cbn [app]. split; [reflexivity|].
              rewrite classifications_app, C1. cbn. constructor; auto.
           ++ destruct Hres as [-> Hn]. split; [reflexivity|].
              constructor; auto.
           ++ constructor; auto.
      * injection E3 as <-.
        exists (evs1 ++ EvClassified existing (status data') :: evs)%list.
        rewrite T. unfold trace. cbn [log rev]. unfold trace in T1.
        rewrite T1, <- !app_assoc. cbn [app].
        rewrite !forallb_app, classifications_app, C1. cbn.
        rewrite R1, N1, F, N. unfold below_valid. cbn. rewrite Hlt. cbn.
        rewrite Hdb. unfold below_valid. rewrite D1.
        repeat split; auto.
        -- destruct Hpre as [k ->]. now exists k.
        -- destruct r as [[b|]|e].
           ++ destruct Hres as (evs' & -> & Hn).
              exists (evs1 ++ EvClassified existing (status data') :: evs')%list.
              rewrite <- !app_assoc. cbn [app]. split; [reflexivity|].
              rewrite classifications_app, C1. cbn. constructor; auto.
           ++ destruct Hres as [-> Hn]. split; [reflexivity|].
              constructor; auto.
           ++ constructor; auto.
Qed.

Lemma not_interesting_absent b cls :
  Forall not_interesting cls -> ~ In (b, INTERESTING) cls.
Proof.
  intros Hall Hin. rewrite Forall_forall in Hall.
  apply list_elem_of_In, Hall in Hin. now apply Hin.
Qed.

Lemma no_engine_run_in P evs :
  (P EvEngineRun = false) ->
  forallb P evs = true ->
  forallb (fun e => negb (is_engine_run e)) evs = true.
Proof.
  intros HP. rewrite !forallb_forall. intros F e He. apply F in He.
  destruct e; try reflexivity. congruence.
Qed.

(** A byte source stays the same object through an evaluation. *)
Lemma reify_and_execute_same_source data test print_example st x st' :
  reify_and_execute data test print_example st = (x, st') ->
  data_id (snd x) = data_id data.
Proof.
  unfold reify_and_execute, call, report, sbind, emit, get_world, put_world, sret.
  cbv beta iota zeta. cbn [world log].
  destruct (draw (data_buffer data) (world st)) as [[args kwargs| |e] w1].
  - destruct print_example; [|destruct current_verbose];
      (destruct test; cbv beta iota zeta; cbn [world log];
       [destruct (call_test args kwargs w1) as [[r' notes] w2]|];
       intros [= <- <-]; reflexivity).
  - intros [= <- <-]. reflexivity.
  - intros [= <- <-]. reflexivity.
Qed.

Lemma evaluate_body_same_source data st x st' :
  evaluate_body settings data st = (x, st') -> data_id (snd x) = data_id data.
Proof.
  unfold evaluate_body, test_runner. intros E.
  apply sbind_inv in E as ([[r0 record_repr] data0] & st0 & E0 & E).
  apply reify_and_execute_same_source in E0. cbn [snd] in E0.
  rewrite <- E0. clear E0. revert E.
  unfold sbind, set_last_exception, verbose_report, emit, sret,
    mark_interesting, mark_invalid.
  destruct r0 as [result|e].
  - destruct (is_not_None result && perform_health_check settings);
      intros [= <- <-]; reflexivity.
  - destruct e; cbn [is_Exception]; cbv beta iota zeta;
      try destruct (negb (frozen data0));
      intros [= <- <-]; reflexivity.
Qed.

Lemma evaluate_test_data_same_source data st x st' :
  evaluate_test_data settings default_settings data st = (x, st') ->
  data_id (snd x) = data_id data.
Proof.
  unfold evaluate_test_data. intros E.
  apply sbind_inv in E as (warned & st0 & E0 & E).
  apply sbind_inv in E as (initial & st1 & E1 & E).
  apply sbind_inv in E as (x2 & st2 & E2 & E).
  apply evaluate_body_same_source in E2. rewrite <- E2. clear E2.
  revert E. unfold fail_health_check.
  unfold sbind, get_warned_random, emit, get_world, set_warned_random, sret.
  cbv beta iota zeta. cbn [snd world warned_random log].
  destruct (negb (warned_random st2) && _); [|now intros [= <- <-]].
  destruct initial as [s0|]; [|now intros [= <- <-]].
  destruct (negb (_ =? _)); cbv beta iota zeta; [|now intros [= <- <-]].
  destruct (strict settings); cbv beta iota zeta; now intros [= <- <-].
Qed.

(** The loop over the fetched buffers is the replay of the
    specification. *)
Lemma replay_is_replay_stored key fetched : forall st,
  replay settings default_settings key fetched st
  = replay_stored settings default_settings key fetched st.
Proof.
  induction fetched as [|existing rest IH]; intros st;
    cbn [replay replay_stored]; [reflexivity|].
  unfold classify. unfold sbind at 1.
  destruct (for_buffer existing st) as [data st0].
  unfold sbind at 1.
  destruct (evaluate_test_data settings default_settings data st0)
    as [[r data'] st1] eqn:E1.
  apply evaluate_test_data_same_source in E1 as Hid. cbn [snd] in Hid.
  assert (Hclassified :
    sbind (emit (EvClassified existing (status data'))) (fun _ =>
    sbind (if status_ltb (status data') VALID
           then database_delete key existing else sret tt) (fun _ =>
      if status_eqb (status data') INTERESTING
      then sret (Val (Some existing))
      else replay settings default_settings key rest)) st1
    = (let st := moved_on (world st1) [EvClassified existing (status data')] st1 in
       let st := if status_ltb (status data') VALID
                 then snd (database_delete key existing st) else st in
       if status_eqb (status data') INTERESTING then (Val (Some existing), st)
       else replay_stored settings default_settings key rest st)).
  { unfold sbind at 1. unfold emit at 1. cbv beta iota zeta.
    change (moved_on (world st1) [EvClassified existing (status data')] st1)
      with {| world := world st1; db := db st1;
              warned_random := warned_random st1;
              last_exception := last_exception st1;
              repr_for_last_exception := repr_for_last_exception st1;
              next_id := next_id st1;
              log := EvClassified existing (status data') :: log st1 |}.
    unfold sbind at 1.
    destruct (status_ltb (status data') VALID).
    - destruct (database_delete key existing _) as [[] st3]. cbn [snd].
      destruct (status_eqb (status data') INTERESTING); [reflexivity|apply IH].
    - unfold sret at 1. cbv beta iota zeta.
      destruct (status_eqb (status data') INTERESTING); [reflexivity|apply IH]. }
  destruct r as [v|e]; cbn [except_own_StopTest]; [exact Hclassified|].
  destruct e; try reflexivity.
  rewrite Hid. destruct (_ =? _)%nat; [exact Hclassified|reflexivity].
Qed.

(** C3.  With a database, the stored buffers of the test are replayed in
    the order [fetch] gives them, as the specification has it: each is
    evaluated on a fresh byte source, in the state the one before it left;
    a buffer classified below valid is deleted and the replay goes on; the
    first buffer classified interesting is the falsifying buffer and ends
    the replay; and the replay ends in an error only when an evaluation
    raises one that is not the stop of its own byte source.  On the trace,
    the buffers replayed are a prefix of the buffers fetched, each one
    classified below valid has been deleted from the database, and the
    replay yields a falsifying buffer exactly when it classified a buffer
    interesting, that buffer being the last one replayed and the only
    interesting one.  In a whole call of [wrapped_test], once a replayed
    buffer has been classified interesting the engine is never run: the
    call goes straight on to the execution of the test on the falsifying
    buffer, from the state in which the replay ended, and does nothing
    else. *)
Theorem database_replay_finds_stored_failure
    use_seed examples arguments kwargs w d :
  (forall st,
     has_database settings = true ->
     let key := qualified_name in
     let fetched := default [] (db st !! key) in
     let run := replay_database settings default_settings key st in
     run = replay_stored settings default_settings key fetched
             (moved_on (world st) [EvFetch key] st)
     /\ exists evs,
          trace (snd run) = (trace st ++ EvFetch key :: evs)%list
          /\ map fst (classifications evs) `prefix_of` fetched
          /\ db (snd run)
             = delete_buffers key (below_valid (classifications evs)) (db st)
          /\ match fst run with
             | Val (Some b) =>
                 exists evs',
                   evs = (evs' ++ [EvClassified b INTERESTING])%list
                   /\ Forall not_interesting (classifications evs')
             | Val None =>
                 map fst (classifications evs) = fetched
                 /\ Forall not_interesting (classifications evs)
             | Exc _ => Forall not_interesting (classifications evs)
             end)
  /\ (let run := run_wrapped_test settings default_settings use_seed examples
                   arguments kwargs w d in
      forall b,
        In (b, INTERESTING) (classifications (trace (snd run))) ->
        forallb (fun e => negb (is_engine_run e)) (trace (snd run)) = true
        /\ exists before after,
             trace (snd run)
             = (before ++ EvClassified b INTERESTING :: after)%list
             /\ Forall not_interesting (classifications before)
             /\ forallb execution_event after = true)
  /\ (forall st1 b st2,
        run_explicit_examples (rev examples) arguments kwargs (initial_state w d)
        = (Val tt, st1) ->
        0 < max_examples settings ->
        validate = Val tt ->
        has_database settings = true ->
        replay_stored settings default_settings qualified_name
          (default [] (db st1 !! qualified_name))
          (moved_on (world st1) [EvFetch qualified_name] st1)
        = (Val (Some b), st2) ->
        run_wrapped_test settings default_settings use_seed examples
          arguments kwargs w d
        = reproduce b st2).
Proof.
  assert (Hfetch : forall st,
            has_database settings = true ->
            replay_database settings default_settings qualified_name st
            = replay_stored settings default_settings qualified_name
                (default [] (db st !! qualified_name))
                (moved_on (world st) [EvFetch qualified_name] st)).
  { intros st Hdb. unfold replay_database. rewrite Hdb.
    unfold database_fetch, sbind, emit, get_db, sret. cbv beta iota zeta.
    cbn [db]. apply replay_is_replay_stored. }
  split; [|split].
  - intros st Hdb key fetched run. subst run fetched key.
    split; [now apply Hfetch|].
    unfold replay_database. rewrite Hdb.
    destruct (database_fetch qualified_name st) as [f st0] eqn:Ef.
    rewrite (sbind_run _ _ _ _ _ Ef).
    unfold database_fetch, sbind, emit, get_db, sret in Ef.
    injection Ef as <- <-.
    match goal with
    | |- context [replay _ _ _ ?f ?s] =>
        destruct (replay settings default_settings qualified_name f s)
          as [r st'] eqn:E
    end.
    cbn [db] in E. apply replay_classifies in E
      as (evs & T & _ & _ & Hpre & Hd & Hres).
    cbn [fst snd]. exists evs. rewrite T. unfold trace. cbn [log rev].
    rewrite <- app_assoc. cbn [app]. cbn [db] in Hd. auto.
  - intros run b Hin. subst run.
    destruct (run_wrapped_test settings default_settings use_seed examples
                arguments kwargs w d) as [r st'] eqn:E.
    cbn [snd] in *. unfold run_wrapped_test, wrapped_test, mbind in E.
    apply sbind_inv in E as (r1 & st1 & E1 & E).
    apply run_explicit_examples_steps, step_trace in E1 as (t1 & T1 & F1).
    cbn [trace initial_state log rev app] in T1.
    assert (C1 : classifications t1 = [])
      by (eapply classifications_none; [|exact F1]; reflexivity).
    assert (N1 := no_engine_run_in _ _ eq_refl F1).
    assert (Hstop : forall (x : res unit), (x, st1) = (r, st') -> False).
    { intros x [= _ <-]. rewrite T1, C1 in Hin. destruct Hin. }
    destruct r1 as [[]|e]; [|exfalso; eapply Hstop; exact E].
    destruct (max_examples settings <=? 0); [exfalso; eapply Hstop; exact E|].
    apply sbind_inv in E as (rv & stv & Ev & E).
    injection Ev as <- <-.
    destruct validate as [[]|e]; [|exfalso; eapply Hstop; exact E].
    apply sbind_inv in E as (r2 & st2 & E2 & E).
    assert (Hlater : forall found st2, found = None ->
      classifications (trace st2) = [] \/
        (exists t2, trace st2 = (t1 ++ t2)%list
                    /\ Forall not_interesting (classifications t2)) ->
      mbind
        (match found with
         | Some falsifying_example => sret (Val (Some falsifying_example))
         | None => search settings default_settings qualified_name
                     (derive_random settings use_seed)
         end)
        (fun found =>
           match found with
           | None => sret (Val tt)
           | Some falsifying_example => reproduce falsifying_example
           end) st2 = (r, st') -> False).
    { intros found0 s2 -> Hcls E3.
      match type of E3 with
      | ?m s2 = _ =>
          assert (Hm : respects (step search_event false false) m)
      end.
      { run_steps; first [apply search_steps | by_phase reproduce_steps]. }
      apply Hm, step_trace in E3 as (t3 & T3 & F3).
      assert (C3 : classifications t3 = [])
        by (eapply classifications_none; [|exact F3]; reflexivity).
      rewrite T3, classifications_app, C3, app_nil_r in Hin.
      destruct Hcls as [Hnone|(t2 & T2 & Hn)].
      - rewrite Hnone in Hin. destruct Hin.
      - rewrite T2, classifications_app, C1 in Hin.
        now apply not_interesting_absent in Hin. }
    unfold replay_database in E2.
    destruct (has_database settings).
    2:{ injection E2 as <- <-. exfalso.
        eapply (Hlater None st1); [reflexivity | | exact E].
        left. now rewrite T1. }
    apply sbind_inv in E2 as (fetched & st1' & Ef & E2).
    unfold database_fetch, sbind, emit, get_db, sret in Ef.
    injection Ef as <- <-.
    set (tf := [EvFetch qualified_name]).
    assert (Cf : classifications tf = []) by reflexivity.
    assert (Nf : forallb (fun e => negb (is_engine_run e)) tf = true)
      by reflexivity.
    match type of E2 with
    | replay _ _ _ _ ?s = _ =>
        assert (Tf : trace s = (trace st1 ++ tf)%list) by reflexivity
    end.
    apply replay_classifies in E2 as (evs & T2 & F2 & N2 & _ & _ & Hres).
    destruct r2 as [[b'|]|e].
    + destruct Hres as (evs' & -> & Hn).
      unfold sbind at 1 in E. unfold sret at 1 in E.
      cbv beta iota zeta in E.
      apply reproduce_steps, step_trace in E as (t4 & T4 & F4).
      assert (C4 : classifications t4 = [])
        by (eapply classifications_none; [|exact F4]; reflexivity).
      assert (N4 := no_engine_run_in _ _ eq_refl F4).
      assert (Tall : trace st'
                     = (((t1 ++ tf) ++ evs' ++ [EvClassified b' INTERESTING])
                        ++ t4)%list)
        by (rewrite T4, T2, Tf, T1; reflexivity).
      rewrite Tall in Hin |- *. clear Tall.
      rewrite !classifications_app, C1, Cf, C4 in Hin. cbn in Hin.
      rewrite app_nil_r in Hin. apply in_app_or in Hin as [Hin|Hin].
      { now apply not_interesting_absent in Hin. }
      destruct Hin as [[= ->]|[]].
      split.
      * rewrite !forallb_app. rewrite forallb_app in N2.
        apply andb_prop in N2 as [N2 _].
        rewrite N1, N2, N4. reflexivity.
      * exists (t1 ++ tf ++ evs')%list, t4.
        rewrite <- !app_assoc. cbn [app]. split; [reflexivity|].
        rewrite !classifications_app, C1, Cf. cbn. auto.
    + exfalso. eapply (Hlater None st2); [reflexivity | | exact E].
      right. exists (tf ++ evs)%list. rewrite T2, Tf, T1, <- app_assoc.
      split; [reflexivity|]. rewrite classifications_app, Cf. apply Hres.
    + exfalso. injection E as _ <-.
      rewrite T2, Tf, T1, !classifications_app, C1, Cf in Hin. cbn in Hin.
      now apply not_interesting_absent in Hin.
  - intros st1 b st2 Hex Hmax Hval Hdb Hrep.
    rewrite <- (Hfetch st1 Hdb) in Hrep.
    unfold run_wrapped_test, wrapped_test, mbind.
    rewrite (sbind_run _ _ _ _ _ Hex).
    destruct (max_examples settings <=? 0) eqn:Emax; [lia|].
    rewrite Hval. unfold sret at 1. unfold sbind at 1.
    rewrite (sbind_run _ _ _ _ _ Hrep).
    reflexivity.
Qed.

(** *** The check of the global random state *)

Lemma scan_app warned a b :
  scan warned (a ++ b)
  = match scan warned a with
    | Some warned' => scan warned' b
    | None => None
    end.
Proof.
  revert warned. induction a as [|e a IH]; intros warned; [reflexivity|].
  simpl. destruct warned; [destruct (quiet e)|]; auto.
Qed.

Lemma scan_quiet warned evs :
  forallb quiet evs = true -> scan warned evs = Some warned.
Proof.
  revert warned. induction evs as [|e evs IH]; intros warned; [reflexivity|].
  simpl. intros [He Hevs]%andb_prop. rewrite He.
  destruct warned; [auto|].
  unfold quiet in He. apply andb_prop in He as [He _].
  apply negb_true_iff in He. rewrite He. auto.
Qed.

Lemma scan_not_failed evs :
  forallb (fun e => negb (is_fail_health_check e)) evs = true ->
  scan false evs = Some false.
Proof.
  induction evs as [|e evs IH]; [reflexivity|]. simpl.
  intros [He Hevs]%andb_prop. apply negb_true_iff in He. rewrite He. auto.
Qed.

#[local] Instance health_step_reflexive : Reflexive health_step.
Proof. intros st. now exists []. Qed.

#[local] Instance health_step_transitive : Transitive health_step.
Proof.
  intros st1 st2 st3 (e1 & L1 & S1) (e2 & L2 & S2).
  exists (e2 ++ e1)%list. rewrite L2, L1, app_assoc. split; [reflexivity|].
  now rewrite rev_app_distr, scan_app, S1.
Qed.

Lemma health_of_step P kd st st' :
  (forall e, P e = true -> quiet e = true) ->
  step P kd true st st' -> health_step st st'.
Proof.
  intros HP [(evs & L & F) _ Hw]. exists evs. split; [exact L|].
  rewrite Hw by reflexivity. apply scan_quiet. rewrite forallb_rev.
  rewrite forallb_forall in *. auto.
Qed.

Lemma health_of_respects P kd {A} (m : Run A) :
  (forall e, P e = true -> quiet e = true) ->
  respects (step P kd true) m -> respects health_step m.
Proof. intros HP Hm st a st' E. eapply health_of_step; eauto. Qed.

Lemma evaluate_test_data_health data :
  respects health_step (evaluate_test_data settings default_settings data).
Proof.
  intros st [r data'] st' E. unfold evaluate_test_data in E.
  apply sbind_inv in E as (warned & st0 & E0 & E). injection E0 as <- <-.
  apply sbind_inv in E as (initial & sta & Ea & E).
  apply sbind_inv in E as (outcome & stb & Eb & E).
  apply evaluate_body_steps in Eb as [(evsb & Lb & Fb) _ Wb].
  specialize (Wb eq_refl).
  apply sbind_inv in E as (warned' & stb' & E0 & E). injection E0 as <- <-.
  assert (Qb : forallb quiet (rev evsb) = true).
  { rewrite forallb_rev, forallb_forall in *. intros e He.
    apply Fb in He. now destruct e. }
  assert (Nb : forallb (fun e => negb (is_fail_health_check e)) (rev evsb) = true).
  { rewrite forallb_forall in *. intros e He. apply Qb in He.
    unfold quiet in He. now apply andb_prop in He as [He _]. }
  destruct (perform_health_check_flag settings default_settings) eqn:Hflag;
    destruct (warned_random st) eqn:Hw; cbn [andb negb] in Ea.
  - injection Ea as <- <-. rewrite Wb, Hw in E. cbn in E.
    injection E as _ <-.
    exists evsb. split; [exact Lb|]. rewrite Hw, Wb, Hw. now apply scan_quiet.
  - apply sbind_inv in Ea as ([] & sta1 & Ea1 & Ea).
    injection Ea1 as <-.
    apply sbind_inv in Ea as (wa & sta2 & Ea2 & Ea).
    injection Ea2 as <- <-. injection Ea as <- <-.
    cbn [warned_random log] in *. rewrite Wb, Hw in E. cbn [andb negb] in E.
    apply sbind_inv in E as ([] & stc & Ec & E). injection Ec as <-.
    apply sbind_inv in E as (wc & stc' & Ec & E). injection Ec as <- <-.
    destruct (negb (getglobalrandomstate _ =? getglobalrandomstate _)).
    + apply sbind_inv in E as ([] & std & Ed & E). injection Ed as <-.
      apply sbind_inv in E as (failed & ste & Ee & E).
      assert (st' = ste) as -> by (destruct failed; now injection E).
      clear E. unfold fail_health_check, sbind, emit, sret in Ee.
      cbv beta iota zeta in Ee.
      destruct (strict settings); injection Ee as _ <-;
        cbn [log warned_random]; rewrite Lb.
      * exists (EvFailHealthCheck (global_random_message +:+ health_check_footer)
                :: EvGetRandomState :: evsb ++ [EvGetRandomState])%list.
        split; [cbn [app]; now rewrite <- app_assoc|]. rewrite Hw.
        cbn [rev]. rewrite rev_app_distr. cbn [rev app].
        rewrite <- ?app_assoc. cbn [app scan is_fail_health_check].
        rewrite scan_app, (scan_not_failed _ Nb). reflexivity.
      * exists (EvWarn (FailedHealthCheck
                          (global_random_message +:+ health_check_footer))
                :: EvFailHealthCheck
                     (global_random_message +:+ health_check_footer)
                :: EvGetRandomState :: evsb ++ [EvGetRandomState])%list.
        split; [cbn [app]; now rewrite <- app_assoc|]. rewrite Hw.
        cbn [rev]. rewrite rev_app_distr. cbn [rev app].
        rewrite <- ?app_assoc. cbn [app scan is_fail_health_check].
        rewrite scan_app, (scan_not_failed _ Nb). reflexivity.
    + injection E as _ <-. cbn [log warned_random]. rewrite Lb.
      exists (EvGetRandomState :: evsb ++ [EvGetRandomState])%list.
      split; [cbn [app]; now rewrite <- app_assoc|]. rewrite Wb, Hw.
      cbn [rev]. rewrite rev_app_distr. cbn [rev app].
      rewrite <- ?app_assoc. cbn [app scan is_fail_health_check].
      rewrite scan_app, (scan_not_failed _ Nb). reflexivity.
  - injection Ea as <- <-. rewrite Wb, Hw in E. cbn in E.
    injection E as _ <-.
    exists evsb. split; [exact Lb|]. rewrite Hw, Wb, Hw. now apply scan_quiet.
  - injection Ea as <- <-. rewrite Wb, Hw in E. cbn in E.
    injection E as _ <-.
    exists evsb. split; [exact Lb|]. rewrite Hw, Wb, Hw. now apply scan_quiet.
Qed.

Lemma health_emit e : quiet e = true -> respects health_step (emit e).
Proof.
  intros Hq. eapply health_of_respects; [|apply (step_emit quiet true true e Hq)].
  auto.
Qed.

Ltac by_health lemma :=
  eapply health_of_respects; [|apply lemma]; now intros [].

Ltac health_step_tac :=
  match goal with
  | |- respects _ (sret _) => apply respects_sret; typeclasses eauto
  | |- respects _ (sbind _ _) =>
      apply respects_sbind; [typeclasses eauto | | intros ?]
  | |- respects _ (mbind _ _) =>
      apply respects_mbind; [typeclasses eauto | typeclasses eauto | | intros ?]
  | |- respects _ (emit _) => apply health_emit; reflexivity
  | |- respects _ get_world => by_health (step_get_world quiet true true)
  | |- respects _ get_db => by_health (step_get_db quiet true true)
  | |- respects _ (put_db _) => by_health (step_put_db quiet true)
  | |- respects _ (for_buffer _) => by_health (for_buffer_steps quiet true true)
  | |- respects _ (evaluate_test_data _ _ _) => apply evaluate_test_data_health
  | |- respects _ (match ?x with _ => _ end) => destruct x
  end.

Lemma replay_health key fetched :
  respects health_step (replay settings default_settings key fetched).
Proof.
  induction fetched as [|existing rest IH]; simpl;
    unfold database_delete; repeat health_step_tac; exact IH.
Qed.

Lemma engine_loop_health candidates : forall runner,
  respects health_step (engine_loop settings default_settings candidates runner).
Proof.
  induction candidates as [|buffer rest IH]; intros runner; simpl;
    repeat health_step_tac; apply IH.
Qed.

Lemma TestRunner_run_health random :
  respects health_step (TestRunner_run settings default_settings random).
Proof.
  unfold TestRunner_run. repeat health_step_tac. apply engine_loop_health.
Qed.

Lemma wrapped_test_health use_seed examples arguments kwargs :
  respects health_step
    (wrapped_test settings default_settings use_seed examples arguments kwargs).
Proof.
  unfold wrapped_test.
  apply respects_mbind; [typeclasses eauto | typeclasses eauto | |].
  { by_health run_explicit_examples_steps. }
  intros _. unfold replay_database, database_fetch, search, database_save.
  repeat health_step_tac;
    first [ apply replay_health
          | apply TestRunner_run_health
          | by_health reproduce_steps ].
Qed.

Lemma scan_warned_quiet evs warned' :
  scan true evs = Some warned' -> forallb quiet evs = true.
Proof.
  induction evs as [|e evs IH]; [reflexivity|]. simpl.
  destruct (quiet e); [auto|discriminate].
Qed.

Lemma quiet_not_failed evs :
  forallb quiet evs = true -> List.filter is_fail_health_check evs = [].
Proof.
  induction evs as [|e evs IH]; [reflexivity|]. simpl.
  intros [He Hevs]%andb_prop. unfold quiet in He.
  apply andb_prop in He as [He _]. apply negb_true_iff in He.
  rewrite He. auto.
Qed.

Lemma scan_sound evs : forall warned warned',
  scan warned evs = Some warned' ->
  (length (List.filter is_fail_health_check evs) <= if warned then 0 else 1)%nat
  /\ forall before e after,
       evs = (before ++ e :: after)%list ->
       is_fail_health_check e = true ->
       forallb quiet after = true.
Proof.
  induction evs as [|e0 evs IH]; intros warned warned' Hs.
  - split; [destruct warned; simpl; lia|].
    intros [|? ?] ? ? [=].
  - simpl in Hs. destruct warned.
    + assert (Hq : forallb quiet (e0 :: evs) = true).
      { simpl. destruct (quiet e0); [|discriminate].
        now apply scan_warned_quiet in Hs. }
      split; [now rewrite (quiet_not_failed _ Hq)|].
      intros before e after Heq He. rewrite Heq in Hq.
      rewrite forallb_app in Hq. apply andb_prop in Hq as [_ Hq].
      simpl in Hq. now apply andb_prop in Hq as [_ Hq].
    + destruct (is_fail_health_check e0) eqn:H0.
      * apply scan_warned_quiet in Hs. split.
        { simpl. rewrite H0, (quiet_not_failed _ Hs). simpl. lia. }
        intros before e after Heq He.
        destruct before as [|x before]; simpl in Heq;
          injection Heq as Hx Hrest; subst; [exact Hs|].
        rewrite forallb_app in Hs. apply andb_prop in Hs as [_ Hs].
        simpl in Hs. now apply andb_prop in Hs as [_ Hs].
      * apply IH in Hs as [Hlen Hafter]. split.
        { simpl. rewrite H0. exact Hlen. }
        intros before e after Heq He.
        destruct before as [|x before]; simpl in Heq;
          injection Heq as Hx Hrest; subst; [congruence|].
        eapply Hafter; eauto.
Qed.

(** C7.  On the trace of a call of [wrapped_test] there is at most one
    failed health check (the only one the code can report is that the
    test changed the global random state), and after it the trace is
    quiet: no later candidate evaluation reads the global random state,
    for a snapshot or for a comparison, and none reports again. *)
Theorem global_random_check_fires_at_most_once
    use_seed examples arguments kwargs w d :
  let t := trace (snd (run_wrapped_test settings default_settings use_seed
                         examples arguments kwargs w d)) in
  (length (List.filter is_fail_health_check t) <= 1)%nat
  /\ forall before e after,
       t = (before ++ e :: after)%list ->
       is_fail_health_check e = true ->
       forallb quiet after = true.
Proof.
  intros t. subst t. unfold run_wrapped_test.
  destruct (wrapped_test settings default_settings use_seed examples
              arguments kwargs (initial_state w d)) as [r st'] eqn:E.
  apply wrapped_test_health in E as (evs & L & Hs).
  cbn [snd]. unfold trace. rewrite L. cbn [initial_state log warned_random] in *.
  rewrite app_nil_r. now apply scan_sound in Hs.
Qed.

(** *** From a falsifying buffer to its reproduction *)

Lemma reify_and_execute_keeps data test print_example st r record_repr data0 st0 :
  reify_and_execute data test print_example st = ((r, record_repr, data0), st0) ->
  last_exception st0 = last_exception st
  /\ (status data0 = INTERESTING -> status data = INTERESTING).
Proof.
  unfold reify_and_execute, call, report, sbind, emit, get_world, put_world, sret.
  cbv beta iota zeta. cbn [world log last_exception].
  destruct (draw (data_buffer data) (world st)) as [[args kwargs| |e] w1].
  - destruct print_example; [|destruct current_verbose];
      (destruct test; cbv beta iota zeta; cbn [world log last_exception];
       [destruct (call_test args kwargs w1) as [[r' notes] w2]|];
       intros [= <- <- <- <-]; cbn; auto).
  - intros [= <- <- <- <-]. cbn. split; [reflexivity|discriminate].
  - intros [= <- <- <- <-]. cbn. auto.
Qed.

Lemma evaluate_body_records data st r data' st' :
  evaluate_body settings data st = ((r, data'), st') ->
  (is_Some (last_exception st) -> is_Some (last_exception st'))
  /\ (status data' = INTERESTING ->
      status data = INTERESTING \/ is_Some (last_exception st')).
Proof.
  unfold evaluate_body, test_runner. intros E.
  apply sbind_inv in E as ([[r0 record_repr] data0] & st0 & E0 & E).
  apply reify_and_execute_keeps in E0 as [Hl Hs].
  assert (Hdone : forall x,
            sret (x, data0) st0 = ((r, data'), st') ->
            (is_Some (last_exception st) -> is_Some (last_exception st'))
            /\ (status data' = INTERESTING ->
                status data = INTERESTING \/ is_Some (last_exception st'))).
  { intros x [= <- <- <-]. rewrite Hl. auto. }
  assert (Hrecorded : forall e,
            sbind (set_last_exception (format_exc e) record_repr) (fun _ =>
            sbind (verbose_report (format_exc e)) (fun _ =>
              if negb (frozen data0)
              then let (stop, data1) := mark_interesting data0 in
                   sret (res_bind stop (fun _ => Val PyNone), data1)
              else sret (Val PyNone, data0))) st0 = ((r, data'), st') ->
            (is_Some (last_exception st) -> is_Some (last_exception st'))
            /\ (status data' = INTERESTING ->
                status data = INTERESTING \/ is_Some (last_exception st'))).
  { intros e. unfold sbind, set_last_exception, verbose_report, emit, sret,
      mark_interesting. cbv beta iota zeta.
    destruct (negb (frozen data0)); intros [= <- <- <-];
      cbn [last_exception]; split; eauto. }
  destruct r0 as [result|e].
  - destruct (is_not_None result && perform_health_check settings); eauto.
  - destruct e; cbn [is_Exception] in E; eauto.
    unfold mark_invalid, sret in E. injection E as <- <- <-.
    rewrite Hl. split; [auto|]. cbn. discriminate.
Qed.

Lemma evaluate_test_data_records data st r data' st' :
  evaluate_test_data settings default_settings data st = ((r, data'), st') ->
  (is_Some (last_exception st) -> is_Some (last_exception st'))
  /\ (status data' = INTERESTING ->
      status data = INTERESTING \/ is_Some (last_exception st')).
Proof.
  unfold evaluate_test_data. intros E.
  apply sbind_inv in E as (warned & st0 & E0 & E).
  injection E0 as <- <-.
  apply sbind_inv in E as (initial & st1 & E1 & E).
  assert (H1 : last_exception st1 = last_exception st).
  { revert E1. destruct (_ && _).
    - unfold sbind, emit, get_world, sret. now intros [= <- <-].
    - now intros [= <- <-]. }
  apply sbind_inv in E as ([r2 data2] & st2 & E2 & E).
  apply evaluate_body_records in E2 as [Hkeep Hmark].
  rewrite H1 in Hkeep.
  assert (H3 : data' = data2 /\ last_exception st' = last_exception st2).
  { revert E. unfold fail_health_check.
    unfold sbind, get_warned_random, emit, get_world, set_warned_random, sret.
    cbv beta iota zeta. cbn [snd world warned_random last_exception log].
    destruct (negb (warned_random st2) && _); [|now intros [= <- <- <-]].
    destruct initial as [s0|]; [|now intros [= <- <- <-]].
    destruct (negb (_ =? _)); cbv beta iota zeta; [|now intros [= <- <- <-]].
    destruct (strict settings); cbv beta iota zeta; now intros [= <- <- <-]. }
  destruct H3 as [-> H3]. rewrite H3. auto.
Qed.

Lemma for_buffer_fresh buffer st data st1 :
  for_buffer buffer st = (data, st1) ->
  status data = VALID /\ last_exception st1 = last_exception st.
Proof.
  unfold for_buffer, sbind, fresh_id, sret. intros [= <- <-]. auto.
Qed.

Lemma replay_records key fetched : forall st falsifying_example st',
  replay settings default_settings key fetched st
  = (Val (Some falsifying_example), st') ->
  is_Some (last_exception st').
Proof.
  induction fetched as [|existing rest IH]; intros st fe st'; cbn [replay].
  - intros [= ]. 
  - intros E.
    apply sbind_inv in E as (data & st1 & E1 & E).
    apply for_buffer_fresh in E1 as [Hv _].
    apply sbind_inv in E as ([r data'] & st2 & E2 & E).
    apply evaluate_test_data_records in E2 as [_ Hmark].
    destruct (except_own_StopTest data' r); [|discriminate].
    revert E. unfold sbind at 1. unfold emit at 1. cbv beta iota zeta.
    unfold sbind at 1.
    destruct (status_eqb (status data') INTERESTING) eqn:Es.
    + apply status_eqb_eq in Es.
      destruct (Hmark Es) as [Hi|Hsome]; [congruence|].
      rewrite Es. cbn [status_ltb status_rank Z.ltb Z.compare Pos.compare
                       Pos.compare_cont].
      unfold sret. intros [= _ <-]. exact Hsome.
    + destruct (status_ltb (status data') VALID).
      * unfold database_delete, sbind, emit, get_db, put_db.
        cbv beta iota zeta. apply IH.
      * unfold sret. cbv beta iota zeta. apply IH.
Qed.

Lemma engine_loop_records candidates : forall runner st runner' st',
  (status (last_data runner) = INTERESTING -> is_Some (last_exception st)) ->
  engine_loop settings default_settings candidates runner st
  = (Val runner', st') ->
  status (last_data runner') = INTERESTING -> is_Some (last_exception st').
Proof.
  induction candidates as [|buffer rest IH]; intros runner st runner' st' Hinv;
    cbn [engine_loop].
  - intros [= <- <-]. exact Hinv.
  - intros E.
    apply sbind_inv in E as (data & st1 & E1 & E).
    apply for_buffer_fresh in E1 as [Hv Hl1].
    apply sbind_inv in E as ([r data'] & st2 & E2 & E).
    apply evaluate_test_data_records in E2 as [Hkeep Hmark].
    destruct (except_own_StopTest data' r); [|discriminate].
    revert E. apply IH. unfold consider. cbn [last_data].
    destruct (status_eqb (status data') INTERESTING) eqn:Es; cbn [orb].
    + intros Hi. destruct (Hmark Hi) as [Hbad|Hsome]; [congruence|exact Hsome].
    + destruct (status_eqb (status (last_data runner)) INTERESTING) eqn:El;
        cbn [negb].
      * intros Hi. apply Hkeep. rewrite Hl1. auto.
      * intros Hi. rewrite (status_eqb_neq (status data') INTERESTING) in Es
          by (intros Hq; rewrite (proj2 (status_eqb_eq _ _) Hq) in Es;
              discriminate).
        destruct (Hmark Hi) as [Hbad|Hsome]; [congruence|exact Hsome].
Qed.

Lemma search_records key random st falsifying_example st' :
  search settings default_settings key random st
  = (Val (Some falsifying_example), st') ->
  is_Some (last_exception st').
Proof.
  unfold search. intros E.
  apply sbind_inv in E as (w0 & st0 & E0 & E). injection E0 as <- <-.
  apply sbind_inv in E as ([] & st1 & E1 & E). injection E1 as <-.
  unfold mbind in E.
  apply sbind_inv in E as (rr & st2 & E2 & E).
  destruct rr as [runner|e]; [|discriminate].
  assert (Hrun : status (last_data runner) = INTERESTING ->
                 is_Some (last_exception st2)).
  { revert E2. unfold TestRunner_run.
    destruct (engine_candidates random) as [first rest]. intros E2.
    apply sbind_inv in E2 as (data & sa & Ea & E2).
    apply for_buffer_fresh in Ea as [Hv _].
    apply sbind_inv in E2 as ([r data'] & sb & Eb & E2).
    apply evaluate_test_data_records in Eb as [_ Hmark].
    destruct (except_own_StopTest data' r); [|discriminate].
    revert E2. apply engine_loop_records. cbn [last_data].
    intros Hi. destruct (Hmark Hi) as [Hbad|Hsome]; [congruence|exact Hsome]. }
  apply sbind_inv in E as (w1 & st3 & E3 & E). injection E3 as <- <-.
  destruct (status_eqb (status (last_data runner)) INTERESTING) eqn:Es.
  - apply status_eqb_eq in Es. specialize (Hrun Es).
    revert E. unfold sbind.
    destruct (has_database settings).
    + unfold database_save, sbind, emit, get_db, put_db, sret.
      cbv beta iota zeta. intros [= _ <-]. exact Hrun.
    + unfold sret. intros [= _ <-]. exact Hrun.
  - destruct (_ <? _); [destruct (_ && _)|]; discriminate.
Qed.

Lemma replay_database_records key st falsifying_example st' :
  replay_database settings default_settings key st
  = (Val (Some falsifying_example), st') ->
  is_Some (last_exception st').
Proof.
  unfold replay_database. destruct (has_database settings); [|discriminate].
  intros E. apply sbind_inv in E as (fetched & st1 & _ & E).
  eapply replay_records; eauto.
Qed.

(** C2, as the code has it.  When a call of [wrapped_test] comes to a
    falsifying buffer, by the replay of the database or by the search, a
    failure has been recorded and all that the call still does is the
    reproduction on that buffer, from the state in which the buffer was
    found.  The first thing the reproduction does is to draw from a byte
    source rebuilt from that buffer and call the test again: every report
    and the outcome come after.  An error of that re-execution is the
    outcome: the error of the test or of the strategy, with an unsatisfied
    assumption becoming [Flaky], and [StopTest] when the buffer is too
    short for the draw.  When the re-execution raises nothing, the test is
    executed once more on the buffer with its body replaced by one that
    raises [Flaky]: the outcome is [Flaky] when that draw returns
    arguments, with one message when their text is the recorded one and
    another when it is not, and when it raises [UnsatisfiedAssumption];
    any other error of that draw is the outcome instead. *)
Theorem reproduction_protocol
    use_seed examples arguments kwargs w d
    (falsifying_example : Buffer) (st : RunState) :
  finds_falsifying_example settings default_settings use_seed examples
    arguments kwargs w d falsifying_example st ->
  let run := run_wrapped_test settings default_settings use_seed examples
               arguments kwargs w d in
  run = reproduce falsifying_example st
  /\ is_Some (last_exception st)
  /\ (exists rest,
        trace (snd run) = (trace st ++ EvDraw falsifying_example :: rest)%list)
  /\ (forall w1,
        draw falsifying_example (world st) = (DrawOverrun, w1) ->
        run = (Exc (StopTest (next_id st)),
               moved_on w1 [EvDraw falsifying_example]
                 (snd (fresh_id st))))
  /\ (forall e w1,
        draw falsifying_example (world st) = (DrawRaised e, w1) ->
        fst run = Exc (match e with
                       | UnsatisfiedAssumption => Flaky unreliable_assumption
                       | _ => e
                       end)
        /\ world (snd run) = w1)
  /\ (forall args' kwargs' w1 e notes w2,
        draw falsifying_example (world st) = (Drew args' kwargs', w1) ->
        call_test args' kwargs' w1 = (Exc e, notes, w2) ->
        fst run = Exc (match e with
                       | UnsatisfiedAssumption => Flaky unreliable_assumption
                       | _ => e
                       end)
        /\ world (snd run) = w2)
  /\ (forall args' kwargs' w1 result notes w2,
        draw falsifying_example (world st) = (Drew args' kwargs', w1) ->
        call_test args' kwargs' w1 = (Val result, notes, w2) ->
        world (snd run) = snd (draw falsifying_example w2)
        /\ match fst (draw falsifying_example w2) with
           | Drew args'' kwargs'' =>
               let text_repr := arg_string args'' kwargs'' in
               fst run
               = Exc (Flaky (if bool_decide
                                  (Some text_repr = repr_for_last_exception st)
                             then flaky_same_repr text_repr
                             else flaky_other_repr (repr_for_last_exception st)
                                    text_repr))
               /\ flaky_same_repr text_repr
                  <> flaky_other_repr (repr_for_last_exception st) text_repr
           | DrawRaised UnsatisfiedAssumption =>
               fst run = Exc (Flaky unreliable_test_data)
           | DrawRaised e => fst run = Exc e
           | DrawOverrun => fst run = Exc (StopTest (S (next_id st)))
           end).
Proof.
  intros (st1 & Hex & Hmax & Hval & Hfound) run.
  assert (Hrun : run = reproduce falsifying_example st).
  { subst run. unfold run_wrapped_test, wrapped_test, mbind.
    rewrite (sbind_run _ _ _ _ _ Hex).
    destruct (max_examples settings <=? 0) eqn:Emax; [lia|].
    rewrite Hval. unfold sret at 1. unfold sbind at 1.
    destruct Hfound as [Hrep|(st2 & Hrep & Hsearch)];
      rewrite (sbind_run _ _ _ _ _ Hrep).
    - reflexivity.
    - unfold sbind at 1. rewrite Hsearch. reflexivity. }
  assert (Hrecorded : is_Some (last_exception st)).
  { destruct Hfound as [Hrep|(st2 & Hrep & Hsearch)].
    - eapply replay_database_records; eauto.
    - eapply search_records; eauto. }
  clearbody run. subst run.
  split; [reflexivity|]. split; [exact Hrecorded|].
  now apply reproduce_from_recorded_failure.
Qed.

(** *** Once a falsifying buffer is found *)

(** X19.  Once a call of [wrapped_test] has a falsifying buffer it never
    returns normally: the re-execution of the test on it ends with an
    exception in every case, be it the error of the test, [Flaky], the
    failed assertion that an exception was recorded, or what the draw
    raised. *)
Theorem reproduce_always_raises (falsifying_example : Buffer) (st : RunState) :
  exists e, fst (reproduce falsifying_example st) = Exc e.
Proof.
  unfold reproduce.
  unfold sbind at 1. unfold get_last_exception at 1. cbn [fst].
  destruct (last_exception st) as [tb|]; [|unfold sret; eauto].
  unfold sbind at 1.
  destruct (execute_final falsifying_example TheTest st) as [[v|e] st1].
  - unfold sbind, get_last_exception, report, emit. cbv beta iota zeta.
    cbn [fst snd].
    match goal with
    | |- context [execute_final falsifying_example (TestOrFlaky ?x) ?s] =>
        pose proof (execute_final_TestOrFlaky falsifying_example x s) as H2;
        destruct (execute_final falsifying_example (TestOrFlaky x) s)
          as [r2 st2]
    end.
    cbn [fst] in H2. subst r2.
    match goal with
    | |- context [fst (draw ?b ?w)] => destruct (fst (draw b w)) as [a k| |e]
    end.
    + rewrite test_or_flaky_raises. unfold sret. eauto.
    + unfold sret. eauto.
    + destruct e; unfold sret; eauto.
  - destruct e; unfold sbind, report, emit, sret; eauto.
Qed.

(** *** A run that generates nothing *)

(** X20.  With [settings.max_examples <= 0] a call of [wrapped_test] runs
    the explicit examples and nothing else: its outcome and its final
    state are those of the loop over the explicit examples, the trace
    holds only their calls and reports, so the strategy is neither
    validated nor drawn from, the database is not touched and the engine
    is not run. *)
Theorem only_explicit_examples_without_max_examples
    use_seed examples arguments kwargs w d :
  max_examples settings <= 0 ->
  let run := run_wrapped_test settings default_settings use_seed examples
               arguments kwargs w d in
  run = run_explicit_examples (rev examples) arguments kwargs (initial_state w d)
  /\ forallb explicit_event (trace (snd run)) = true
  /\ db (snd run) = d.
Proof.
  intros Hmax run. subst run.
  assert (Heq : run_wrapped_test settings default_settings use_seed examples
                  arguments kwargs w d
                = run_explicit_examples (rev examples) arguments kwargs
                    (initial_state w d)).
  { unfold run_wrapped_test, wrapped_test, mbind.
    destruct (run_explicit_examples (rev examples) arguments kwargs
                (initial_state w d)) as [r st1] eqn:E1.
    rewrite (sbind_run _ _ _ _ _ E1).
    destruct r as [[]|e]; [|reflexivity].
    replace (max_examples settings <=? 0) with true
      by (symmetry; apply Z.leb_le; exact Hmax).
    reflexivity. }
  rewrite Heq. split; [reflexivity|].
  destruct (run_explicit_examples (rev examples) arguments kwargs
              (initial_state w d)) as [r st1] eqn:E1.
  pose proof (run_explicit_examples_steps _ _ _ _ _ _ E1) as Hs.
  cbn [snd]. split.
  - apply step_trace in Hs as (evs & Ht & Hall).
    rewrite Ht. unfold trace. cbn [initial_state log rev app]. exact Hall.
  - now rewrite (step_db _ _ _ _ _ Hs eq_refl).
Qed.

(** *** A discipline that the evaluations keep is kept by the run *)

Section Discipline.
Variables (P : Event -> bool) (kd kw : bool).
Hypothesis P_execution : forall e, execution_event e = true -> P e = true.
Hypothesis P_explicit : forall e, explicit_event e = true -> P e = true.
Hypothesis P_engine : P EvEngineRun = true.
Hypothesis P_classified : forall b s, P (EvClassified b s) = true.
Hypothesis P_database :
  has_database settings = true ->
  kd = false
  /\ P (EvFetch qualified_name) = true
  /\ forall b, P (EvDelete qualified_name b) = true
               /\ P (EvSave qualified_name b) = true.
Hypothesis P_evaluate : forall data,
  respects (step P true kw) (evaluate_test_data settings default_settings data).

Lemma evaluate_test_data_kept data :
  respects (step P kd kw) (evaluate_test_data settings default_settings data).
Proof.
  eapply respects_weaken; [|apply P_evaluate].
  intros ? ?. apply step_weaken; auto.
Qed.

Lemma database_step_kept {A} (m : Run A) :
  has_database settings = true ->
  respects (step P false kw) m -> respects (step P kd kw) m.
Proof.
  intros Hdb. destruct (P_database Hdb) as [Hkd _].
  apply respects_weaken. intros ? ?. apply step_weaken; auto.
  intros K. rewrite Hkd in K. discriminate.
Qed.

Lemma replay_kept fetched :
  has_database settings = true ->
  respects (step P kd kw)
    (replay settings default_settings qualified_name fetched).
Proof.
  intros Hdb. destruct (P_database Hdb) as (_ & _ & Hb).
  induction fetched as [|existing rest IH]; cbn [replay].
  - apply respects_sret; typeclasses eauto.
  - apply respects_sbind; [typeclasses eauto | apply for_buffer_steps |].
    intros data.
    apply respects_sbind; [typeclasses eauto | apply evaluate_test_data_kept |].
    intros [r data'].
    destruct (except_own_StopTest data' r);
      [|apply respects_sret; typeclasses eauto].
    apply respects_sbind; [typeclasses eauto | apply step_emit, P_classified |].
    intros _.
    apply respects_sbind; [typeclasses eauto | |].
    + destruct (status_ltb _ _); [|apply respects_sret; typeclasses eauto].
      apply database_step_kept; [exact Hdb|].
      unfold database_delete.
      apply respects_sbind; [typeclasses eauto | apply step_emit, Hb |].
      intros _. run_steps.
    + intros _. destruct (status_eqb _ _); [|exact IH].
      apply respects_sret; typeclasses eauto.
Qed.

Lemma replay_database_kept :
  respects (step P kd kw)
    (replay_database settings default_settings qualified_name).
Proof.
  unfold replay_database. case_eq (has_database settings); intros Hdb;
    [|apply respects_sret; typeclasses eauto].
  destruct (P_database Hdb) as (_ & Hf & _).
  apply respects_sbind; [typeclasses eauto | |].
  - unfold database_fetch.
    apply respects_sbind; [typeclasses eauto | apply step_emit, Hf |].
    intros _. run_steps.
  - intros fetched. now apply replay_kept.
Qed.

Lemma engine_loop_kept candidates : forall runner,
  respects (step P kd kw)
    (engine_loop settings default_settings candidates runner).
Proof.
  induction candidates as [|buffer rest IH]; intros runner; cbn [engine_loop].
  - apply respects_sret; typeclasses eauto.
  - apply respects_sbind; [typeclasses eauto | apply for_buffer_steps |].
    intros data.
    apply respects_sbind; [typeclasses eauto | apply evaluate_test_data_kept |].
    intros [r data'].
    destruct (except_own_StopTest data' r);
      [apply IH | apply respects_sret; typeclasses eauto].
Qed.

Lemma TestRunner_run_kept random :
  respects (step P kd kw) (TestRunner_run settings default_settings random).
Proof.
  unfold TestRunner_run. destruct (engine_candidates random) as [first rest].
  apply respects_sbind; [typeclasses eauto | apply for_buffer_steps |].
  intros data.
  apply respects_sbind; [typeclasses eauto | apply evaluate_test_data_kept |].
  intros [r data'].
  destruct (except_own_StopTest data' r);
    [apply engine_loop_kept | apply respects_sret; typeclasses eauto].
Qed.

Lemma search_kept random :
  respects (step P kd kw)
    (search settings default_settings qualified_name random).
Proof.
  unfold search.
  apply respects_sbind; [typeclasses eauto | apply step_get_world |].
  intros w0.
  apply respects_sbind; [typeclasses eauto | apply step_emit, P_engine |].
  intros _.
  apply respects_mbind;
    [typeclasses eauto | typeclasses eauto | apply TestRunner_run_kept |].
  intros runner.
  apply respects_sbind; [typeclasses eauto | apply step_get_world |].
  intros w1. destruct (status_eqb _ _).
  - apply respects_sbind; [typeclasses eauto | |].
    + case_eq (has_database settings); intros Hdb;
        [|apply respects_sret; typeclasses eauto].
      destruct (P_database Hdb) as (_ & _ & Hb).
      apply database_step_kept; [exact Hdb|].
      unfold database_save.
      apply respects_sbind; [typeclasses eauto | apply step_emit, Hb |].
      intros _. run_steps.
    + intros _. apply respects_sret; typeclasses eauto.
  - destruct (_ <? _); [destruct (_ && _)|]; apply respects_sret; typeclasses eauto.
Qed.

Lemma wrapped_test_kept use_seed examples arguments kwargs :
  respects (step P kd kw)
    (wrapped_test settings default_settings use_seed examples arguments kwargs).
Proof.
  unfold wrapped_test.
  apply respects_mbind; [typeclasses eauto | typeclasses eauto | |].
  { eapply respects_weaken; [|apply run_explicit_examples_steps].
    intros ? ?. apply step_weaken; auto. }
  intros _. destruct (_ <=? _); [apply respects_sret; typeclasses eauto|].
  apply respects_mbind;
    [typeclasses eauto | typeclasses eauto
    | apply respects_sret; typeclasses eauto |].
  intros _.
  apply respects_mbind;
    [typeclasses eauto | typeclasses eauto | apply replay_database_kept |].
  intros found.
  apply respects_mbind; [typeclasses eauto | typeclasses eauto | |].
  { destruct found; [apply respects_sret; typeclasses eauto | apply search_kept]. }
  intros [falsifying_example|]; [|apply respects_sret; typeclasses eauto].
  eapply respects_weaken; [|apply reproduce_steps].
  intros ? ?. apply step_weaken; auto.
Qed.

End Discipline.

(** *** The database *)

(** X21.  A call of [wrapped_test] reaches the database under one key
    only, the fully qualified name of the test, and only if
    [settings.database] is set: every fetch, delete and save on its trace
    is under that key, and without a database there is none and the stored
    buffers are what they were. *)
Theorem database_only_under_the_key_of_the_test
    use_seed examples arguments kwargs w d :
  let st' := snd (run_wrapped_test settings default_settings use_seed examples
                    arguments kwargs w d) in
  (forall e key,
     In e (trace st') -> MoreTraces.database_key_of e = Some key ->
     key = qualified_name /\ has_database settings = true)
  /\ (has_database settings = false -> db st' = d).
Proof.
  intros st'. subst st'. unfold run_wrapped_test.
  destruct (wrapped_test settings default_settings use_seed examples arguments
              kwargs (initial_state w d)) as [r st'] eqn:E.
  assert (Hs : step (MoreTraces.database_discipline qualified_name
                       (has_database settings))
                 (negb (has_database settings)) false (initial_state w d) st').
  { revert E. apply wrapped_test_kept.
    - now intros [].
    - now intros [].
    - reflexivity.
    - reflexivity.
    - intros ->. unfold MoreTraces.database_discipline. cbn.
      rewrite bool_decide_eq_true_2 by reflexivity. auto.
    - intros data. eapply respects_weaken; [|apply evaluate_test_data_steps].
      intros ? ?. apply step_weaken; [now intros [] | auto | discriminate]. }
  cbn [snd]. split.
  - intros e key Hin Hkey.
    apply step_trace in Hs as (evs & Ht & Hall).
    unfold trace in Ht at 2. cbn [initial_state log rev app] in Ht.
    rewrite Ht in Hin. rewrite forallb_forall in Hall.
    specialize (Hall e Hin). unfold MoreTraces.database_discipline in Hall.
    rewrite Hkey in Hall. apply andb_true_iff in Hall as [Hdb Hk].
    apply bool_decide_eq_true in Hk. auto.
  - intros Hdb. rewrite (step_db _ _ _ _ _ Hs); [reflexivity|].
    now rewrite Hdb.
Qed.

(** *** The check of the global random state, switched off *)

Lemma evaluate_test_data_unchecked data :
  perform_health_check_flag settings default_settings = false ->
  respects (step MoreTraces.no_random_check true true)
    (evaluate_test_data settings default_settings data).
Proof.
  intros Hflag. unfold evaluate_test_data. rewrite Hflag.
  apply respects_sbind; [typeclasses eauto | apply step_get_warned_random |].
  intros warned. cbn [andb].
  apply respects_sbind;
    [typeclasses eauto | apply respects_sret; typeclasses eauto |].
  intros initial.
  apply respects_sbind; [typeclasses eauto | by_phase evaluate_body_steps |].
  intros outcome.
  apply respects_sbind; [typeclasses eauto | apply step_get_warned_random |].
  intros warned'. rewrite andb_false_r.
  apply respects_sret; typeclasses eauto.
Qed.

(** X22.  When the health checks are switched off, in [settings] or in
    the default settings, a call of [wrapped_test] never reads the state
    of the global random module, never fails a health check through
    [fail_health_check] and never warns, however many candidates it
    evaluates; the flag [warned_random] stays unset. *)
Theorem no_global_random_check_without_health_check
    use_seed examples arguments kwargs w d :
  perform_health_check_flag settings default_settings = false ->
  let st' := snd (run_wrapped_test settings default_settings use_seed examples
                    arguments kwargs w d) in
  forallb MoreTraces.no_random_check (trace st') = true
  /\ warned_random st' = false.
Proof.
  intros Hflag st'. subst st'. unfold run_wrapped_test.
  destruct (wrapped_test settings default_settings use_seed examples arguments
              kwargs (initial_state w d)) as [r st'] eqn:E.
  assert (Hs : step MoreTraces.no_random_check false true (initial_state w d) st').
  { revert E. apply wrapped_test_kept.
    - now intros [].
    - now intros [].
    - reflexivity.
    - reflexivity.
    - intros _. auto.
    - intros data. now apply evaluate_test_data_unchecked. }
  cbn [snd]. split.
  - apply step_trace in Hs as (evs & Ht & Hall).
    rewrite Ht. unfold trace. cbn [initial_state log rev app]. exact Hall.
  - now rewrite (step_warned _ _ _ _ _ Hs eq_refl).
Qed.

(** *** The failure that goes with a falsifying buffer *)

(** X23.  Whenever the replay of the database or the search ends with a
    falsifying buffer, an exception has been recorded in
    [last_exception]: the assertion [last_exception[0] is not None] that
    [wrapped_test] makes before it re-executes the test holds whenever it
    is reached. *)
Theorem falsifying_buffer_has_a_recorded_failure
    (key : string) (random : Seed) (st : RunState) (falsifying_example : Buffer) :
  (fst (replay_database settings default_settings key st)
   = Val (Some falsifying_example) ->
   is_Some (last_exception
              (snd (replay_database settings default_settings key st))))
  /\ (fst (search settings default_settings key random st)
      = Val (Some falsifying_example) ->
      is_Some (last_exception
                 (snd (search settings default_settings key random st)))).
Proof.
  split.
  - unfold replay_database. destruct (has_database settings); [|discriminate].
    unfold sbind at 1 2.
    destruct (database_fetch key st) as [fetched st1].
    destruct (replay settings default_settings key fetched st1) as [r st2] eqn:E.
    cbn [fst snd]. intros ->. eapply replay_records; eauto.
  - destruct (search settings default_settings key random st) as [r st2] eqn:E.
    cbn [fst snd]. intros ->. eapply search_records; eauto.
Qed.

(** *** Saving what the search finds *)

(** X24.  When there is a database and the search ends with a falsifying
    buffer, the buffer is saved under the key of the test: the save is the
    last thing the search does, after the engine has finished, and the
    buffer is then among those stored under the key. *)
Theorem found_example_is_saved
    (key : string) (random : Seed) (st : RunState)
    (falsifying_example : Buffer) (st' : RunState) :
  has_database settings = true ->
  search settings default_settings key random st
  = (Val (Some falsifying_example), st') ->
  (exists earlier,
     trace st' = (earlier ++ [EvSave key falsifying_example])%list
     /\ In EvEngineRun earlier)
  /\ falsifying_example ∈ default [] (db st' !! key).
Proof.
  intros Hdb. unfold search. intros E.
  apply sbind_inv in E as (w0 & st0 & E0 & E). injection E0 as <- <-.
  apply sbind_inv in E as ([] & st1 & E1 & E). injection E1 as <-.
  unfold mbind in E.
  apply sbind_inv in E as (rr & st2 & E2 & E).
  destruct rr as [runner|e]; [|discriminate].
  apply TestRunner_run_steps in E2 as [(evs & L & _) _ _].
  apply sbind_inv in E as (w1 & st3 & E3 & E). injection E3 as <- <-.
  destruct (status_eqb (status (last_data runner)) INTERESTING);
    [|destruct (_ <? _); [destruct (_ && _)|]; discriminate].
  rewrite Hdb in E. revert E.
  unfold database_save, sbind, emit, get_db, put_db, sret.
  cbv beta iota zeta. intros [= <- <-].
  cbn [db log]. split.
  - exists (rev (log st2)). unfold trace. cbn [log rev]. split; [reflexivity|].
    apply in_rev. rewrite rev_involutive, L. apply in_or_app. right.
    cbn [log]. left. reflexivity.
  - rewrite lookup_insert_eq.
    destruct (bool_decide _) eqn:Eb.
    + now apply bool_decide_eq_true in Eb.
    + apply elem_of_app. right. apply list_elem_of_singleton. reflexivity.
Qed.

End Facts.


(** *** The statements at concrete runs *)

Lemma returned_value_raises_whatever_strict_witness :
  let outcome :=
    fst (fst (evaluate_test_data (H := scripted returns_1) plain_settings None
                data_1 (fresh_run returns_1 ∅))) in
  (exists message, outcome = Exc (FailedHealthCheck message))
  /\ (strict plain_settings = false ->
      outcome = Exc (FailedHealthCheck
                       (returned_value_message (H := scripted returns_1)
                          (PyInt 1)))).
Proof.
  apply (returned_value_raises_whatever_strict (H := scripted returns_1)
           plain_settings None data_1 (fresh_run returns_1 ∅)
           [] {[ "n" := PyInt 1 ]} 1%nat (PyInt 1) [] 2%nat);
    vm_compute; reflexivity.
Defined.

(** Without [strict], a test that returns 1 makes the evaluation raise:
    the failure is not turned into a warning. *)
Lemma returned_value_is_raised_without_strict :
  strict plain_settings = false
  /\ perform_health_check plain_settings = true
  /\ fst (fst (evaluate_test_data (H := scripted returns_1) plain_settings None
                 data_1 (fresh_run returns_1 ∅)))
     = Exc (FailedHealthCheck
              "Tests run under @given should return None, but test returned 1 instead.")
  /\ map describe
       (trace (snd (evaluate_test_data (H := scripted returns_1) plain_settings
                      None data_1 (fresh_run returns_1 ∅))))
     = ["getstate"; "draw 1"; "call 1"; "getstate"].
Proof. vm_compute. auto. Qed.

Lemma reproduction_protocol_witness :
  fst (run_wrapped_test (H := scripted fails_once) hasty_settings None None
         [] [] ∅ 0%nat ∅)
  = Exc (Flaky (flaky_same_repr (H := scripted fails_once) "n=7")).
Proof.
  pose (found := search (H := scripted fails_once) hasty_settings None
                   "tests.test" SeedFresh (fresh_run fails_once ∅)).
  assert (Hfinds : finds_falsifying_example (H := scripted fails_once)
                     hasty_settings None None [] [] ∅ 0%nat ∅ [x07]
                     (snd found)).
  { exists (fresh_run fails_once ∅).
    split; [reflexivity|]. split; [reflexivity|]. split; [reflexivity|].
    right. exists (fresh_run fails_once ∅). split; [reflexivity|].
    vm_compute. reflexivity. }
  pose proof (reproduction_protocol (H := scripted fails_once) hasty_settings
                None None [] [] ∅ 0%nat ∅ [x07] (snd found) Hfinds)
    as (_ & _ & _ & _ & _ & _ & Hflaky).
  assert (Hdraw : draw (World := scripted fails_once) [x07] (world (snd found))
                  = (Drew [] {[ "n" := PyInt 7 ]}, 3%nat))
    by (vm_compute; reflexivity).
  assert (Hcall : call_test (World := scripted fails_once) []
                    {[ "n" := PyInt 7 ]} 3%nat
                  = (Val PyNone, [], 4%nat))
    by (vm_compute; reflexivity).
  specialize (Hflaky _ _ _ _ _ _ Hdraw Hcall).
  exact (proj1 (proj2 Hflaky)).
Defined.

(** A test fails once and passes on re-execution, and the strategy raises
    on the draw after that: the run ends in the error of the strategy, not
    in [Flaky]. *)
Lemma failed_reproduction_without_Flaky :
  fst (run_wrapped_test (H := scripted fails_once_then_strategy_raises)
         hasty_settings None None [] [] ∅ 0%nat ∅)
  = Exc (UserException 7)
  /\ map describe
       (trace (snd (run_wrapped_test
                      (H := scripted fails_once_then_strategy_raises)
                      hasty_settings None None [] [] ∅ 0%nat ∅)))
     = ["engine"; "getstate"; "draw 7"; "call 7";
        "verbose: Traceback: error 1"; "getstate";
        "draw 7"; "report: Falsifying example: test(n=7)"; "call 7";
        "report: " +:+ failed_to_reproduce "Traceback: error 1";
        "draw 7"]
  /\ fst (reproduce (H := scripted fails_once_then_strategy_raises) [x07]
            (recorded_failure fails_once_then_strategy_raises))
     = Exc (UserException 7)
  /\ is_Flaky (UserException 7) = false.
Proof. vm_compute. auto. Qed.

(** The same test with a reliable strategy is reported as flaky. *)
Example flaky_test_is_reported :
  fst (run_wrapped_test (H := scripted fails_once) hasty_settings None None
         [] [] ∅ 0%nat ∅)
  = Exc (Flaky "Hypothesis test(n=7) produces unreliable results: Falsified on the first call but did not on a subsequent one").
Proof. vm_compute. reflexivity. Qed.

Lemma search_without_failure_outcome_witness :
  fst (run_wrapped_test (H := scripted assumes_false) hasty_settings None None
         [] [] ∅ 0%nat ∅)
  = Exc (Timeout 0 (6 # 1)).
Proof.
  pose (out := TestRunner_run (H := scripted assumes_false) hasty_settings None
                 (derive_random hasty_settings None)
                 (snd (emit EvEngineRun (fresh_run assumes_false ∅)))).
  pose (runner := match fst out with
                  | Val runner => runner
                  | Exc _ => {| last_data := data_1; valid_examples := 0 |}
                  end).
  assert (Hex : run_explicit_examples (H := scripted assumes_false) (rev [])
                  [] ∅ (initial_state (H := scripted assumes_false) 0%nat ∅)
                = (Val tt, fresh_run assumes_false ∅)) by reflexivity.
  assert (Hmax : 0 < max_examples hasty_settings) by reflexivity.
  assert (Hval : validate (World := scripted assumes_false) = Val tt)
    by reflexivity.
  assert (Hrep : replay_database (H := scripted assumes_false) hasty_settings
                   None (qualified_name (World := scripted assumes_false))
                   (fresh_run assumes_false ∅)
                 = (Val None, fresh_run assumes_false ∅)) by reflexivity.
  assert (Hrun : TestRunner_run (H := scripted assumes_false) hasty_settings
                   None (derive_random hasty_settings None)
                   (snd (emit EvEngineRun (fresh_run assumes_false ∅)))
                 = (Val runner, snd out)) by (vm_compute; reflexivity).
  assert (Hstatus : status (last_data runner) <> INTERESTING)
    by (vm_compute; discriminate).
  pose proof (search_without_failure_outcome (H := scripted assumes_false)
                hasty_settings None None [] [] ∅ 0%nat ∅ _ _ _ _
                Hex Hmax Hval Hrep Hrun Hstatus) as (Htimeout & _ & _).
  rewrite Htimeout.
  - vm_compute. reflexivity.
  - vm_compute. reflexivity.
  - split; vm_compute; [reflexivity | discriminate].
Defined.

(** With a longer timeout the same run is unsatisfiable, and a test that
    passes on enough examples returns. *)
Example search_outcomes :
  fst (run_wrapped_test (H := scripted assumes_false) plain_settings None None
         [] [] ∅ 0%nat ∅)
  = Exc (Unsatisfiable 0)
  /\ fst (run_wrapped_test (H := scripted passes) plain_settings None None
            [] [] ∅ 0%nat ∅)
     = Val tt.
Proof. vm_compute. auto. Qed.

Lemma database_replay_finds_stored_failure_witness :
  let start := fresh_run fails_from_5_rejects_9 stored_buffers in
  let key := qualified_name (World := scripted fails_from_5_rejects_9) in
  let replayed := replay_database (H := scripted fails_from_5_rejects_9)
                    plain_settings None key start in
  let run := run_wrapped_test (H := scripted fails_from_5_rejects_9)
               plain_settings None None [] [] ∅ 0%nat stored_buffers in
  has_database plain_settings = true
  /\ replayed
     = replay_stored (H := scripted fails_from_5_rejects_9) plain_settings None
         key (default [] (db start !! key))
         (moved_on (H := scripted fails_from_5_rejects_9) (world start)
            [EvFetch key] start)
  /\ In ([x07], INTERESTING) (classifications (trace (snd run)))
  /\ forallb (fun e => negb (is_engine_run e)) (trace (snd run)) = true
  /\ run = reproduce (H := scripted fails_from_5_rejects_9) [x07] (snd replayed).
Proof.
  intros start key replayed run.
  pose proof (database_replay_finds_stored_failure
                (H := scripted fails_from_5_rejects_9)
                plain_settings None None [] [] ∅ 0%nat stored_buffers)
    as (Hreplay & Hrun & Hreproduce).
  assert (Hin : In ([x07], INTERESTING) (classifications (trace (snd run))))
    by (vm_compute; auto).
  split; [reflexivity|]. split; [|split; [exact Hin|split]].
  - exact (proj1 (Hreplay start eq_refl)).
  - exact (proj1 (Hrun [x07] Hin)).
  - apply (Hreproduce start [x07] (snd replayed));
      [reflexivity | reflexivity | reflexivity | reflexivity |].
    vm_compute. reflexivity.
Defined.

(** The stored buffers 9, 7 and 8: 9 is rejected and deleted, 7 fails and
    is reproduced, 8 is not replayed, and the engine is not run. *)
Example database_replay_run :
  let run := run_wrapped_test (H := scripted fails_from_5_rejects_9)
               plain_settings None None [] [] ∅ 0%nat stored_buffers in
  fst run = Exc (UserException 1)
  /\ map describe (trace (snd run))
     = ["fetch"; "getstate"; "draw 9"; "call 9"; "getstate"; "classified 9";
        "delete 9"; "getstate"; "draw 7"; "call 7";
        "verbose: Traceback: error 1"; "getstate"; "classified 7"; "draw 7";
        "report: Falsifying example: test(n=7)"; "call 7"]
  /\ db (snd run) !! "tests.test" = Some [[x07]; [x08]].
Proof. vm_compute. auto. Qed.

(** Three explicit examples, added in the order 3, 6, 4: a test that
    passes is called on 4, 6 and 3 before anything else; a test that fails
    from 5 on is called on 4 and 6, and the run ends there. *)
Example explicit_examples_runs :
  map describe
    (trace (snd (run_wrapped_test (H := scripted passes) plain_settings None
                   None three_examples [] ∅ 0%nat ∅)))
  = ["explicit 4"; "explicit 6"; "explicit 3"; "fetch"; "engine";
     "getstate"; "draw 1"; "call 1"; "getstate";
     "getstate"; "draw 2"; "call 2"; "getstate";
     "getstate"; "draw 3"; "call 3"; "getstate"]
  /\ (let run := run_wrapped_test (H := scripted fails_from_5_rejects_9)
                   plain_settings None None three_examples [] ∅ 0%nat
                   stored_buffers in
      fst run = Exc (UserException 1)
      /\ map describe (trace (snd run))
         = ["explicit 4"; "explicit 6";
            "report: Falsifying example: test(n=6)"; "report: a note"]).
Proof. vm_compute. auto. Qed.

(** A test that touches the global random module on every call, without
    [strict]: the first evaluation reports it, and the next two neither
    read the state nor report. *)
Example global_random_check_run :
  map describe
    (trace (snd (run_wrapped_test (H := scripted uses_global_random)
                   hasty_settings None None [] [] ∅ 0%nat ∅)))
  = ["engine"; "getstate"; "draw 1"; "call 1"; "getstate";
     "fail_health_check"; "warn"; "draw 2"; "call 2"; "draw 3"; "call 3"].
Proof. vm_compute. reflexivity. Qed.

(** *** The further statements at concrete runs *)

Lemma only_explicit_examples_without_max_examples_witness :
  let run := run_wrapped_test (H := scripted passes)
               MoreFixtures.explicit_only_settings None None three_examples
               [] ∅ 0%nat stored_buffers in
  run = run_explicit_examples (H := scripted passes) (rev three_examples) [] ∅
          (fresh_run passes stored_buffers)
  /\ forallb explicit_event (trace (snd run)) = true
  /\ db (snd run) = stored_buffers.
Proof.
  apply (only_explicit_examples_without_max_examples (H := scripted passes)
           MoreFixtures.explicit_only_settings None None three_examples
           [] ∅ 0%nat stored_buffers).
  cbn [max_examples MoreFixtures.explicit_only_settings]. lia.
Defined.

(** The explicit examples are called and nothing is generated. *)
Example explicit_examples_only_run :
  map describe
    (trace (snd (run_wrapped_test (H := scripted passes)
                   MoreFixtures.explicit_only_settings None None three_examples
                   [] ∅ 0%nat stored_buffers)))
  = ["explicit 4"; "explicit 6"; "explicit 3"].
Proof. vm_compute. reflexivity. Qed.

Lemma no_global_random_check_without_health_check_witness :
  let st' := snd (run_wrapped_test (H := scripted uses_global_random)
                    MoreFixtures.unchecked_settings None None [] [] ∅ 0%nat ∅) in
  forallb MoreTraces.no_random_check (trace st') = true
  /\ warned_random st' = false.
Proof.
  apply (no_global_random_check_without_health_check
           (H := scripted uses_global_random)
           MoreFixtures.unchecked_settings None None [] [] ∅ 0%nat ∅).
  reflexivity.
Defined.

Lemma falsifying_buffer_has_a_recorded_failure_witness :
  is_Some (last_exception
             (snd (replay_database (H := scripted fails_from_5) plain_settings
                     None "tests.test" (fresh_run fails_from_5 stored_buffers))))
  /\ is_Some (last_exception
                (snd (search (H := scripted fails_from_5) plain_settings None
                        "tests.test" SeedFresh (fresh_run fails_from_5 ∅)))).
Proof.
  split.
  - apply (proj1 (falsifying_buffer_has_a_recorded_failure
                    (H := scripted fails_from_5) plain_settings None
                    "tests.test" SeedFresh (fresh_run fails_from_5 stored_buffers)
                    [x09])).
    vm_compute. reflexivity.
  - apply (proj2 (falsifying_buffer_has_a_recorded_failure
                    (H := scripted fails_from_5) plain_settings None
                    "tests.test" SeedFresh (fresh_run fails_from_5 ∅)
                    [x07])).
    vm_compute. reflexivity.
Defined.

Lemma found_example_is_saved_witness :
  (exists earlier,
     trace (snd (search (H := scripted fails_from_5) plain_settings None
                   "tests.test" SeedFresh (fresh_run fails_from_5 ∅)))
     = (earlier ++ [EvSave "tests.test" [x07]])%list
     /\ In EvEngineRun earlier)
  /\ [x07] ∈ default []
              (db (snd (search (H := scripted fails_from_5) plain_settings None
                          "tests.test" SeedFresh (fresh_run fails_from_5 ∅)))
               !! "tests.test").
Proof.
  apply (found_example_is_saved (H := scripted fails_from_5) plain_settings None
           "tests.test" SeedFresh (fresh_run fails_from_5 ∅) [x07]).
  - reflexivity.
  - vm_compute. reflexivity.
Defined.

Lemma database_only_under_the_key_of_the_test_witness :
  "tests.test" = qualified_name (World := scripted fails_from_5)
  /\ has_database plain_settings = true.
Proof.
  apply (proj1 (database_only_under_the_key_of_the_test
                  (H := scripted fails_from_5) plain_settings None None
                  [] [] ∅ 0%nat stored_buffers)
           (EvFetch "tests.test") "tests.test").
  - vm_compute. left. reflexivity.
  - reflexivity.
Defined.

(** A run with a database: the stored buffer 9 is replayed and found to
    fail, so nothing else is fetched, deleted or saved. *)
Example database_accesses_of_a_run :
  List.filter (fun e => bool_decide (is_Some (MoreTraces.database_key_of e)))
    (trace (snd (run_wrapped_test (H := scripted fails_from_5) plain_settings
                   None None [] [] ∅ 0%nat stored_buffers)))
  = [EvFetch "tests.test"].
Proof. vm_compute. reflexivity. Qed.

End CoreFacts.

(** ** The decorators *)

Module DecoratorFacts.
Import Core Decorators.

(** *** given *)

Lemma nonempty_true {A} (l : list A) : nonempty l = true <-> l <> [].
Proof. destruct l; simpl; split; congruence. Qed.

Lemma nonempty_false {A} (l : list A) : nonempty l = false <-> l = [].
Proof. destruct l; simpl; split; congruence. Qed.

Lemma no_extra_kwargs (names keys : list string) :
  filter (fun k => k ∉ names) keys = [] <-> forall k, k ∈ keys -> k ∈ names.
Proof.
  induction keys as [|k keys IH].
  - split; [|reflexivity]. intros _ k Hk. inversion Hk.
  - rewrite filter_cons. destruct (decide (k ∉ names)) as [Hout|Hin].
    + split; [discriminate|]. intros Hall. exfalso. apply Hout, Hall. left.
    + rewrite IH. split.
      * intros Hall k' Hk'. apply elem_of_cons in Hk' as [->|Hk']; [|auto].
        destruct (decide (k ∈ names)); [assumption|contradiction].
      * intros Hall k' Hk'. apply Hall. now right.
Qed.

Lemma run_test_with_generator_accepts (generator_arguments : list PyVal)
    (generator_kwargs : list (string * PyVal)) (test_name : string)
    (original_argspec : ArgSpec) :
  (exists argspec strategies,
     run_test_with_generator generator_arguments generator_kwargs test_name
       original_argspec = Wrapped argspec strategies)
  <-> (defaults original_argspec = None \/ defaults original_argspec = Some [])
      /\ ((generator_arguments <> [] /\ generator_kwargs = []
           /\ varargs original_argspec = None
           /\ keywords original_argspec = None
           /\ (length generator_arguments <= length (args original_argspec))%nat)
          \/ (generator_arguments = [] /\ generator_kwargs <> []
              /\ (keywords original_argspec <> None
                  \/ forall k, k ∈ map fst generator_kwargs ->
                               k ∈ args original_argspec))).
Proof.
  unfold run_test_with_generator.
  destruct original_argspec as [names va kw dflt]. cbn [args varargs keywords defaults].
  destruct generator_arguments as [|g ga].
  - (* keyword strategies *)
    cbn [nonempty orb andb length Nat.ltb Nat.leb negb].
    destruct generator_kwargs as [|s gk].
    + cbn [nonempty negb]. split.
      * intros (? & ? & ?). discriminate.
      * intros [_ [(Hne & _)|(_ & Hne & _)]]; congruence.
    + cbn [nonempty negb].
      destruct (filter (fun k => k ∉ names) (map fst (s :: gk))) as [|k extra] eqn:Ef.
      * pose proof (proj1 (no_extra_kwargs _ _) Ef) as Hall.
        destruct dflt as [[|d dflt]|]; split;
          try (intros (? & ? & ?); discriminate);
          try (intros _; split; [auto | right; repeat split; auto; discriminate]);
          try (intros [[|] _]; discriminate);
          destruct kw; eauto.
      * assert (Hextra : ~ forall k, k ∈ map fst (s :: gk) -> k ∈ names).
        { intros Hall. pose proof (proj2 (no_extra_kwargs _ _) Hall). congruence. }
        destruct kw as [kwname|].
        -- destruct dflt as [[|d dflt]|]; split;
             try (intros (? & ? & ?); discriminate);
             try (intros _; split; [auto | right; repeat split; auto; discriminate]);
             try (intros [[|] _]; discriminate);
             eauto.
        -- split; [intros (? & ? & ?); discriminate|].
           intros [_ [(Hne & _)|(_ & _ & [Hk|Hall])]]; [congruence..|contradiction].
  - (* positional strategies *)
    cbn [nonempty orb andb negb].
    destruct va as [vaname|]; cbn [is_set orb].
    { split; [intros (? & ? & ?); discriminate|].
      intros [_ [(_ & _ & Hva & _)|(Hga & _)]]; discriminate. }
    destruct kw as [kwname|]; cbn [is_set].
    { split; [intros (? & ? & ?); discriminate|].
      intros [_ [(_ & _ & _ & Hkw & _)|(Hga & _)]]; discriminate. }
    destruct (length names <? length (g :: ga))%nat eqn:El.
    { apply Nat.ltb_lt in El. split; [intros (? & ? & ?); discriminate|].
      intros [_ [(_ & _ & _ & _ & Hle)|(Hga & _)]]; [lia|discriminate]. }
    apply Nat.ltb_ge in El.
    destruct generator_kwargs as [|s gk]; cbn [nonempty].
    + cbn [map]. rewrite filter_nil.
      destruct dflt as [[|d dflt]|]; split;
        try (intros (? & ? & ?); discriminate);
        try (intros [[|] _]; discriminate);
        try (intros _; split; [auto | left; repeat split; auto; discriminate]);
        eauto.
    + split; [intros (? & ? & ?); discriminate|].
      intros [_ [(_ & Hgk & _)|(Hga & _)]]; discriminate.
Qed.

Lemma setitems_nonempty (l : list (string * PyVal)) : forall d,
  l <> [] ->
  fold_left (fun d ns => dict_setitem d (fst ns) (snd ns)) l d <> [].
Proof.
  induction l as [|[k v] l IH]; intros d Hl; [contradiction|].
  cbn [fold_left fst snd]. destruct l as [|x l].
  - cbn [fold_left]. destruct d as [|[k' v'] d]; cbn [dict_setitem];
      [|destruct (bool_decide _)]; discriminate.
  - apply IH. discriminate.
Qed.

(** X15.  A decorator [given(...)] accepts the first test it is applied
    to exactly when the test has no default values and either there are
    positional strategies only, no more of them than the test has
    parameters, and the test takes neither starred nor double-starred
    arguments; or there are keyword strategies only, each naming a
    parameter of the test unless it takes double-starred arguments.  In
    every other case the function it returns raises [InvalidArgument] when
    called.  A decorator with keyword strategies only is left as it was by
    every application, so it may be applied to any number of tests; a
    decorator with positional strategies that has accepted a test holds
    these strategies in its dict from then on, and rejects every test it
    is applied to afterwards. *)
Theorem given_accepts_iff (generator_arguments : list PyVal)
    (generator_kwargs : list (string * PyVal)) :
  let g := given generator_arguments generator_kwargs in
  (forall test_name original_argspec,
     (exists argspec strategies,
        fst (decorate g test_name original_argspec) = Wrapped argspec strategies)
     <-> (defaults original_argspec = None \/ defaults original_argspec = Some [])
         /\ ((generator_arguments <> [] /\ generator_kwargs = []
              /\ varargs original_argspec = None
              /\ keywords original_argspec = None
              /\ (length generator_arguments
                  <= length (args original_argspec))%nat)
             \/ (generator_arguments = [] /\ generator_kwargs <> []
                 /\ (keywords original_argspec <> None
                     \/ forall k, k ∈ map fst generator_kwargs ->
                                  k ∈ args original_argspec))))
  /\ (generator_arguments = [] ->
      forall test_name original_argspec,
        snd (decorate g test_name original_argspec) = g)
  /\ (generator_arguments <> [] ->
      forall test_name original_argspec argspec strategies,
        fst (decorate g test_name original_argspec) = Wrapped argspec strategies ->
        let g' := snd (decorate g test_name original_argspec) in
        closure_arguments g' = generator_arguments
        /\ closure_kwargs g' = strategies
        /\ strategies <> []
        /\ forall test_name' original_argspec',
             exists message,
               decorate g' test_name' original_argspec' = (Invalid message, g')).
Proof.
  intros g. subst g. unfold decorate, given.
  cbn [closure_arguments closure_kwargs fst snd].
  split; [|split].
  - intros test_name original_argspec. apply run_test_with_generator_accepts.
  - intros -> test_name original_argspec.
    destruct (run_test_with_generator [] generator_kwargs test_name
                original_argspec) as [message|argspec strategies] eqn:E;
      [reflexivity|].
    f_equal. revert E. unfold run_test_with_generator, last_items.
    cbn [nonempty andb orb length Nat.ltb Nat.leb Nat.eqb].
    rewrite zip_with_nil_r. cbn [fold_left].
    destruct (negb _); [discriminate|].
    destruct (filter _ _), (keywords original_argspec),
      (defaults original_argspec) as [[|d dflt]|];
      try discriminate; now intros [= _ <-].
  - intros Hne test_name original_argspec argspec strategies E.
    rewrite E. cbn [closure_arguments closure_kwargs].
    assert (Hacc : exists a s,
              run_test_with_generator generator_arguments generator_kwargs
                test_name original_argspec = Wrapped a s) by eauto.
    apply run_test_with_generator_accepts
      in Hacc as [_ [(_ & -> & _ & _ & Hle)|(Hga & _)]]; [|contradiction].
    assert (Hstored : strategies <> []).
    { revert E. unfold run_test_with_generator.
      destruct (negb _); [discriminate|].
      destruct (nonempty generator_arguments && (_ || _)); [discriminate|].
      destruct (_ <? _)%nat; [discriminate|].
      destruct (nonempty generator_arguments && nonempty []); [discriminate|].
      cbn [map]. rewrite filter_nil.
      destruct (defaults original_argspec) as [[|d dflt]|]; try discriminate;
        (intros [= _ <-]; apply setitems_nonempty;
         unfold last_items;
         destruct generator_arguments as [|s ga]; [contradiction|];
         cbn [length Nat.eqb] in *;
         destruct (drop _ (args original_argspec)) as [|a names] eqn:Ed;
         [apply (f_equal length) in Ed; rewrite length_drop in Ed;
          cbn [length] in Ed; lia
         |discriminate]). }
    split; [reflexivity|]. split; [reflexivity|]. split; [exact Hstored|].
    intros test_name' original_argspec'.
    unfold run_test_with_generator.
    destruct generator_arguments as [|s ga]; [contradiction|].
    destruct strategies as [|kv strategies]; [contradiction|].
    cbn [nonempty orb andb negb].
    destruct (is_set (varargs original_argspec')
              || is_set (keywords original_argspec')); [eauto|].
    destruct (_ <? _)%nat; eauto.
Qed.

Lemma given_accepts_iff_witness :
  let test := {| args := ["x"]; varargs := None; keywords := None;
                 defaults := None |} in
  let g := given [PyObj 1] [] in
  let g' := snd (decorate g "test_1" test) in
  snd (decorate (given [] [("x", PyObj 1)]) "test_1" test)
  = given [] [("x", PyObj 1)]
  /\ closure_kwargs g' = [("x", PyObj 1)]
  /\ exists message, decorate g' "test_2" test = (Invalid message, g').
Proof.
  intros test g g'. split.
  - apply (proj1 (proj2 (given_accepts_iff [] [("x", PyObj 1)])) eq_refl).
  - assert (Hne : [PyObj 1] <> []) by discriminate.
    destruct (proj2 (proj2 (given_accepts_iff [PyObj 1] [])) Hne "test_1" test
                {| args := []; varargs := None; keywords := None;
                   defaults := None |}
                [("x", PyObj 1)] eq_refl)
      as (_ & Hdict & _ & Hrejects).
    split; [exact Hdict|]. apply Hrejects.
Defined.

(** A decorator with a positional strategy, applied to two tests that it
    would each accept: the second is rejected. *)
Example given_reused :
  let test := {| args := ["x"]; varargs := None; keywords := None;
                 defaults := None |} in
  let g := given [PyObj 1] [] in
  fst (decorate g "test_1" test)
  = Wrapped {| args := []; varargs := None; keywords := None;
               defaults := None |} [("x", PyObj 1)]
  /\ fst (decorate g "test_2" test) = fst (decorate g "test_1" test)
  /\ fst (decorate (snd (decorate g "test_1" test)) "test_2" test)
     = Invalid "cannot mix positional and keyword arguments to @given".
Proof. vm_compute. auto. Qed.

(** Assigning the strategies of fresh names one after the other appends
    them. *)
Lemma dict_setitem_fresh d k v :
  k ∉ map fst d -> dict_setitem d k v = (d ++ [(k, v)])%list.
Proof.
  induction d as [|[k' v'] d IH]; intros Hk; [reflexivity|].
  cbn [dict_setitem]. rewrite bool_decide_eq_false_2.
  - rewrite IH; [reflexivity|]. intros Hin. apply Hk. cbn [map fst]. now right.
  - intros ->. apply Hk. cbn [map fst]. left.
Qed.

Lemma setitems_fresh (l : list (string * PyVal)) : forall d,
  NoDup (map fst d ++ map fst l)%list ->
  fold_left (fun d ns => dict_setitem d (fst ns) (snd ns)) l d = (d ++ l)%list.
Proof.
  induction l as [|[k v] l IH]; intros d Hnd.
  - now rewrite app_nil_r.
  - cbn [fold_left fst snd]. rewrite dict_setitem_fresh.
    + rewrite IH; [now rewrite <- app_assoc|].
      rewrite map_app. cbn [map fst]. now rewrite <- app_assoc.
    + cbn [map fst] in Hnd. apply NoDup_app in Hnd as (_ & Hdis & _).
      intros Hin. apply (Hdis _ Hin). left.
Qed.

Lemma filter_not_in_suffix (l1 l2 : list string) :
  NoDup (l1 ++ l2)%list -> filter (fun a => a ∉ l2) (l1 ++ l2)%list = l1.
Proof.
  intros Hnd. apply NoDup_app in Hnd as (_ & Hdis & _).
  rewrite filter_app.
  replace (filter (fun a => a ∉ l2) l2) with (@nil string).
  - rewrite app_nil_r. induction l1 as [|a l1 IH]; [reflexivity|].
    rewrite filter_cons_True.
    + f_equal. apply IH. intros x Hx. apply Hdis. now right.
    + apply Hdis. left.
  - symmetry. apply (proj2 (no_extra_kwargs _ _)). auto.
Qed.

(** X16.  Positional strategies are bound to the rightmost parameters of
    the test, in order: with [k] strategies and [n] parameters (of
    distinct names) the wrapped test keeps the first [n - k] parameters,
    and the strategies are those of the last [k] names. *)
Theorem given_positional_binds_rightmost (generator_arguments : list PyVal)
    (test_name : string) (original_argspec argspec : ArgSpec)
    (strategies : list (string * PyVal)) :
  NoDup (args original_argspec) ->
  generator_arguments <> [] ->
  run_test_with_generator generator_arguments [] test_name original_argspec
  = Wrapped argspec strategies ->
  let n := (length (args original_argspec) - length generator_arguments)%nat in
  (length generator_arguments <= length (args original_argspec))%nat
  /\ strategies = zip (drop n (args original_argspec)) generator_arguments
  /\ map fst strategies = drop n (args original_argspec)
  /\ args argspec = take n (args original_argspec)
  /\ varargs argspec = None /\ keywords argspec = None
  /\ defaults argspec = None.
Proof.
  intros Hnd Hne Hrun n.
  assert (Hacc : exists a s,
            run_test_with_generator generator_arguments [] test_name
              original_argspec = Wrapped a s) by eauto.
  apply run_test_with_generator_accepts in Hacc as [_ [(_ & _ & Hva & Hkw & Hle)|(Hga & _)]];
    [|contradiction].
  split; [exact Hle|].
  revert Hrun. unfold run_test_with_generator.
  destruct original_argspec as [names va kw dflt].
  cbn [args varargs keywords defaults] in *. subst va kw.
  destruct generator_arguments as [|g ga]; [contradiction|].
  cbn [nonempty orb andb negb is_set map].
  replace (length names <? length (g :: ga))%nat with false
    by (symmetry; apply Nat.ltb_ge; exact Hle).
  rewrite filter_nil.
  destruct dflt as [[|d dflt]|]; try discriminate;
    (intros [= <- <-]; cbn [args varargs keywords defaults];
     unfold last_items; cbn [length Nat.eqb];
     change (length names - S (length ga))%nat with n;
     assert (Hlen : length (drop n names) = length (g :: ga))
       by (rewrite length_drop; subst n; cbn [length] in *; lia);
     assert (Hkeys : map fst (zip (drop n names) (g :: ga)) = drop n names)
       by (apply fst_zip; rewrite Hlen; reflexivity);
     rewrite setitems_fresh
       by (cbn [map app]; rewrite Hkeys;
           rewrite <- (take_drop n names) in Hnd;
           apply NoDup_app in Hnd as (_ & _ & Hnd); exact Hnd);
     cbn [app]; rewrite Hkeys;
     repeat split; auto;
     transitivity (filter (fun a => a ∉ drop n names)
                     (take n names ++ drop n names)%list);
     [now rewrite take_drop
     | apply filter_not_in_suffix; now rewrite take_drop]).
Qed.

Lemma given_positional_binds_rightmost_witness :
  let original :=
    {| args := ["self"; "x"; "y"]; varargs := None; keywords := None;
       defaults := None |} in
  let n := (length (args original) - length [PyObj 1; PyObj 2])%nat in
  (length [PyObj 1; PyObj 2] <= length (args original))%nat
  /\ [("x", PyObj 1); ("y", PyObj 2)]
     = zip (drop n (args original)) [PyObj 1; PyObj 2]
  /\ map fst [("x", PyObj 1); ("y", PyObj 2)] = drop n (args original)
  /\ ["self"] = take n (args original)
  /\ (None : option string) = None /\ (None : option string) = None
  /\ (None : option (list PyVal)) = None.
Proof.
  intros original.
  apply (given_positional_binds_rightmost [PyObj 1; PyObj 2] "test" original
           {| args := ["self"]; varargs := None; keywords := None;
              defaults := None |}
           [("x", PyObj 1); ("y", PyObj 2)]).
  - subst original. cbn [args]. apply (bool_decide_unpack _). reflexivity.
  - discriminate.
  - reflexivity.
Defined.

Lemma setitem_keys d k v x :
  x ∈ map fst (dict_setitem d k v) <-> x ∈ map fst d \/ x = k.
Proof.
  induction d as [|[k' v'] d IH]; cbn [dict_setitem map fst].
  - rewrite list_elem_of_singleton. split; [auto|]. intros [H|H]; [inversion H|auto].
  - destruct (bool_decide (k' = k)) eqn:E.
    + apply bool_decide_eq_true in E as ->. cbn [map fst].
      rewrite !elem_of_cons. tauto.
    + cbn [map fst]. rewrite !elem_of_cons, IH. tauto.
Qed.

Lemma setitems_keys (l : list (string * PyVal)) : forall d x,
  x ∈ map fst (fold_left (fun d ns => dict_setitem d (fst ns) (snd ns)) l d)
  <-> x ∈ map fst d \/ x ∈ map fst l.
Proof.
  induction l as [|[k v] l IH]; intros d x; cbn [fold_left map fst snd].
  - split; [auto|]. intros [H|H]; [auto|inversion H].
  - rewrite IH, setitem_keys, elem_of_cons. tauto.
Qed.

(** X17.  A test that [given] accepts is wrapped so that every parameter
    of the test is either still a parameter of the wrapped test or has a
    strategy, never both; the parameters that are left keep their order;
    and unless the test takes double-starred arguments, every strategy is
    that of a parameter of the test. *)
Theorem given_partitions_parameters (generator_arguments : list PyVal)
    (generator_kwargs : list (string * PyVal)) (test_name : string)
    (original_argspec argspec : ArgSpec) (strategies : list (string * PyVal)) :
  run_test_with_generator generator_arguments generator_kwargs test_name
    original_argspec = Wrapped argspec strategies ->
  (forall a, a ∈ args original_argspec ->
     (a ∈ args argspec /\ a ∉ map fst strategies)
     \/ ((a ∉ args argspec) /\ a ∈ map fst strategies))
  /\ sublist (args argspec) (args original_argspec)
  /\ (keywords original_argspec = None ->
      forall k, k ∈ map fst strategies -> k ∈ args original_argspec)
  /\ (forall k, k ∈ map fst generator_kwargs -> k ∈ map fst strategies).
Proof.
  intros Hrun.
  assert (Hacc : exists a s,
            run_test_with_generator generator_arguments generator_kwargs
              test_name original_argspec = Wrapped a s) by eauto.
  apply run_test_with_generator_accepts in Hacc as [_ Hcases].
  revert Hrun. unfold run_test_with_generator.
  destruct (negb _); [discriminate|].
  destruct (nonempty generator_arguments && (_ || _)); [discriminate|].
  destruct (_ <? _)%nat; [discriminate|].
  destruct (nonempty generator_arguments && nonempty generator_kwargs);
    [discriminate|].
  set (names := args original_argspec) in *.
  set (bound := fold_left _ _ generator_kwargs).
  assert (Hbound : forall x, x ∈ map fst bound
            <-> x ∈ map fst generator_kwargs
                \/ x ∈ map fst (zip (last_items (length generator_arguments) names)
                                    generator_arguments))
    by (intros x; apply setitems_keys).
  intros Hrun.
  assert (Hw : argspec = {| args := filter (fun a => a ∉ map fst bound) names;
                            keywords := keywords original_argspec;
                            varargs := varargs original_argspec;
                            defaults := None |}
               /\ strategies = bound).
  { destruct (filter _ (map fst generator_kwargs)) as [|k extra],
      (keywords original_argspec), (defaults original_argspec) as [[|d dflt]|];
      try discriminate; now injection Hrun as <- <-. }
  destruct Hw as [-> ->]. cbn [args]. clear Hrun.
  split; [|split; [|split]].
  - intros a Ha. rewrite list_elem_of_filter.
    destruct (decide (a ∈ map fst bound)); [right|left]; tauto.
  - apply sublist_filter.
  - intros Hkw k Hk. apply Hbound in Hk as [Hk|Hk].
    + destruct Hcases as [(_ & -> & _)|(_ & _ & [Hkw'|Hall])];
        [inversion Hk | congruence | auto].
    + apply list_elem_of_fmap in Hk as ([k' v] & -> & Hz).
      apply elem_of_zip_l in Hz. cbn [fst].
      unfold last_items in Hz. destruct (_ =? _)%nat; [exact Hz|].
      eapply list_elem_of_lookup in Hz as [i Hi].
      rewrite lookup_drop in Hi. eapply list_elem_of_lookup_2; eauto.
  - intros k Hk. apply Hbound. now left.
Qed.

Lemma given_partitions_parameters_witness :
  let original :=
    {| args := ["self"; "x"; "y"]; varargs := None; keywords := None;
       defaults := None |} in
  let argspec :=
    {| args := ["self"; "x"]; varargs := None; keywords := None;
       defaults := None |} in
  (forall a, a ∈ args original ->
     (a ∈ args argspec /\ a ∉ map fst [("y", PyObj 1)])
     \/ ((a ∉ args argspec) /\ a ∈ map fst [("y", PyObj 1)]))
  /\ sublist (args argspec) (args original)
  /\ (keywords original = None ->
      forall k, k ∈ map fst [("y", PyObj 1)] -> k ∈ args original)
  /\ (forall k, k ∈ map fst [("y", PyObj 1)] -> k ∈ map fst [("y", PyObj 1)]).
Proof.
  intros original argspec.
  apply (given_partitions_parameters [] [("y", PyObj 1)] "test" original
           argspec [("y", PyObj 1)]).
  reflexivity.
Defined.

(** *** example *)

Lemma example_accepts a k :
  (a <> [] /\ k = ∅) \/ (a = [] /\ k <> ∅) <->
  example a k
  = Val (fun examples => (examples ++ [{| ex_args := a; ex_kwargs := k |}])%list).
Proof.
  unfold example.
  destruct (decide (a = [])) as [Ha|Ha], (decide (k = ∅)) as [Hk|Hk];
    rewrite ?(bool_decide_eq_true_2 _ Ha), ?(bool_decide_eq_false_2 _ Ha),
            ?(bool_decide_eq_true_2 _ Hk), ?(bool_decide_eq_false_2 _ Hk);
    cbn [negb andb orb]; split; try tauto; try discriminate;
    intros [[? ?]|[? ?]]; congruence.
Qed.

Lemma example_raises a k e :
  example a k = Exc e -> exists msg, e = InvalidArgument msg.
Proof.
  unfold example. destruct (negb _ && negb _); [intros [= <-]; eauto|].
  destruct (negb _); [intros [= <-]; eauto | discriminate].
Qed.

(** X18.  A stack of [@example] decorators in which each gives either
    positional or keyword arguments, not both and not neither, adds its
    examples to the list of the test from the bottom up; [wrapped_test]
    goes through the list in reverse, so in the order in which the
    decorators are written, from the top.  A stack with any other
    [@example] raises [InvalidArgument]. *)
Theorem stacked_examples_in_written_order
    (written : list (list PyVal * gmap string PyVal)) (below : list Example) :
  let well_formed (w : list PyVal * gmap string PyVal) :=
    (fst w <> [] /\ snd w = ∅) \/ (fst w = [] /\ snd w <> ∅) in
  (Forall well_formed written ->
   exists examples,
     stacked_examples written below = Val examples
     /\ rev examples
        = (map (fun w => {| ex_args := fst w; ex_kwargs := snd w |}) written
           ++ rev below)%list)
  /\ (~ Forall well_formed written ->
      exists msg, stacked_examples written below = Exc (InvalidArgument msg)).
Proof.
  intros well_formed. unfold stacked_examples.
  induction written as [|[a k] written [IHok IHbad]].
  - split.
    + intros _. exists below. split; reflexivity.
    + intros Hbad. exfalso. apply Hbad. constructor.
  - cbn [evaluate_examples]. split.
    + intros Hall. inversion Hall as [|? ? Hw Hrest]; subst.
      apply example_accepts in Hw. cbn [fst snd] in Hw. rewrite Hw.
      cbn [res_bind]. destruct (IHok Hrest) as (examples & He & Hrev).
      destruct (evaluate_examples written) as [accepts|e]; [|discriminate].
      cbn [res_bind] in *. injection He as <-.
      eexists. split; [reflexivity|]. cbn [fold_right map fst snd].
      rewrite rev_app_distr, Hrev. reflexivity.
    + intros Hbad. destruct (example a k) as [accept|e] eqn:Ea.
      * cbn [res_bind].
        assert (Hw : well_formed (a, k)).
        { unfold well_formed. cbn [fst snd].
          destruct (decide (a = [])) as [Ha|Ha], (decide (k = ∅)) as [Hk|Hk];
            auto; exfalso; revert Ea; unfold example;
            rewrite ?(bool_decide_eq_true_2 _ Ha), ?(bool_decide_eq_false_2 _ Ha),
                    ?(bool_decide_eq_true_2 _ Hk), ?(bool_decide_eq_false_2 _ Hk);
            discriminate. }
        destruct IHbad as [msg Hmsg].
        { intros Hrest. apply Hbad. now constructor. }
        destruct (evaluate_examples written) as [accepts|e]; [discriminate|].
        cbn [res_bind] in *. injection Hmsg as ->. eauto.
      * cbn [res_bind]. apply example_raises in Ea as [msg ->]. eauto.
Qed.

Lemma stacked_examples_in_written_order_witness :
  exists examples,
    stacked_examples [([PyInt 1], ∅); ([], {[ "n" := PyInt 2 ]})] []
    = Val examples
    /\ rev examples
       = (map (fun w => {| ex_args := fst w; ex_kwargs := snd w |})
            [([PyInt 1], ∅); ([], {[ "n" := PyInt 2 ]})] ++ rev [])%list.
Proof.
  apply (proj1 (stacked_examples_in_written_order
                  [([PyInt 1], ∅); ([], {[ "n" := PyInt 2 ]})] [])).
  constructor; [|constructor; [|constructor]]; cbn [fst snd].
  - left. split; [discriminate | reflexivity].
  - right. split; [reflexivity|]. apply insert_non_empty.
Defined.

End DecoratorFacts.

(** ** find *)

Module FindFacts.
Import Core Find.

Section Facts.
Context `{FindWorld}.

Lemma reports_of_app a b :
  reports_of (a ++ b) = (reports_of a ++ reports_of b)%list.
Proof.
  induction a as [|e a IH]; [reflexivity|].
  destruct e; cbn [app reports_of]; rewrite IH; reflexivity.
Qed.

Lemma reports_after e st :
  reports_of (find_trace (femit e st))
  = (reports_of (find_trace st) ++ reports_of [e])%list.
Proof. unfold find_trace, femit. cbn [flog rev]. apply reports_of_app. Qed.

(** *** The attempts of a search *)

Lemma progress_reports_tried tried result :
  progress_reports (tried ++ [result]) []
  = (progress_reports tried [] ++ [trying_example result])%list.
Proof.
  unfold progress_reports. rewrite map_app, !app_nil_r. reflexivity.
Qed.

Lemma progress_reports_satisfying tried satisfying result :
  progress_reports tried (satisfying ++ [result])
  = (progress_reports tried satisfying
     ++ [if (length satisfying =? 0)%nat
         then found_satisfying_example result
         else shrunk_example result])%list.
Proof.
  unfold progress_reports. destruct satisfying as [|first shrunk].
  - cbn. now rewrite app_nil_r.
  - cbn [app length Nat.eqb]. rewrite map_app, <- app_assoc. reflexivity.
Qed.

Lemma satisfying_app done a :
  satisfying (done ++ [a])
  = (satisfying done ++ if attempt_success a then [a] else [])%list.
Proof.
  unfold satisfying. rewrite List.filter_app. cbn [List.filter].
  destruct (attempt_success a); reflexivity.
Qed.

Lemma failed_first_app done a :
  failed_first (done ++ [a])
  = if (length (satisfying done) =? 0)%nat && negb (attempt_success a)
    then (failed_first done ++ [a])%list
    else failed_first done.
Proof.
  induction done as [|x done IH]; cbn [app failed_first].
  - cbn. destruct (attempt_success a); reflexivity.
  - unfold satisfying in *. cbn [List.filter].
    destruct (attempt_success x); [reflexivity|].
    rewrite IH. destruct (_ && _); reflexivity.
Qed.

(** The state of the search after one more attempt. *)
Lemma searched_attempt verbose done runner st a data' st' :
  searched verbose done runner st ->
  data_buffer data' = attempt_buffer a ->
  (status data' = INTERESTING <-> attempt_success a = true) ->
  successful_examples st'
  = successful_examples st + (if attempt_success a then 1 else 0) ->
  reports_of (find_trace st')
  = (reports_of (find_trace st)
     ++ if verbose then
          if successful_examples st' =? 0
          then [trying_example (attempt_value a)]
          else if attempt_success a
               then [if successful_examples st' =? 1
                     then found_satisfying_example (attempt_value a)
                     else shrunk_example (attempt_value a)]
               else []
        else [])%list ->
  searched verbose (done ++ [a]) (consider runner data') st'.
Proof.
  intros [Hcount Hreports Hlast] Hbuffer Hstatus Hcount' Hreports'.
  assert (Hlen : length (satisfying (done ++ [a]))
                 = (length (satisfying done)
                    + if attempt_success a then 1 else 0)%nat).
  { rewrite satisfying_app, length_app. destruct (attempt_success a); reflexivity. }
  split.
  - rewrite Hcount', Hcount, Hlen. destruct (attempt_success a); lia.
  - rewrite Hreports', Hreports. destruct verbose; [|reflexivity].
    rewrite Hcount', Hcount, failed_first_app, satisfying_app.
    destruct (attempt_success a) eqn:Hs; cbn [negb].
    + rewrite andb_false_r, map_app. cbn [map].
      rewrite progress_reports_satisfying, length_map.
      replace (Z.of_nat (length (satisfying done)) + 1 =? 0) with false
        by (symmetry; apply Z.eqb_neq; lia).
      destruct (length (satisfying done)) as [|n]; [reflexivity|].
      replace (Z.of_nat (S n) + 1 =? 1) with false
        by (symmetry; apply Z.eqb_neq; lia).
      reflexivity.
    + rewrite andb_true_r, Z.add_0_r, app_nil_r.
      destruct (satisfying done) as [|first later] eqn:Hsat.
      * cbn [length Nat.eqb Z.of_nat Z.eqb map]. rewrite map_app. cbn [map].
        now rewrite progress_reports_tried.
      * cbn [length Nat.eqb].
        replace (Z.of_nat (S (length later)) =? 0) with false
          by (symmetry; apply Z.eqb_neq; lia).
        now rewrite app_nil_r.
  - rewrite satisfying_app. unfold consider. cbn [last_data].
    destruct (attempt_success a) eqn:Hs.
    + rewrite last_snoc.
      assert (Hi : status data' = INTERESTING) by now apply Hstatus.
      rewrite (proj2 (CoreFacts.status_eqb_eq _ _) Hi). cbn [orb]. auto.
    + rewrite app_nil_r.
      assert (Hn : status data' <> INTERESTING)
        by (intros Hi; apply Hstatus in Hi; discriminate).
      rewrite (CoreFacts.status_eqb_neq _ _ Hn). cbn [orb].
      destruct (last (satisfying done)) as [found|].
      * destruct Hlast as [Hi Hb].
        rewrite (proj2 (CoreFacts.status_eqb_eq _ _) Hi). cbn [negb]. auto.
      * rewrite (CoreFacts.status_eqb_neq _ _ Hlast). cbn [negb]. exact Hn.
Qed.

(** The state of the search after a candidate that is passed over. *)
Lemma searched_passed_over verbose done runner st data' st' :
  searched verbose done runner st ->
  status data' <> INTERESTING ->
  successful_examples st' = successful_examples st ->
  reports_of (find_trace st') = reports_of (find_trace st) ->
  searched verbose done (consider runner data') st'.
Proof.
  intros [Hcount Hreports Hlast] Hn Hcount' Hreports'. split.
  - now rewrite Hcount'.
  - now rewrite Hreports'.
  - unfold consider. cbn [last_data].
    rewrite (CoreFacts.status_eqb_neq _ _ Hn). cbn [orb].
    destruct (last (satisfying done)) as [found|].
    + destruct Hlast as [Hi Hb].
      rewrite (proj2 (CoreFacts.status_eqb_eq _ _) Hi). cbn [negb]. auto.
    + rewrite (CoreFacts.status_eqb_neq _ _ Hlast). cbn [negb]. exact Hn.
Qed.

Lemma searched_stopped verbose done runner st st' :
  searched verbose done runner st ->
  successful_examples st' = successful_examples st ->
  reports_of (find_trace st') = reports_of (find_trace st) ->
  searched verbose done runner st'.
Proof.
  intros [Hcount Hreports Hlast] Hcount' Hreports'. split.
  - now rewrite Hcount'.
  - now rewrite Hreports'.
  - exact Hlast.
Qed.

(** An error of the strategy or of the condition, case by case. *)
Ltac raised_case e :=
  destruct e;
  cbn [raised_on mark_invalid mark fst snd except_own_StopTest data_id status
       set_fworld femit fworld fnext_id successful_examples];
  rewrite ?Nat.eqb_refl; try destruct (_ =? _)%nat;
  unfold find_trace; cbn [set_fworld femit flog rev];
  rewrite ?reports_of_app; cbn [reports_of]; rewrite ?app_nil_r;
  repeat split; auto; discriminate.

(** One candidate evaluated by [template_condition], against what the
    strategy and the condition do on it. *)
Lemma template_condition_tried verbose buffer st :
  let data := fst (find_for_buffer buffer st) in
  let started := snd (find_for_buffer buffer st) in
  let evaluated := template_condition verbose data started in
  let data' := snd (fst evaluated) in
  let st' := snd evaluated in
  let outcome := except_own_StopTest data' (fst (fst evaluated)) in
  let tried := try_candidate (fnext_id st) buffer (fworld st) in
  fworld st' = snd tried
  /\ fnext_id st' = S (fnext_id st)
  /\ match fst tried with
     | Answered value success =>
         outcome = Val tt
         /\ data_buffer data' = buffer
         /\ (status data' = INTERESTING <-> success = true)
         /\ successful_examples st'
            = successful_examples st + (if success then 1 else 0)
         /\ reports_of (find_trace st')
            = (reports_of (find_trace st)
               ++ if verbose then
                    if successful_examples st' =? 0
                    then [trying_example value]
                    else if success
                         then [if successful_examples st' =? 1
                               then found_satisfying_example value
                               else shrunk_example value]
                         else []
                  else [])%list
     | PassedOver =>
         outcome = Val tt
         /\ status data' <> INTERESTING
         /\ successful_examples st' = successful_examples st
         /\ reports_of (find_trace st') = reports_of (find_trace st)
     | Stopped e =>
         outcome = Exc e
         /\ successful_examples st' = successful_examples st
         /\ reports_of (find_trace st') = reports_of (find_trace st)
     end.
Proof.
  intros data started evaluated data' st' outcome tried.
  subst data started evaluated data' st' outcome tried.
  unfold try_candidate, template_condition, find_for_buffer.
  cbn [fst snd data_buffer data_id fworld femit set_fworld fnext_id].
  assert (Hquiet : forall e w s,
            reports_of [e] = [] ->
            reports_of (find_trace (set_fworld w (femit e s)))
            = reports_of (find_trace s)).
  { intros e w s He. unfold find_trace, set_fworld, femit. cbn [flog rev].
    now rewrite reports_of_app, He, app_nil_r. }
  destruct (draw_value buffer (fworld st)) as [[result| |e] w1].
  - cbn [fworld femit set_fworld].
    destruct (condition result w1) as [[answer|e] w2]; cbn [fst snd].
    + assert (Hrep : forall success (s : FindState),
                successful_examples
                  (report_progress verbose
                     {| data_id := fnext_id st; data_buffer := buffer;
                        status := VALID; frozen := false |} result success s)
                = successful_examples s
                /\ fworld (report_progress verbose
                     {| data_id := fnext_id st; data_buffer := buffer;
                        status := VALID; frozen := false |} result success s)
                   = fworld s
                /\ fnext_id (report_progress verbose
                     {| data_id := fnext_id st; data_buffer := buffer;
                        status := VALID; frozen := false |} result success s)
                   = fnext_id s
                /\ reports_of (find_trace (report_progress verbose
                     {| data_id := fnext_id st; data_buffer := buffer;
                        status := VALID; frozen := false |} result success s))
                   = (reports_of (find_trace s)
                      ++ if verbose then
                           if successful_examples s =? 0
                           then [trying_example result]
                           else if success
                                then [if successful_examples s =? 1
                                      then found_satisfying_example result
                                      else shrunk_example result]
                                else []
                         else [])%list).
      { intros success s. unfold report_progress.
        destruct verbose; [|now rewrite app_nil_r].
        destruct (successful_examples s =? 0).
        - repeat split; try reflexivity. apply reports_after.
        - destruct success; [|now rewrite app_nil_r].
          destruct (successful_examples s =? 1);
            (repeat split; try reflexivity);
            unfold find_trace; cbn [set_find_last_data femit flog rev];
            apply reports_of_app. }
      destruct (MoreNumbers.truthy answer);
        match goal with
        | |- context [report_progress ?v ?d ?r ?b ?s] =>
            destruct (Hrep b s) as (Hc & Hw & Hi & Hr)
        end;
        cbn [mark_interesting mark fst snd except_own_StopTest data_id
             data_buffer status];
        rewrite ?Nat.eqb_refl, Hc, Hw, Hi, Hr;
        cbn [count_success set_fworld femit successful_examples fworld fnext_id];
        unfold find_trace; cbn [count_success set_fworld femit flog rev];
        rewrite !reports_of_app; cbn [reports_of]; rewrite ?app_nil_r;
        repeat split; auto; try discriminate; try lia.
    + raised_case e.
  - cbn [fst snd except_own_StopTest mark data_id status].
    rewrite Nat.eqb_refl, Hquiet by reflexivity.
    repeat split; auto; discriminate.
  - raised_case e.
Qed.

(** The engine's loop, against the course of the search. *)
Lemma find_engine_loop_course verbose candidates : forall done runner st,
  searched verbose done runner st ->
  let course := try_candidates (fnext_id st) candidates (fworld st) in
  let run := find_engine_loop verbose candidates runner st in
  fworld (snd run) = world_left course
  /\ exists runner',
       searched verbose (done ++ attempts course) runner' (snd run)
       /\ match stopped course with
          | Some e => fst run = Exc e
          | None =>
              fst run = Val runner'
              /\ fnext_id (snd run) = (fnext_id st + length candidates)%nat
          end.
Proof.
  induction candidates as [|buffer rest IH]; intros done runner st Hs;
    cbn [find_engine_loop try_candidates].
  - cbn [attempts stopped world_left fst snd length]. split; [reflexivity|].
    exists runner. rewrite app_nil_r, Nat.add_0_r. auto.
  - pose proof (template_condition_tried verbose buffer st) as Ht.
    cbv zeta in Ht.
    destruct (find_for_buffer buffer st) as [data st0].
    cbn [fst snd] in Ht.
    destruct (template_condition verbose data st0) as [[r data'] st1].
    cbn [fst snd] in Ht.
    destruct (try_candidate (fnext_id st) buffer (fworld st)) as [tried w'].
    cbn [fst snd] in Ht. destruct Ht as (Hw & Hid & Ht).
    destruct tried as [value success| |e].
    + destruct Ht as (-> & Hb & Hi & Hc & Hr).
      pose (a := {| attempt_buffer := buffer; attempt_value := value;
                    attempt_success := success |}).
      assert (Hs' : searched verbose (done ++ [a]) (consider runner data') st1)
        by (apply (searched_attempt verbose done runner st a); assumption).
      specialize (IH _ _ _ Hs'). cbv zeta in IH. rewrite Hw, Hid in IH.
      destruct IH as (IHw & runner' & IHs & IHr).
      cbn [attempts stopped world_left]. split; [exact IHw|].
      exists runner'. rewrite <- app_assoc in IHs. cbn [app] in IHs.
      split; [exact IHs|].
      destruct (stopped _); [exact IHr|]. cbn [length].
      destruct IHr as [-> IHi]. split; [reflexivity|]. rewrite IHi. lia.
    + destruct Ht as (-> & Hn & Hc & Hr).
      assert (Hs' : searched verbose done (consider runner data') st1)
        by (apply (searched_passed_over verbose done runner st); assumption).
      specialize (IH _ _ _ Hs'). cbv zeta in IH. rewrite Hw, Hid in IH.
      destruct IH as (IHw & runner' & IHs & IHr).
      split; [exact IHw|]. exists runner'. split; [exact IHs|].
      destruct (stopped _); [exact IHr|]. cbn [length].
      destruct IHr as [-> IHi]. split; [reflexivity|]. rewrite IHi. lia.
    + destruct Ht as (-> & Hc & Hr).
      cbn [attempts stopped world_left fst snd]. split; [exact Hw|].
      exists runner. rewrite app_nil_r. split; [|reflexivity].
      now apply (searched_stopped verbose done runner st).
Qed.

(** The run of the engine is its loop over all the candidates, begun with
    no byte source of interest. *)
Lemma find_TestRunner_run_loop verbose st :
  find_TestRunner_run verbose st
  = find_engine_loop verbose (fst find_candidates :: snd find_candidates)
      {| last_data := {| data_id := 0; data_buffer := []; status := VALID;
                         frozen := false |};
         valid_examples := 0 |} st.
Proof.
  unfold find_TestRunner_run. destruct find_candidates as [first rest].
  cbn [fst snd find_engine_loop].
  destruct (find_for_buffer first st) as [data st0].
  destruct (template_condition verbose data st0) as [[r data'] st1].
  destruct (except_own_StopTest data' r); [|reflexivity].
  unfold consider. cbn [last_data valid_examples status].
  destruct (status_eqb (status data') INTERESTING); reflexivity.
Qed.

(** What [find] comes to, against the course of the search. *)
Lemma find_course verbose has_database storage_given random_given w :
  specifier_is_strategy = true ->
  let candidates := fst find_candidates :: snd find_candidates in
  let course := try_candidates 0 candidates w in
  let run := find verbose has_database storage_given random_given
               (find_initial_state w) in
  exists st runner ran,
    searched verbose (attempts course) runner st
    /\ fworld st = world_left course
    /\ find_TestRunner_run verbose
         (if random_given
          then if negb storage_given && has_database
               then femit FStorage (find_initial_state w)
               else find_initial_state w
          else femit FNewRandom
                 (if negb storage_given && has_database
                  then femit FStorage (find_initial_state w)
                  else find_initial_state w))
       = (ran, st)
    /\ match stopped course with
       | Some e => ran = Exc e
       | None => ran = Val runner /\ fnext_id st = length candidates
       end.
Proof.
  intros Hstrategy candidates course run.
  set (st2 := if random_given then _ else _).
  pose (dummy := {| last_data := {| data_id := 0; data_buffer := [];
                                    status := VALID; frozen := false |};
                    valid_examples := 0 |}).
  assert (Hs : searched verbose [] dummy st2).
  { subst st2. split.
    - destruct random_given, (_ && _); reflexivity.
    - destruct random_given, (_ && _), verbose; reflexivity.
    - cbn. discriminate. }
  assert (Hw2 : fworld st2 = w)
    by (subst st2; destruct random_given, (_ && _); reflexivity).
  assert (Hi2 : fnext_id st2 = 0%nat)
    by (subst st2; destruct random_given, (_ && _); reflexivity).
  pose proof (find_engine_loop_course verbose candidates [] dummy st2 Hs) as Hl.
  cbv zeta in Hl. rewrite Hw2, Hi2 in Hl. cbn [app] in Hl.
  fold course in Hl. destruct Hl as (Hw & runner & Hsearched & Hran).
  rewrite find_TestRunner_run_loop. fold candidates. fold dummy.
  destruct (find_engine_loop verbose candidates dummy st2) as [ran st3].
  cbn [fst snd] in *. exists st3, runner, ran.
  split; [exact Hsearched|]. split; [exact Hw|]. split; [reflexivity|].
  destruct (stopped course); [exact Hran|].
  destruct Hran as [-> Hid]. rewrite Hid. auto.
Qed.

(** X25.  The reports of a verbose [find] tell the search as the strategy
    and the condition saw it.  Of the candidates on which the condition
    answered, in the order in which the engine tried them: [Trying
    example] is reported for the value of each one before the first on
    which the condition held, then [Found satisfying example] for the
    value of that one, then [Shrunk example to] for the value of each
    later one on which the condition held, and these are all the reports.
    Nothing is reported for a value that fails the condition once one has
    satisfied it, nor for a candidate that is passed over, and the
    satisfying values reported are as many as [successful_examples]
    counts. *)
Theorem find_reports_progress
    (has_database storage_given random_given : bool) (w : FW) :
  let st' := snd (find true has_database storage_given random_given
                    (find_initial_state w)) in
  let tried :=
    if specifier_is_strategy
    then attempts (try_candidates 0
                     (fst find_candidates :: snd find_candidates) w)
    else [] in
  reports_of (find_trace st')
  = progress_reports (map attempt_value (failed_first tried))
      (map attempt_value (satisfying tried))
  /\ successful_examples st' = Z.of_nat (length (satisfying tried)).
Proof.
  intros st' tried. subst st' tried.
  destruct specifier_is_strategy eqn:Hstrategy.
  2:{ unfold find. rewrite Hstrategy. split; reflexivity. }
  destruct (find_course true has_database storage_given random_given w
              Hstrategy) as (st & runner & ran & Hs & _ & Hrun & Hran).
  unfold find. rewrite Hstrategy. cbn [negb].
  rewrite Hrun.
  assert (Hdone : reports_of (find_trace st)
                  = progress_reports
                      (map attempt_value
                         (failed_first
                            (attempts (try_candidates 0
                               (fst find_candidates :: snd find_candidates) w))))
                      (map attempt_value
                         (satisfying
                            (attempts (try_candidates 0
                               (fst find_candidates :: snd find_candidates) w))))
                  /\ successful_examples st
                     = Z.of_nat
                         (length
                            (satisfying
                               (attempts (try_candidates 0
                                  (fst find_candidates :: snd find_candidates)
                                  w))))).
  { destruct Hs as [Hc Hr _]. split; [exact Hr|exact Hc]. }
  destruct ran as [runner'|e]; [|exact Hdone].
  destruct (status_eqb _ _); [|exact Hdone].
  unfold find_for_buffer. cbn [data_buffer fworld femit set_fworld fnext_id].
  destruct (draw_value _ _) as [[value| |e] w'];
    cbn [snd]; unfold find_trace in *; cbn [set_fworld femit flog rev
                                             successful_examples];
    rewrite reports_of_app; cbn [reports_of]; rewrite app_nil_r; exact Hdone.
Qed.

(** X26.  How [find] ends is settled by the course of the search, as the
    strategy and the condition saw it.  An error that ended the search is
    raised.  When the search came to its end and the condition held on no
    candidate, [NoSuchExample] is raised with the description of the
    condition.  When it held on some, the last thing [find] does is to
    draw once more from the buffer of the last candidate on which it held,
    in the world the search left; the value drawn is returned as it is,
    without the condition being asked again, and an error of that draw is
    raised. *)
Theorem find_outcome
    (verbose has_database storage_given random_given : bool) (w : FW) :
  let run := find verbose has_database storage_given random_given
               (find_initial_state w) in
  let candidates := fst find_candidates :: snd find_candidates in
  let course := try_candidates 0 candidates w in
  if specifier_is_strategy then
    match stopped course with
    | Some e => fst run = Raised e /\ fworld (snd run) = world_left course
    | None =>
        match last (satisfying (attempts course)) with
        | None =>
            fst run = NoSuchExample condition_description
            /\ fworld (snd run) = world_left course
            /\ successful_examples (snd run) = 0
        | Some found =>
            let drawn := draw_value (attempt_buffer found) (world_left course) in
            fst run
            = match fst drawn with
              | DrewValue value => Found value
              | DrawnOverrun => Raised (StopTest (length candidates))
              | DrawnRaised e => Raised e
              end
            /\ fworld (snd run) = snd drawn
            /\ (exists earlier,
                  find_trace (snd run)
                  = (earlier ++ [FDraw (attempt_buffer found)])%list)
            /\ 1 <= successful_examples (snd run)
        end
    end
  else
    run = (Raised (InvalidArgument expected_strategy_message),
           find_initial_state w).
Proof.
  intros run candidates course. subst run.
  destruct specifier_is_strategy eqn:Hstrategy.
  2:{ unfold find. rewrite Hstrategy. reflexivity. }
  destruct (find_course verbose has_database storage_given random_given w
              Hstrategy) as (st & runner & ran & Hs & Hw & Hrun & Hran).
  fold candidates in Hs, Hw, Hran. fold course in Hs, Hw, Hran.
  unfold find. rewrite Hstrategy. cbn [negb]. rewrite Hrun.
  destruct (stopped course) as [e|].
  { subst ran. cbn [fst snd]. auto. }
  destruct Hran as [-> Hid]. destruct Hs as [Hcount _ Hlast].
  destruct (last (satisfying (attempts course))) as [found|] eqn:Elast.
  - destruct Hlast as [Hi Hb].
    rewrite (proj2 (CoreFacts.status_eqb_eq _ _) Hi).
    unfold find_for_buffer. cbn [data_buffer fworld femit set_fworld fnext_id
                                 data_id].
    rewrite Hb, Hw, Hid. cbv zeta.
    assert (Hone : 1 <= successful_examples st).
    { rewrite Hcount. destruct (satisfying (attempts course));
        [discriminate|]. cbn [length]. lia. }
    destruct (draw_value (attempt_buffer found) (world_left course))
      as [[value| |e] w']; cbn [fst snd set_fworld femit fworld
                                successful_examples];
      (split; [reflexivity|]; split; [reflexivity|]; split; [|exact Hone]);
      exists (find_trace st); reflexivity.
  - rewrite (CoreFacts.status_eqb_neq _ _ Hlast). cbn [fst snd].
    split; [reflexivity|]. split; [exact Hw|].
    rewrite Hcount. apply last_None in Elast. now rewrite Elast.
Qed.

End Facts.

(** A verbose search for an integer of at least 5: the condition holds
    on 7 and on 6, and the value returned is drawn from the buffer of 6. *)
Example find_at_least_5 :
  map (fun a => (attempt_value a, attempt_success a))
    (attempts (try_candidates (H := at_least_5) 0 [[x01]; [x07]; [x02]; [x06]]
                 0%nat))
  = [(PyInt 1, false); (PyInt 7, true); (PyInt 2, false); (PyInt 6, true)]
  /\ fst (find (H := at_least_5) true false false true
         (find_initial_state (H := at_least_5) 0%nat))
  = Found (PyInt 6)
  /\ reports_of
       (find_trace
          (snd (find (H := at_least_5) true false false true
                  (find_initial_state (H := at_least_5) 0%nat))))
     = ["Trying example 1"; "Found satisfying example 7";
        "Shrunk example to 6"].
Proof. vm_compute. auto. Qed.

End FindFacts.
